(** * PM2 Manager: monitoring, log streaming and the two stores

    A shallow embedding of the server side of the dashboard:

    - [Pm2Service]   the wrapper around the process supervisor
                     (server/pm2Service.ts), with [batchOperation];
    - [Db]           the durable Config Store (server/db.ts over the
                     drizzle schema);
    - [LocalStorage] the Fallback Store (server/localStorage.ts);
    - [Routers]      the routing layer that combines the two stores
                     (server/routers.ts);
    - [Socket]       the per-connection handlers of the real-time
                     channel (server/socket.ts).

    JavaScript numbers that the code only compares and copies (process
    ids, group ids, row ids, epoch milliseconds) are integers of [Z];
    [null] and [undefined] are both [None]; an [async] function is the
    function of its sequential chain; a call that may throw returns a
    [completion], and a call on a store returns its completion
    together with the store it leaves. *)

From Stdlib Require Import ZArith List String Ascii Bool Lia Arith.
From Stdlib Require Import DecimalString Permutation Sorted.
Import ListNotations.

Local Open Scope string_scope.
Local Open Scope list_scope.
Local Open Scope Z_scope.

(** ** Completions: normal return or a thrown value *)

(** What a [catch] clause can receive: an [Error] object with its
    message, or any other thrown value. *)
Inductive thrown : Type :=
| ErrorObj (message : string)
| OtherValue.

Inductive completion (A : Type) : Type :=
| Normal (a : A)
| Throw (e : thrown).

Arguments Normal {A} a.
Arguments Throw {A} e.

Definition throws {A : Type} (c : completion A) : bool :=
  match c with Normal _ => false | Throw _ => true end.

(** A call on a store [S]: its completion and the store it leaves,
    which a thrown error does not undo. *)
Definition stateful (S A : Type) : Type := S -> completion A * S.

Definition retS {S A : Type} (a : A) : stateful S A :=
  fun s => (Normal a, s).

Definition throwS {S A : Type} (e : thrown) : stateful S A :=
  fun s => (Throw e, s).

(** [await] of a first call, then the rest of the function. *)
Definition bindS {S A B : Type} (m : stateful S A) (k : A -> stateful S B)
  : stateful S B :=
  fun s =>
    match m s with
    | (Normal a, s') => k a s'
    | (Throw e, s') => (Throw e, s')
    end.

Notation "x <~ m ;; k" := (bindS m (fun x => k))
  (at level 61, m at next level, right associativity).

(** ** JavaScript operators used by the code *)

(** [a ?? b]: the left operand unless it is null or undefined. *)
Definition nullish {A : Type} (a b : option A) : option A :=
  match a with
  | Some x => Some x
  | None => b
  end.

(** [o?.f] for a field [f] that is itself nullable. *)
Definition optchain {A B : Type} (o : option A) (f : A -> option B)
  : option B :=
  match o with
  | Some x => f x
  | None => None
  end.

(** [s || d] on strings: the empty string is falsy. *)
Definition or_default (s : option string) (d : string) : string :=
  match s with
  | Some EmptyString | None => d
  | Some x => x
  end.

(** [s || null] on an optional string. *)
Definition or_null (s : option string) : option string :=
  match s with
  | Some EmptyString | None => None
  | Some x => Some x
  end.

(** [String.prototype.includes]: [needle] occurs in [hay] at some
    position. *)
Fixpoint includes (hay needle : string) : bool :=
  if String.prefix needle hay then true
  else match hay with
       | EmptyString => false
       | String _ rest => includes rest needle
       end.

(** [Array.prototype.findIndex]; [None] stands for -1. *)
Fixpoint findIndex {A : Type} (p : A -> bool) (l : list A) : option nat :=
  match l with
  | [] => None
  | x :: r => if p x then Some O
              else match findIndex p r with
                   | Some i => Some (S i)
                   | None => None
                   end
  end.

(** [a[i] = v] for an index inside the array. *)
Fixpoint set_nth {A : Type} (i : nat) (v : A -> A) (l : list A) : list A :=
  match l, i with
  | [], _ => []
  | x :: r, O => v x :: r
  | x :: r, S j => x :: set_nth j v r
  end.

(** A stable sort by insertion, for [Array.prototype.sort] with a
    comparator and for SQL [ORDER BY]. *)
Section Sorting.
Context {A : Type} (le : A -> A -> bool).

Fixpoint insert_sorted (x : A) (l : list A) : list A :=
  match l with
  | [] => [x]
  | y :: r => if le x y then x :: l else y :: insert_sorted x r
  end.

Definition sort_by (l : list A) : list A :=
  fold_right insert_sorted [] l.
End Sorting.

(** ** The process supervisor wrapper (server/pm2Service.ts) *)

Module Pm2Service.

Record PM2ProcessInfo : Type := {
  pm_id : Z;
  name : string;
  pid : Z;
  status : string;
  cpu : Z;
  memory : Z;
  uptime : Z;
  restarts : Z;
  script : string;
  cwd : string;
  args : list string;
  env : list (string * string);
  exec_mode : string;
  instances : Z;
  pm_uptime : Z;
  created_at : Z;
  unstable_restarts : Z;
  pm_err_log_path : option string;
  pm_out_log_path : option string
}.

Inductive operation : Type := op_start | op_stop | op_restart | op_delete.

Definition operation_name (o : operation) : string :=
  match o with
  | op_start => "start"
  | op_stop => "stop"
  | op_restart => "restart"
  | op_delete => "delete"
  end.

Record tally : Type := {
  success : Z;
  failed : Z;
  errors : list string
}.

Section Batch.
(** The supervisor daemon: its state and what one call
    ([ensureConnection] followed by the promisified pm2 method)
    does to it. *)
Variable Sup : Type.
Variable stopProcess restartProcess deleteProcess
  : Z -> Sup -> Sup * completion unit.
(** [`${id}`]: the text of an id inside a template literal, as the
    JavaScript engine renders it. *)
Variable render : Z -> string.

(** The [switch] inside the [try] block. *)
Definition dispatch (o : operation) (id : Z) (s : Sup)
  : Sup * completion unit :=
  match o with
  | op_stop => stopProcess id s
  | op_restart => restartProcess id s
  | op_delete => deleteProcess id s
  | op_start =>
      (s, Throw (ErrorObj ("Unsupported operation: " ++ operation_name o)))
  end.

(** [error instanceof Error ? error.message : 'Unknown error'] *)
Definition reason (e : thrown) : string :=
  match e with
  | ErrorObj m => m
  | OtherValue => "Unknown error"
  end.

Definition error_line (id : Z) (e : thrown) : string :=
  "Process " ++ render id ++ ": " ++ reason e.

(** One iteration of the [for] loop. *)
Definition batch_step (o : operation) (acc : Sup * tally) (id : Z)
  : Sup * tally :=
  let (s, results) := acc in
  let (s', c) := dispatch o id s in
  match c with
  | Normal _ =>
      (s', {| success := success results + 1;
              failed := failed results;
              errors := errors results |})
  | Throw e =>
      (s', {| success := success results;
              failed := failed results + 1;
              errors := errors results ++ [error_line id e] |})
  end.

Definition batchOperation (processIds : list Z) (o : operation) (s : Sup)
  : Sup * tally :=
  fold_left (batch_step o) processIds
    (s, {| success := 0; failed := 0; errors := [] |}).

End Batch.

(** *** Reading a log file *)

(** [content.split('\n')]: the pieces between the line feeds; the
    empty string gives one empty piece. *)
Fixpoint split_lines (content : string) : list string :=
  match content with
  | EmptyString => [EmptyString]
  | String c rest =>
      if Ascii.eqb c "010"%char
      then EmptyString :: split_lines rest
      else match split_lines rest with
           | piece :: pieces => String c piece :: pieces
           | [] => [String c EmptyString]
           end
  end.

(** [Array.prototype.slice(start)]: a negative start counts from the
    end, and both ends are clamped. *)
Definition slice {A : Type} (start : Z) (l : list A) : list A :=
  let len := Z.of_nat (List.length l) in
  let k := if start <? 0 then Z.max (len + start) 0 else Z.min start len in
  skipn (Z.to_nat k) l.

Section Logs.
(** [!line.trim()]: the line holds white space only. *)
Variable blank : string -> bool.

Definition getProcessLogs (readFile : completion string) (lines : option Z)
  : list string :=
  match readFile with
  | Throw _ => []
  | Normal content =>
      let allLines :=
        filter (fun line => negb (blank line)) (split_lines content) in
      slice (- match lines with Some n => n | None => 100 end) allLines
  end.
End Logs.

End Pm2Service.

(** ** Collation

    The order of [ORDER BY name], of [String.prototype.localeCompare]
    and the matching of SQL [LIKE] depend on the database collation and
    on the host locale; the development is parametric in them. *)
Record Collation : Type := {
  order_by_le : string -> string -> bool;
  localeCompare : string -> string -> Z;
  sql_like : string -> string -> bool
}.

(** ** The host's calendar

    [date.setDate(date.getDate() - n)] moves a [Date] back by [n] days
    of the calendar of the host's time zone: to the same wall-clock
    time [n] days earlier, which is [n] times 86400000 ms earlier
    unless the offset of the zone changes in between.  [days_back now
    n] is the epoch milliseconds of that date, and [None] when it
    leaves the range of [Date] (an Invalid Date). *)
Record Calendar : Type := {
  days_back : Z -> Z -> option Z
}.

(** ** The Config Store (server/db.ts, drizzle/schema.ts)

    A table is the list of its rows in insertion order.  The server
    answers every statement it is sent: it executes it, or rejects it
    with an error (the server is down, the connection is lost), and
    the promise the function awaits rejects with that error.  The
    values are assumed to fit their columns.  The user table and the
    upsert of whole task configs are left out. *)

Module Db.

Module TaskGroup.
Record t : Type := {
  id : Z;
  name : string;
  description : option string;
  color : option string;
  createdAt : Z;
  updatedAt : Z
}.
End TaskGroup.

Module InsertTaskGroup.
Record t : Type := {
  name : string;
  description : option string;
  color : option string
}.
End InsertTaskGroup.

(** [Partial<InsertTaskGroup>]: the columns an update supplies. *)
Module PartialTaskGroup.
Record t : Type := {
  name : option string;
  description : option string;
  color : option string
}.
End PartialTaskGroup.

Module TaskConfig.
Record t : Type := {
  id : Z;
  pm2Id : Z;
  name : string;
  groupId : option Z;
  script : option string;
  cwd : option string;
  args : option (list string);
  env : option (list (string * string));
  instances : option Z;
  execMode : option string;
  autorestart : option Z;
  maxRestarts : option Z;
  minUptime : option Z;
  maxMemoryRestart : option string;
  createdAt : Z;
  updatedAt : Z
}.
End TaskConfig.

Module PerformanceMetric.
Record t : Type := {
  id : Z;
  pm2Id : Z;
  cpu : Z;
  memory : Z;
  timestamp : Z
}.
End PerformanceMetric.

Module InsertPerformanceMetric.
Record t : Type := {
  pm2Id : Z;
  cpu : Z;
  memory : Z
}.
End InsertPerformanceMetric.

Inductive log_type : Type := stdout | stderr.

Module LogEntry.
Record t : Type := {
  id : Z;
  pm2Id : Z;
  type : log_type;
  content : string;
  timestamp : Z
}.
End LogEntry.

Module InsertLogEntry.
Record t : Type := {
  pm2Id : Z;
  type : log_type;
  content : string
}.
End InsertLogEntry.

(** The four tables with their AUTO_INCREMENT counters. *)
Record Database : Type := {
  taskGroups : list TaskGroup.t;
  taskGroups_auto : Z;
  taskConfigs : list TaskConfig.t;
  taskConfigs_auto : Z;
  performanceMetrics : list PerformanceMetric.t;
  performanceMetrics_auto : Z;
  logEntries : list LogEntry.t;
  logEntries_auto : Z
}.

(** The store as the functions below meet it.  [handle] tells whether
    [getDb()] resolves to a drizzle handle or to null (no
    DATABASE_URL).  [faults] holds, for each of the statements to
    come, the error with which the server rejects it, [None] when it
    executes it; past the end of the list every statement is executed.
    [tables] is what the server holds, whether or not this process has
    a handle on it. *)
Record conn : Type := {
  handle : bool;
  faults : list (option thrown);
  tables : Database
}.

(** A backend that executes every statement to come. *)
Definition reachable (d : Database) : conn :=
  {| handle := true; faults := []; tables := d |}.

(** No handle: [getDb()] resolves to null. *)
Definition unreachable (d : Database) : conn :=
  {| handle := false; faults := []; tables := d |}.

(** A backend that rejects the next [n] statements with [e]. *)
Definition rejecting (e : thrown) (n : nat) (d : Database) : conn :=
  {| handle := true; faults := repeat (Some e) n; tables := d |}.

Definition with_taskGroups (d : Database) (g : list TaskGroup.t) (a : Z)
  : Database :=
  {| taskGroups := g; taskGroups_auto := a;
     taskConfigs := taskConfigs d; taskConfigs_auto := taskConfigs_auto d;
     performanceMetrics := performanceMetrics d;
     performanceMetrics_auto := performanceMetrics_auto d;
     logEntries := logEntries d; logEntries_auto := logEntries_auto d |}.

Definition with_taskConfigs (d : Database) (c : list TaskConfig.t) (a : Z)
  : Database :=
  {| taskGroups := taskGroups d; taskGroups_auto := taskGroups_auto d;
     taskConfigs := c; taskConfigs_auto := a;
     performanceMetrics := performanceMetrics d;
     performanceMetrics_auto := performanceMetrics_auto d;
     logEntries := logEntries d; logEntries_auto := logEntries_auto d |}.

Definition with_performanceMetrics (d : Database)
  (m : list PerformanceMetric.t) (a : Z) : Database :=
  {| taskGroups := taskGroups d; taskGroups_auto := taskGroups_auto d;
     taskConfigs := taskConfigs d; taskConfigs_auto := taskConfigs_auto d;
     performanceMetrics := m; performanceMetrics_auto := a;
     logEntries := logEntries d; logEntries_auto := logEntries_auto d |}.

Definition with_logEntries (d : Database) (l : list LogEntry.t) (a : Z)
  : Database :=
  {| taskGroups := taskGroups d; taskGroups_auto := taskGroups_auto d;
     taskConfigs := taskConfigs d; taskConfigs_auto := taskConfigs_auto d;
     performanceMetrics := performanceMetrics d;
     performanceMetrics_auto := performanceMetrics_auto d;
     logEntries := l; logEntries_auto := a |}.

(** One statement sent through the handle: the server rejects it, or
    executes it on its tables. *)
Definition statement {A : Type} (run : Database -> A * Database)
  : stateful conn A :=
  fun db =>
    let later := {| handle := handle db;
                    faults := tl (faults db);
                    tables := tables db |} in
    match hd None (faults db) with
    | Some e => (Throw e, later)
    | None =>
        let (a, d) := run (tables db) in
        (Normal a, {| handle := handle db;
                      faults := tl (faults db);
                      tables := d |})
    end.

(** A SELECT, and an INSERT, UPDATE or DELETE whose answer is not
    used. *)
Definition select {A : Type} (rows : Database -> A) : stateful conn A :=
  statement (fun d => (rows d, d)).

Definition update (change : Database -> Database) : stateful conn unit :=
  statement (fun d => (tt, change d)).

(** *** Task groups *)

Definition getAllTaskGroups (K : Collation)
  : stateful conn (list TaskGroup.t) :=
  fun db =>
    if handle db
    then select
           (fun d =>
              sort_by (fun a b => order_by_le K (TaskGroup.name a)
                                              (TaskGroup.name b))
                      (taskGroups d))
           db
    else (Normal [], db).

Definition getTaskGroupById (id : Z) : stateful conn (option TaskGroup.t) :=
  fun db =>
    if handle db
    then select (fun d => find (fun g => TaskGroup.id g =? id) (taskGroups d))
                db
    else (Normal None, db).

(** The row an INSERT builds: the column default of [color] is
    ["#00ffff"], both timestamps default to now. *)
Definition new_group_row (id now : Z) (group : InsertTaskGroup.t)
  : TaskGroup.t :=
  {| TaskGroup.id := id;
     TaskGroup.name := InsertTaskGroup.name group;
     TaskGroup.description := InsertTaskGroup.description group;
     TaskGroup.color :=
       match InsertTaskGroup.color group with
       | Some c => Some c
       | None => Some "#00ffff"
       end;
     TaskGroup.createdAt := now;
     TaskGroup.updatedAt := now |}.

(** [INSERT INTO task_groups]: the statement answers with the id it
    gave the row. *)
Definition insert_group (now : Z) (group : InsertTaskGroup.t) (d : Database)
  : Z * Database :=
  (taskGroups_auto d,
   with_taskGroups d
     (taskGroups d ++ [new_group_row (taskGroups_auto d) now group])
     (taskGroups_auto d + 1)).

Definition createTaskGroup (now : Z) (group : InsertTaskGroup.t)
  : stateful conn TaskGroup.t :=
  fun db =>
    if handle db
    then
      (insertedId <~ statement (insert_group now group) ;;
       inserted <~ getTaskGroupById insertedId ;;
       match inserted with
       | None => throwS (ErrorObj "Failed to retrieve inserted group")
       | Some g => retS g
       end) db
    else (Throw (ErrorObj "Database not available"), db).

Definition same_text (a b : option string) : bool :=
  match a, b with
  | Some x, Some y => String.eqb x y
  | None, None => true
  | _, _ => false
  end.

(** [UPDATE ... SET data] on one row: only the supplied columns
    change, and [updatedAt] (ON UPDATE CURRENT_TIMESTAMP) moves to now
    when the value of one of them changes. *)
Definition set_group (now : Z) (data : PartialTaskGroup.t) (g : TaskGroup.t)
  : TaskGroup.t :=
  let name :=
    match PartialTaskGroup.name data with
    | Some n => n
    | None => TaskGroup.name g
    end in
  let description :=
    match PartialTaskGroup.description data with
    | Some x => Some x
    | None => TaskGroup.description g
    end in
  let color :=
    match PartialTaskGroup.color data with
    | Some c => Some c
    | None => TaskGroup.color g
    end in
  {| TaskGroup.id := TaskGroup.id g;
     TaskGroup.name := name;
     TaskGroup.description := description;
     TaskGroup.color := color;
     TaskGroup.createdAt := TaskGroup.createdAt g;
     TaskGroup.updatedAt :=
       if String.eqb name (TaskGroup.name g)
          && same_text description (TaskGroup.description g)
          && same_text color (TaskGroup.color g)
       then TaskGroup.updatedAt g
       else now |}.

(** [set(data)] finds no column with a value: drizzle throws
    'No values to set' before a statement is built. *)
Definition no_values (data : PartialTaskGroup.t) : bool :=
  match PartialTaskGroup.name data, PartialTaskGroup.description data,
        PartialTaskGroup.color data with
  | None, None, None => true
  | _, _, _ => false
  end.

Definition updateTaskGroup (now id : Z) (data : PartialTaskGroup.t)
  : stateful conn (option TaskGroup.t) :=
  fun db =>
    if handle db
    then
      if no_values data
      then (Throw (ErrorObj "No values to set"), db)
      else
        (_ <~ update
                (fun d =>
                   with_taskGroups d
                     (map (fun g => if TaskGroup.id g =? id
                                    then set_group now data g else g)
                          (taskGroups d))
                     (taskGroups_auto d)) ;;
         getTaskGroupById id) db
    else (Normal None, db).

Definition groupId_is (id : Z) (g : option Z) : bool :=
  match g with
  | Some x => x =? id
  | None => false
  end.

Definition same_group (a b : option Z) : bool :=
  match a, b with
  | Some x, Some y => x =? y
  | None, None => true
  | _, _ => false
  end.

(** [UPDATE task_configs SET groupId = ...] on one row; [updatedAt]
    moves to now when the group id changes. *)
Definition assign_group (now : Z) (groupId : option Z) (c : TaskConfig.t)
  : TaskConfig.t :=
  {| TaskConfig.id := TaskConfig.id c;
     TaskConfig.pm2Id := TaskConfig.pm2Id c;
     TaskConfig.name := TaskConfig.name c;
     TaskConfig.groupId := groupId;
     TaskConfig.script := TaskConfig.script c;
     TaskConfig.cwd := TaskConfig.cwd c;
     TaskConfig.args := TaskConfig.args c;
     TaskConfig.env := TaskConfig.env c;
     TaskConfig.instances := TaskConfig.instances c;
     TaskConfig.execMode := TaskConfig.execMode c;
     TaskConfig.autorestart := TaskConfig.autorestart c;
     TaskConfig.maxRestarts := TaskConfig.maxRestarts c;
     TaskConfig.minUptime := TaskConfig.minUptime c;
     TaskConfig.maxMemoryRestart := TaskConfig.maxMemoryRestart c;
     TaskConfig.createdAt := TaskConfig.createdAt c;
     TaskConfig.updatedAt :=
       if same_group groupId (TaskConfig.groupId c)
       then TaskConfig.updatedAt c
       else now |}.

Definition deleteTaskGroup (now id : Z) : stateful conn unit :=
  fun db =>
    if handle db
    then
      ((* Remove group assignment from tasks *)
       _ <~ update
              (fun d =>
                 with_taskConfigs d
                   (map (fun c => if groupId_is id (TaskConfig.groupId c)
                                  then assign_group now None c else c)
                        (taskConfigs d))
                   (taskConfigs_auto d)) ;;
       update
         (fun d =>
            with_taskGroups d
              (filter (fun g => negb (TaskGroup.id g =? id)) (taskGroups d))
              (taskGroups_auto d))) db
    else (Normal tt, db).

(** *** Task configs *)

Definition getAllTaskConfigs (K : Collation)
  : stateful conn (list TaskConfig.t) :=
  fun db =>
    if handle db
    then select
           (fun d =>
              sort_by (fun a b => order_by_le K (TaskConfig.name a)
                                              (TaskConfig.name b))
                      (taskConfigs d))
           db
    else (Normal [], db).

Definition getTaskConfigByPm2Id (pm2Id : Z)
  : stateful conn (option TaskConfig.t) :=
  fun db =>
    if handle db
    then select
           (fun d => find (fun c => TaskConfig.pm2Id c =? pm2Id)
                          (taskConfigs d))
           db
    else (Normal None, db).

Definition deleteTaskConfig (pm2Id : Z) : stateful conn unit :=
  fun db =>
    if handle db
    then update
           (fun d =>
              with_taskConfigs d
                (filter (fun c => negb (TaskConfig.pm2Id c =? pm2Id))
                        (taskConfigs d))
                (taskConfigs_auto d))
           db
    else (Normal tt, db).

Definition updateTaskConfigGroup (now pm2Id : Z) (groupId : option Z)
  : stateful conn unit :=
  fun db =>
    if handle db
    then update
           (fun d =>
              with_taskConfigs d
                (map (fun c => if TaskConfig.pm2Id c =? pm2Id
                               then assign_group now groupId c
                               else c)
                     (taskConfigs d))
                (taskConfigs_auto d))
           db
    else (Normal tt, db).

(** *** Performance metrics *)

Definition metric_row (id now : Z) (metric : InsertPerformanceMetric.t)
  : PerformanceMetric.t :=
  {| PerformanceMetric.id := id;
     PerformanceMetric.pm2Id := InsertPerformanceMetric.pm2Id metric;
     PerformanceMetric.cpu := InsertPerformanceMetric.cpu metric;
     PerformanceMetric.memory := InsertPerformanceMetric.memory metric;
     PerformanceMetric.timestamp := now |}.

Definition insertPerformanceMetric (now : Z)
  (metric : InsertPerformanceMetric.t) : stateful conn unit :=
  fun db =>
    if handle db
    then update
           (fun d =>
              with_performanceMetrics d
                (performanceMetrics d
                 ++ [metric_row (performanceMetrics_auto d) now metric])
                (performanceMetrics_auto d + 1))
           db
    else (Normal tt, db).

(** [gte(column, startTime)] when a start time is given. *)
Definition after_start (startTime : option Z) (t : Z) : bool :=
  match startTime with
  | Some s => s <=? t
  | None => true
  end.

(** [lte(column, endTime)] when an end time is given. *)
Definition before_end (endTime : option Z) (t : Z) : bool :=
  match endTime with
  | Some e => t <=? e
  | None => true
  end.

Definition getPerformanceMetrics (pm2Id : Z)
  (startTime endTime : option Z) (limit : option Z)
  : stateful conn (list PerformanceMetric.t) :=
  fun db =>
    if handle db
    then
      let n := match limit with Some n => n | None => 100 end in
      select
        (fun d =>
           firstn (Z.to_nat n)
             (sort_by (fun a b => PerformanceMetric.timestamp b
                                  <=? PerformanceMetric.timestamp a)
                (filter (fun m => (PerformanceMetric.pm2Id m =? pm2Id)
                                  && after_start startTime
                                       (PerformanceMetric.timestamp m)
                                  && before_end endTime
                                       (PerformanceMetric.timestamp m))
                        (performanceMetrics d))))
        db
    else (Normal [], db).

Definition default_days (daysToKeep : option Z) (d : Z) : Z :=
  match daysToKeep with
  | Some n => n
  | None => d
  end.

(** The error of a query whose parameter is an Invalid Date: drizzle
    renders a [Date] parameter with [toISOString], which throws a
    RangeError, before the statement is sent. *)
Definition invalid_time : thrown := ErrorObj "Invalid time value".

Definition cleanOldPerformanceMetrics (C : Calendar) (now : Z)
  (daysToKeep : option Z) : stateful conn unit :=
  fun db =>
    if handle db
    then
      match days_back C now (default_days daysToKeep 7) with
      | None => (Throw invalid_time, db)
      | Some cutoffDate =>
          (* DELETE ... WHERE timestamp <= cutoffDate *)
          update
            (fun d =>
               with_performanceMetrics d
                 (filter (fun m => negb (PerformanceMetric.timestamp m
                                         <=? cutoffDate))
                         (performanceMetrics d))
                 (performanceMetrics_auto d))
            db
      end
    else (Normal tt, db).

(** *** Log entries *)

Definition log_row (id now : Z) (entry : InsertLogEntry.t) : LogEntry.t :=
  {| LogEntry.id := id;
     LogEntry.pm2Id := InsertLogEntry.pm2Id entry;
     LogEntry.type := InsertLogEntry.type entry;
     LogEntry.content := InsertLogEntry.content entry;
     LogEntry.timestamp := now |}.

Definition insertLogEntry (now : Z) (entry : InsertLogEntry.t)
  : stateful conn unit :=
  fun db =>
    if handle db
    then update
           (fun d =>
              with_logEntries d
                (logEntries d ++ [log_row (logEntries_auto d) now entry])
                (logEntries_auto d + 1))
           db
    else (Normal tt, db).

(** [if (keyword)]: the empty keyword adds no condition. *)
Definition matches_keyword (K : Collation) (keyword : option string)
  (content : string) : bool :=
  match keyword with
  | None | Some EmptyString => true
  | Some k => sql_like K (String "%" (k ++ "%")) content
  end.

Definition getLogEntries (K : Collation) (pm2Id : Z)
  (startTime endTime : option Z) (keyword : option string)
  (limit : option Z) : stateful conn (list LogEntry.t) :=
  fun db =>
    if handle db
    then
      let n := match limit with Some n => n | None => 500 end in
      select
        (fun d =>
           firstn (Z.to_nat n)
             (sort_by (fun a b => LogEntry.timestamp b <=? LogEntry.timestamp a)
                (filter (fun e => (LogEntry.pm2Id e =? pm2Id)
                                  && after_start startTime
                                       (LogEntry.timestamp e)
                                  && before_end endTime (LogEntry.timestamp e)
                                  && matches_keyword K keyword
                                       (LogEntry.content e))
                        (logEntries d))))
        db
    else (Normal [], db).

Definition cleanOldLogEntries (C : Calendar) (now : Z)
  (daysToKeep : option Z) : stateful conn unit :=
  fun db =>
    if handle db
    then
      match days_back C now (default_days daysToKeep 30) with
      | None => (Throw invalid_time, db)
      | Some cutoffDate =>
          update
            (fun d =>
               with_logEntries d
                 (filter (fun e => negb (LogEntry.timestamp e <=? cutoffDate))
                         (logEntries d))
                 (logEntries_auto d))
            db
      end
    else (Normal tt, db).

End Db.

(** ** The Fallback Store (server/localStorage.ts)

    The data file is the document it holds; writing it succeeds. *)

Module LocalStorage.

Module LocalTaskGroup.
Record t : Type := {
  id : Z;
  name : string;
  description : option string;
  color : string;
  createdAt : string;
  updatedAt : string
}.
End LocalTaskGroup.

Module LocalTaskConfig.
Record t : Type := {
  pm2Id : Z;
  groupId : option Z
}.
End LocalTaskConfig.

(** The argument of [createTaskGroupLocal]. *)
Module GroupInput.
Record t : Type := {
  name : string;
  description : option string;
  color : option string
}.
End GroupInput.

(** The argument of [updateTaskGroupLocal], for updates whose keys all
    hold a string: [None] is a key the update does not have.  An
    update that has a key with the value undefined is outside this
    type. *)
Module GroupUpdates.
Record t : Type := {
  name : option string;
  description : option string;
  color : option string
}.
End GroupUpdates.

Record LocalStorage : Type := {
  groups : list LocalTaskGroup.t;
  configs : list LocalTaskConfig.t;
  nextGroupId : Z
}.

(** The content of DATA_FILE: [None] when the file does not exist or
    does not parse. *)
Definition disk : Type := option LocalStorage.

Definition loadData (f : disk) : LocalStorage :=
  match f with
  | Some data => data
  | None => {| groups := []; configs := []; nextGroupId := 1 |}
  end.

Definition saveData (data : LocalStorage) : disk := Some data.

(** *** Task groups *)

Definition getAllTaskGroupsLocal (K : Collation) (f : disk)
  : list LocalTaskGroup.t :=
  let data := loadData f in
  sort_by (fun a b => localeCompare K (LocalTaskGroup.name a)
                                      (LocalTaskGroup.name b) <=? 0)
          (groups data).


Definition createTaskGroupLocal (now : string) (group : GroupInput.t)
  (f : disk) : LocalTaskGroup.t * disk :=
  let data := loadData f in
  let newGroup :=
    {| LocalTaskGroup.id := nextGroupId data;
       LocalTaskGroup.name := GroupInput.name group;
       LocalTaskGroup.description := or_null (GroupInput.description group);
       LocalTaskGroup.color := or_default (GroupInput.color group) "#3B82F6";
       LocalTaskGroup.createdAt := now;
       LocalTaskGroup.updatedAt := now |} in
  (newGroup,
   saveData {| groups := groups data ++ [newGroup];
               configs := configs data;
               nextGroupId := nextGroupId data + 1 |}).

(** [{ ...old, ...updates, updatedAt }] *)
Definition apply_updates (now : string) (updates : GroupUpdates.t)
  (g : LocalTaskGroup.t) : LocalTaskGroup.t :=
  {| LocalTaskGroup.id := LocalTaskGroup.id g;
     LocalTaskGroup.name :=
       match GroupUpdates.name updates with
       | Some n => n
       | None => LocalTaskGroup.name g
       end;
     LocalTaskGroup.description :=
       match GroupUpdates.description updates with
       | Some x => Some x
       | None => LocalTaskGroup.description g
       end;
     LocalTaskGroup.color :=
       match GroupUpdates.color updates with
       | Some c => c
       | None => LocalTaskGroup.color g
       end;
     LocalTaskGroup.createdAt := LocalTaskGroup.createdAt g;
     LocalTaskGroup.updatedAt := now |}.

Definition updateTaskGroupLocal (now : string) (id : Z)
  (updates : GroupUpdates.t) (f : disk)
  : option LocalTaskGroup.t * disk :=
  let data := loadData f in
  match findIndex (fun g => LocalTaskGroup.id g =? id) (groups data) with
  | None => (None, f)
  | Some index =>
      let groups' := set_nth index (apply_updates now updates) (groups data) in
      (nth_error groups' index,
       saveData {| groups := groups';
                   configs := configs data;
                   nextGroupId := nextGroupId data |})
  end.

Definition groupId_is (id : Z) (g : option Z) : bool :=
  match g with
  | Some x => x =? id
  | None => false
  end.


(** *** Task configs *)

Definition getAllTaskConfigsLocal (f : disk) : list LocalTaskConfig.t :=
  configs (loadData f).


Definition updateTaskConfigGroupLocal (pm2Id : Z) (groupId : option Z)
  (f : disk) : disk :=
  let data := loadData f in
  let configs' :=
    match findIndex (fun c => LocalTaskConfig.pm2Id c =? pm2Id)
                    (configs data) with
    | None =>
        (configs data ++ [{| LocalTaskConfig.pm2Id := pm2Id;
                            LocalTaskConfig.groupId := groupId |}])%list
    | Some index =>
        set_nth index
          (fun c => {| LocalTaskConfig.pm2Id := LocalTaskConfig.pm2Id c;
                       LocalTaskConfig.groupId := groupId |})
          (configs data)
    end in
  saveData {| groups := groups data;
              configs := configs';
              nextGroupId := nextGroupId data |}.

End LocalStorage.

(** ** The routing layer (server/routers.ts) *)

Module Routers.
Import Pm2Service.

(** The two stores the procedures work on. *)
Record stores : Type := {
  db : Db.conn;
  file : LocalStorage.disk
}.

Definition with_db (s : stores) (d : Db.conn) : stores :=
  {| db := d; file := file s |}.

Definition with_file (s : stores) (f : LocalStorage.disk) : stores :=
  {| db := db s; file := f |}.

(** A call of the Config Store inside a procedure. *)
Definition on_db {A : Type} (m : stateful Db.conn A) : stateful stores A :=
  fun s => let (c, d) := m (db s) in (c, with_db s d).

(** A group as a procedure returns it: a row of the Config Store or
    an entry of the Fallback Store. *)
Inductive group : Type :=
| DbGroup (g : Db.TaskGroup.t)
| LocalGroup (g : LocalStorage.LocalTaskGroup.t).

Definition group_id (g : group) : Z :=
  match g with
  | DbGroup r => Db.TaskGroup.id r
  | LocalGroup r => LocalStorage.LocalTaskGroup.id r
  end.

Definition group_name (g : group) : string :=
  match g with
  | DbGroup r => Db.TaskGroup.name r
  | LocalGroup r => LocalStorage.LocalTaskGroup.name r
  end.

Definition group_color (g : group) : option string :=
  match g with
  | DbGroup r => Db.TaskGroup.color r
  | LocalGroup r => Some (LocalStorage.LocalTaskGroup.color r)
  end.

(** The clock readings a mutation takes: epoch milliseconds for the
    database, the ISO rendering for the local file. *)
Record clock : Type := {
  now : Z;
  iso : string
}.

(** *** groups *)

Definition groups_list (K : Collation) : stateful stores (list group) :=
  dbGroups <~ on_db (Db.getAllTaskGroups K) ;;
  fun s =>
    if (0 <? Z.of_nat (List.length dbGroups))
    then (Normal (map DbGroup dbGroups), s)
    else (* Fallback to local storage *)
      (Normal (map LocalGroup (LocalStorage.getAllTaskGroupsLocal K (file s))),
       s).

Definition as_insert (input : LocalStorage.GroupInput.t)
  : Db.InsertTaskGroup.t :=
  {| Db.InsertTaskGroup.name := LocalStorage.GroupInput.name input;
     Db.InsertTaskGroup.description :=
       LocalStorage.GroupInput.description input;
     Db.InsertTaskGroup.color := LocalStorage.GroupInput.color input |}.

Definition groups_create (t : clock) (input : LocalStorage.GroupInput.t)
  (s : stores) : group * stores :=
  match on_db (Db.createTaskGroup (now t) (as_insert input)) s with
  | (Normal g, s') => (DbGroup g, s')
  | (Throw _, s') =>
      (* Fallback to local storage *)
      let (g, f') :=
        LocalStorage.createTaskGroupLocal (iso t) input (file s') in
      (LocalGroup g, with_file s' f')
  end.

Definition as_partial (data : LocalStorage.GroupUpdates.t)
  : Db.PartialTaskGroup.t :=
  {| Db.PartialTaskGroup.name := LocalStorage.GroupUpdates.name data;
     Db.PartialTaskGroup.description :=
       LocalStorage.GroupUpdates.description data;
     Db.PartialTaskGroup.color := LocalStorage.GroupUpdates.color data |}.

Definition groups_update (t : clock) (id : Z)
  (data : LocalStorage.GroupUpdates.t) : stateful stores (option group) :=
  dbResult <~ on_db (Db.updateTaskGroup (now t) id (as_partial data)) ;;
  fun s =>
    match dbResult with
    | Some row => (Normal (Some (DbGroup row)), s)
    | None =>
        (* Fallback to local storage *)
        let (g, f') :=
          LocalStorage.updateTaskGroupLocal (iso t) id data (file s) in
        (Normal (option_map LocalGroup g), with_file s f')
    end.


(** *** processes *)

(** An element of the merged view: the snapshot's own fields, the
    resolved group id and, for the query procedure, the database
    config. *)
Record merged : Type := {
  proc : PM2ProcessInfo;
  groupId : option Z;
  config : option Db.TaskConfig.t
}.

Definition processes_list (processes : list PM2ProcessInfo)
  (dbConfigs : list Db.TaskConfig.t)
  (localConfigs : list LocalStorage.LocalTaskConfig.t) : list merged :=
  map (fun proc =>
         let localConfig :=
           find (fun c => LocalStorage.LocalTaskConfig.pm2Id c =? pm_id proc)
                localConfigs in
         let dbConfig :=
           find (fun c => Db.TaskConfig.pm2Id c =? pm_id proc) dbConfigs in
         {| proc := proc;
            groupId :=
              nullish (optchain localConfig LocalStorage.LocalTaskConfig.groupId)
                      (nullish (optchain dbConfig Db.TaskConfig.groupId) None);
            config := dbConfig |})
      processes.

Definition processes_updateGroup (t : clock) (pm2Id : Z)
  (groupId : option Z) (s : stores) : bool * stores :=
  (* Always write to local storage first *)
  let s1 :=
    with_file s
      (LocalStorage.updateTaskConfigGroupLocal pm2Id groupId (file s)) in
  (* Also try to write to database if available; a rejection is
     caught and dropped *)
  let (_, s2) := on_db (Db.updateTaskConfigGroup (now t) pm2Id groupId) s1 in
  (true, s2).

(** *** processes.delete and processes.batchOperation *)

(** [z.enum(['stop', 'restart', 'delete'])] *)
Inductive batch_operation : Type := batch_stop | batch_restart | batch_delete.

Definition service_operation (o : batch_operation) : operation :=
  match o with
  | batch_stop => op_stop
  | batch_restart => op_restart
  | batch_delete => op_delete
  end.

(** The loop that cleans up the configs of a delete batch: a rejected
    statement ends it. *)
Fixpoint delete_configs (pm2Ids : list Z) : stateful Db.conn unit :=
  match pm2Ids with
  | [] => retS tt
  | pm2Id :: rest =>
      _ <~ Db.deleteTaskConfig pm2Id ;;
      delete_configs rest
  end.

Section Supervised.
Variable Sup : Type.
Variable stopProcess restartProcess deleteProcess
  : Z -> Sup -> Sup * completion unit.
Variable render : Z -> string.

Definition processes_delete (pm2Id : Z) (sup : Sup) (s : stores)
  : Sup * (completion bool * stores) :=
  let (sup', c) := deleteProcess pm2Id sup in
  (sup',
   match c with
   | Throw e => (Throw e, s)
   | Normal _ =>
       (_ <~ on_db (Db.deleteTaskConfig pm2Id) ;;
        retS true) s
   end).

Definition processes_batchOperation (pm2Ids : list Z) (o : batch_operation)
  (sup : Sup) (s : stores) : Sup * (completion tally * stores) :=
  let (sup', result) :=
    batchOperation Sup stopProcess restartProcess deleteProcess render
      pm2Ids (service_operation o) sup in
  (sup',
   (* Clean up configs for deleted processes *)
   match o with
   | batch_delete =>
       (_ <~ on_db (delete_configs pm2Ids) ;;
        retS result) s
   | _ => (Normal result, s)
   end).
End Supervised.

End Routers.


(** ** The real-time channel (server/socket.ts)

    One connection is followed through the events that reach it: the
    commands of its observer, its [disconnect], and the callbacks the
    event loop runs for it (an interval firing, the pm2 bus delivering
    a log packet). Every event carries what the outside world answers
    during its handler: the clock, the supervisor's process list or
    description, the content of the log files; what the database
    server answers is in the store.  An event stands for its handler
    run from start to end with no other event of the connection taken
    in between, so a list of events is one schedule of the event loop,
    the one in which every handler has finished, awaited calls
    included, when the next event arrives.  The subscription to group
    updates, which only joins a room, is left out. *)

Module Socket.
Import Pm2Service.

(** A [Timeout] object or a pm2 bus, by creation number. *)
Definition handle : Type := nat.

(** [socket.data]: falsy slots are [None]. *)
Record socket_data : Type := {
  monitorInterval : option handle;
  pm2Bus : option handle
}.

Record world : Type := {
  data : socket_data;
  (** the intervals of the event loop that were set and not cleared *)
  intervals : list handle;
  (** the open buses, each with the [data.pm2Id] its [logHandler]
      closes over *)
  buses : list (handle * Z);
  next_handle : handle;
  st : Routers.stores
}.

Definition connect (s : Routers.stores) : world :=
  {| data := {| monitorInterval := None; pm2Bus := None |};
     intervals := [];
     buses := [];
     next_handle := O;
     st := s |}.

(** The payload of ['logs:data']. *)
Record LogData : Type := {
  pm2Id : Z;
  type : Db.log_type;
  content : string;
  timestamp : Z
}.

(** An element of ['processes:update']. *)
Record with_group : Type := {
  proc : PM2ProcessInfo;
  groupId : option Z
}.

(** What a handler does that is visible outside the connection:
    [socket.emit], the calls of the Config Store's inserts, and a
    rejection that nothing catches. *)
Inductive action : Type :=
| emit_processes_update (processesWithGroups : list with_group)
| emit_logs_data (d : LogData)
| emit_error (message : string)
| insertPerformanceMetric (m : Db.InsertPerformanceMetric.t)
| insertLogEntry (e : Db.InsertLogEntry.t)
| unhandled_rejection (e : thrown).

Inductive stream_type : Type := type_stdout | type_stderr | type_both.

Record stream_request : Type := {
  req_pm2Id : Z;
  req_type : stream_type
}.

(** A packet of the pm2 bus. *)
Record packet : Type := {
  process_pm_id : Z;
  packet_data : option string;
  packet_error : option string;
  packet_at : Z
}.

Inductive event : Type :=
| monitor_start (now : Z) (listed : completion (list PM2ProcessInfo))
| monitor_stop
| logs_stream (now : Z) (request : stream_request)
    (described : completion (option PM2ProcessInfo))
    (readLines : string -> completion (list string))
    (launchBus_err : bool)
| logs_stop
| disconnect
| interval_fires (h : handle) (now : Z)
    (listed : completion (list PM2ProcessInfo))
| bus_log (b : handle) (now : Z) (p : packet).

(** *** monitor:start *)

Definition processesWithGroups (processes : list PM2ProcessInfo)
  (dbConfigs : list Db.TaskConfig.t)
  (localConfigs : list LocalStorage.LocalTaskConfig.t) : list with_group :=
  map (fun proc =>
         let localConfig :=
           find (fun c => LocalStorage.LocalTaskConfig.pm2Id c =? pm_id proc)
                localConfigs in
         let dbConfig :=
           find (fun c => Db.TaskConfig.pm2Id c =? pm_id proc) dbConfigs in
         {| proc := proc;
            groupId :=
              nullish (optchain localConfig LocalStorage.LocalTaskConfig.groupId)
                      (nullish (optchain dbConfig Db.TaskConfig.groupId) None) |})
      processes.

Definition metric_of (proc : PM2ProcessInfo) : Db.InsertPerformanceMetric.t :=
  {| Db.InsertPerformanceMetric.pm2Id := pm_id proc;
     Db.InsertPerformanceMetric.cpu := cpu proc;
     Db.InsertPerformanceMetric.memory := memory proc |}.

(** The [for] loop that records performance metrics: a rejected
    insert ends it. *)
Fixpoint record_metrics (now : Z) (processes : list PM2ProcessInfo)
  (d : Db.conn) : completion unit * Db.conn * list action :=
  match processes with
  | [] => (Normal tt, d, [])
  | proc :: rest =>
      if String.eqb (status proc) "online"
      then match Db.insertPerformanceMetric now (metric_of proc) d with
           | (Normal _, d') =>
               match record_metrics now rest d' with
               | (r, d2, acts) =>
                   (r, d2, insertPerformanceMetric (metric_of proc) :: acts)
               end
           | (Throw e, d') =>
               (Throw e, d', [insertPerformanceMetric (metric_of proc)])
           end
      else record_metrics now rest d
  end.

(** The body of the [try] block, and its [catch]. *)
Definition fetchAndSendProcesses (K : Collation) (now : Z)
  (listed : completion (list PM2ProcessInfo)) (s : Routers.stores)
  : Routers.stores * list action :=
  let failed := [emit_error "Failed to fetch process data"] in
  match listed with
  | Throw _ => (s, failed)
  | Normal processes =>
      match Db.getAllTaskConfigs K (Routers.db s) with
      | (Throw _, d1) => (Routers.with_db s d1, failed)
      | (Normal dbConfigs, d1) =>
          let localConfigs :=
            LocalStorage.getAllTaskConfigsLocal (Routers.file s) in
          let update :=
            emit_processes_update
              (processesWithGroups processes dbConfigs localConfigs) in
          match record_metrics now processes d1 with
          | (Normal _, d2, acts) => (Routers.with_db s d2, update :: acts)
          | (Throw _, d2, acts) =>
              (Routers.with_db s d2, update :: acts ++ failed)
          end
      end
  end.

Definition on_monitor_start (K : Collation) (now : Z)
  (listed : completion (list PM2ProcessInfo)) (w : world)
  : world * list action :=
  (* Send immediately on start *)
  let (s', acts) := fetchAndSendProcesses K now listed (st w) in
  (* Then continue with interval *)
  let monitorInterval := next_handle w in
  ({| data := {| monitorInterval := Some monitorInterval;
                 pm2Bus := pm2Bus (data w) |};
      intervals := intervals w ++ [monitorInterval];
      buses := buses w;
      next_handle := S (next_handle w);
      st := s' |},
   acts).

(** [clearInterval]: the timer no longer fires. *)
Definition clearInterval (h : handle) (l : list handle) : list handle :=
  filter (fun x => negb (Nat.eqb x h)) l.

(** *** monitor:stop *)

Definition on_monitor_stop (w : world) : world * list action :=
  match monitorInterval (data w) with
  | Some h =>
      ({| data := {| monitorInterval := None; pm2Bus := pm2Bus (data w) |};
          intervals := clearInterval h (intervals w);
          buses := buses w;
          next_handle := next_handle w;
          st := st w |},
       [])
  | None => (w, [])
  end.

(** The interval callback: a cleared interval does not fire. *)
Definition on_interval (K : Collation) (h : handle) (now : Z)
  (listed : completion (list PM2ProcessInfo)) (w : world)
  : world * list action :=
  if existsb (Nat.eqb h) (intervals w)
  then
    let (s', acts) := fetchAndSendProcesses K now listed (st w) in
    ({| data := data w;
        intervals := intervals w;
        buses := buses w;
        next_handle := next_handle w;
        st := s' |},
     acts)
  else (w, []).

(** *** logs:stream *)

Definition maxLines : nat := 100.

(** [lines.push(line); if (lines.length > maxLines) lines.shift();] *)
Definition push_line (lines : list string) (line : string) : list string :=
  let pushed := (lines ++ [line])%list in
  if Nat.ltb maxLines (List.length pushed) then tl pushed else pushed.

(** The [for await] loop over the lines of one file. *)
Definition tail_lines (file_lines : list string) : list string :=
  fold_left push_line file_lines [].

(** [logPath.includes('out') ? 'stdout' : 'stderr'] *)
Definition type_of_path (logPath : string) : Db.log_type :=
  if includes logPath "out" then Db.stdout else Db.stderr.

Definition history_data (now pm2Id : Z) (logPath line : string) : LogData :=
  {| pm2Id := pm2Id;
     type := type_of_path logPath;
     content := line;
     timestamp := now |}.

Definition history_entry (pm2Id : Z) (logPath line : string)
  : Db.InsertLogEntry.t :=
  {| Db.InsertLogEntry.pm2Id := pm2Id;
     Db.InsertLogEntry.type := type_of_path logPath;
     Db.InsertLogEntry.content := line |}.

(** The loop that sends the initial lines: each line is pushed, then
    saved; the store it leaves, whether an insert threw, and what it
    did. *)
Fixpoint send_lines (now pm2Id : Z) (logPath : string) (lines : list string)
  (d : Db.conn) : Db.conn * bool * list action :=
  match lines with
  | [] => (d, false, [])
  | line :: rest =>
      let sent := [emit_logs_data (history_data now pm2Id logPath line);
                   insertLogEntry (history_entry pm2Id logPath line)] in
      match Db.insertLogEntry now (history_entry pm2Id logPath line) d with
      | (Normal _, d') =>
          match send_lines now pm2Id logPath rest d' with
          | (d2, threw, acts) => (d2, threw, sent ++ acts)
          end
      | (Throw _, d') => (d', true, sent)
      end
  end.

(** The body of the inner [try]: an unreadable file, or a rejected
    insert, ends the replay of this file only. *)
Definition stream_file (now pm2Id : Z)
  (readLines : string -> completion (list string)) (logPath : string)
  (d : Db.conn) : Db.conn * list action :=
  match readLines logPath with
  | Throw _ => (d, [])
  | Normal file_lines =>
      match send_lines now pm2Id logPath (tail_lines file_lines) d with
      | (d', _, acts) => (d', acts)
      end
  end.

Fixpoint stream_files (now pm2Id : Z)
  (readLines : string -> completion (list string)) (paths : list string)
  (d : Db.conn) : Db.conn * list action :=
  match paths with
  | [] => (d, [])
  | logPath :: rest =>
      let (d1, acts1) := stream_file now pm2Id readLines logPath d in
      let (d2, acts2) := stream_files now pm2Id readLines rest d1 in
      (d2, acts1 ++ acts2)
  end.

(** [if (path) logPaths.push(path)]: an absent or empty path is
    skipped. *)
Definition push_path (p : option string) : list string :=
  match p with
  | Some EmptyString | None => []
  | Some path => [path]
  end.

Definition logPaths (t : stream_type) (process : PM2ProcessInfo)
  : list string :=
  (match t with
   | type_stdout | type_both => push_path (pm_out_log_path process)
   | type_stderr => []
   end ++
   match t with
   | type_stderr | type_both => push_path (pm_err_log_path process)
   | type_stdout => []
   end)%list.

Definition on_logs_stream (now : Z) (request : stream_request)
  (described : completion (option PM2ProcessInfo))
  (readLines : string -> completion (list string)) (launchBus_err : bool)
  (w : world) : world * list action :=
  match described with
  | Throw _ => (w, [emit_error "Failed to stream logs"])
  | Normal None => (w, [emit_error "Process not found"])
  | Normal (Some process) =>
      let (d', acts) :=
        stream_files now (req_pm2Id request) readLines
          (logPaths (req_type request) process) (Routers.db (st w)) in
      if launchBus_err
      then ({| data := data w;
               intervals := intervals w;
               buses := buses w;
               next_handle := next_handle w;
               st := Routers.with_db (st w) d' |},
            acts)
      else
        let bus := next_handle w in
        ({| data := {| monitorInterval := monitorInterval (data w);
                       pm2Bus := Some bus |};
            intervals := intervals w;
            buses := buses w ++ [(bus, req_pm2Id request)];
            next_handle := S (next_handle w);
            st := Routers.with_db (st w) d' |},
         acts)
  end.

(** [bus.close()]: the bus delivers nothing any more. *)
Definition close_bus (b : handle) (l : list (handle * Z)) : list (handle * Z) :=
  filter (fun x => negb (Nat.eqb (fst x) b)) l.

(** [logHandler], as registered on the bus [b]: an [async] function
    whose promise nobody awaits. *)
Definition on_bus_log (b : handle) (now : Z) (p : packet) (w : world)
  : world * list action :=
  match find (fun x => Nat.eqb (fst x) b) (buses w) with
  | None => (w, [])
  | Some (_, pm2Id) =>
      if process_pm_id p =? pm2Id
      then
        let logType :=
          match packet_data p with
          | Some EmptyString | None => Db.stderr
          | Some _ => Db.stdout
          end in
        let content :=
          or_default (packet_data p)
            (or_default (packet_error p) EmptyString) in
        let entry :=
          {| Db.InsertLogEntry.pm2Id := pm2Id;
             Db.InsertLogEntry.type := logType;
             Db.InsertLogEntry.content := content |} in
        let sent :=
          [emit_logs_data {| pm2Id := pm2Id;
                             type := logType;
                             content := content;
                             timestamp := packet_at p |};
           insertLogEntry entry] in
        let (saved, d') := Db.insertLogEntry now entry (Routers.db (st w)) in
        ({| data := data w;
            intervals := intervals w;
            buses := buses w;
            next_handle := next_handle w;
            st := Routers.with_db (st w) d' |},
         match saved with
         | Normal _ => sent
         | Throw e => sent ++ [unhandled_rejection e]
         end)
      else (w, [])
  end.

(** *** logs:stop *)

Definition on_logs_stop (w : world) : world * list action :=
  match pm2Bus (data w) with
  | Some b =>
      ({| data := {| monitorInterval := monitorInterval (data w);
                     pm2Bus := None |};
          intervals := intervals w;
          buses := close_bus b (buses w);
          next_handle := next_handle w;
          st := st w |},
       [])
  | None => (w, [])
  end.

(** *** disconnect *)

Definition on_disconnect (w : world) : world * list action :=
  let intervals' :=
    match monitorInterval (data w) with
    | Some h => clearInterval h (intervals w)
    | None => intervals w
    end in
  let buses' :=
    match pm2Bus (data w) with
    | Some b => close_bus b (buses w)
    | None => buses w
    end in
  ({| data := data w;
      intervals := intervals';
      buses := buses';
      next_handle := next_handle w;
      st := st w |},
   []).

(** *** The connection as a machine *)

Definition step (K : Collation) (e : event) (w : world)
  : world * list action :=
  match e with
  | monitor_start now listed => on_monitor_start K now listed w
  | monitor_stop => on_monitor_stop w
  | logs_stream now request described readLines err =>
      on_logs_stream now request described readLines err w
  | logs_stop => on_logs_stop w
  | disconnect => on_disconnect w
  | interval_fires h now listed => on_interval K h now listed w
  | bus_log b now p => on_bus_log b now p w
  end.

Fixpoint run (K : Collation) (es : list event) (w : world)
  : world * list action :=
  match es with
  | [] => (w, [])
  | e :: rest =>
      let (w1, acts1) := step K e w in
      let (w2, acts2) := run K rest w1 in
      (w2, acts1 ++ acts2)
  end.

(** The lines a list of actions pushed to the observer, and the lines
    it handed to the Config Store. *)
Definition emitted (acts : list action) : list LogData :=
  flat_map (fun a => match a with emit_logs_data d => [d] | _ => [] end) acts.

Definition persisted (acts : list action) : list Db.InsertLogEntry.t :=
  flat_map (fun a => match a with insertLogEntry e => [e] | _ => [] end) acts.

End Socket.


(** ** The process table of the dashboard (client/src/pages/Dashboard.tsx)

    The rows are the entries of the last ['processes:update']. *)

Module Dashboard.
Import Pm2Service.










End Dashboard.

(** ** Fixtures *)

Module Fixtures.
Import Pm2Service.

Definition process (id : Z) (st : string) (out err : option string)
  : PM2ProcessInfo :=
  {| pm_id := id; name := "app"; pid := 4000 + id; status := st;
     cpu := 3; memory := 52428800; uptime := 1762171000000; restarts := 0;
     script := "/srv/app/index.js"; cwd := "/srv/app";
     args := []; env := []; exec_mode := "fork"; instances := 1;
     pm_uptime := 1762171000000; created_at := 1762170000000;
     unstable_restarts := 0;
     pm_err_log_path := err; pm_out_log_path := out |}.

Definition db_config (pm2Id : Z) (g : option Z) : Db.TaskConfig.t :=
  {| Db.TaskConfig.id := pm2Id + 1;
     Db.TaskConfig.pm2Id := pm2Id;
     Db.TaskConfig.name := "app";
     Db.TaskConfig.groupId := g;
     Db.TaskConfig.script := Some "/srv/app/index.js";
     Db.TaskConfig.cwd := Some "/srv/app";
     Db.TaskConfig.args := Some [];
     Db.TaskConfig.env := Some [];
     Db.TaskConfig.instances := Some 1;
     Db.TaskConfig.execMode := Some "fork";
     Db.TaskConfig.autorestart := Some 1;
     Db.TaskConfig.maxRestarts := Some 10;
     Db.TaskConfig.minUptime := Some 1000;
     Db.TaskConfig.maxMemoryRestart := None;
     Db.TaskConfig.createdAt := 0;
     Db.TaskConfig.updatedAt := 0 |}.

Definition local_config (pm2Id : Z) (g : option Z)
  : LocalStorage.LocalTaskConfig.t :=
  {| LocalStorage.LocalTaskConfig.pm2Id := pm2Id;
     LocalStorage.LocalTaskConfig.groupId := g |}.

Definition empty_database : Db.Database :=
  {| Db.taskGroups := []; Db.taskGroups_auto := 1;
     Db.taskConfigs := []; Db.taskConfigs_auto := 1;
     Db.performanceMetrics := []; Db.performanceMetrics_auto := 1;
     Db.logEntries := []; Db.logEntries_auto := 1 |}.

(** A database whose only row assigns process 1 to group 5. *)
Definition assigned_database : Db.Database :=
  Db.with_taskConfigs empty_database [db_config 1 (Some 5)] 3.

(** A collation that compares names as byte strings. *)
Definition bytewise : Collation :=
  {| order_by_le := String.leb;
     localeCompare :=
       fun a b => match String.compare a b with
                  | Lt => -1
                  | Eq => 0
                  | Gt => 1
                  end;
     sql_like := fun pattern s => includes s pattern |}.

(** The calendar of a host in UTC: every day has 86400000 ms, and a
    [Date] holds at most 8.64e15 ms on either side of the epoch. *)
Definition utc : Calendar :=
  {| days_back :=
       fun now n =>
         let t := now - n * 86400000 in
         if Z.abs t <=? 8640000000000000 then Some t else None |}.

(** The calendar of a host in New York around the night of
    2 November 2025, when its clocks went back one hour: seven
    calendar days back from a date after that night is one hour more
    than seven times 24 hours. *)
Definition new_york_november_2025 : Calendar :=
  {| days_back :=
       fun now n =>
         let t := now - n * 86400000 in
         (* 2025-11-02T06:00:00Z, the end of daylight saving time *)
         if (t <? 1762063200000) && (1762063200000 <=? now)
         then Some (t - 3600000)
         else Some t |}.

(** The digits of an integer, which is how a template literal renders
    a process id. *)
Definition decimal (n : Z) : string :=
  NilEmpty.string_of_int (Z.to_int n).

Definition web : LocalStorage.GroupInput.t :=
  {| LocalStorage.GroupInput.name := "web";
     LocalStorage.GroupInput.description := None;
     LocalStorage.GroupInput.color := Some "#3B82F6" |}.

Definition noon : Routers.clock :=
  {| Routers.now := 1762171200000; Routers.iso := "2025-11-03T12:00:00.000Z" |}.

Definition connection_refused : thrown :=
  ErrorObj "connect ECONNREFUSED 127.0.0.1:3306".

End Fixtures.

(** ** The precedence law as the specification words it *)

Module Spec.

(** The law in the specification's words: the Fallback Store's value
    when it holds an assignment for the process, else the Config
    Store's value when it holds one, else null. *)
Definition precedence (localConfigs : list LocalStorage.LocalTaskConfig.t)
  (dbConfigs : list Db.TaskConfig.t) (id : Z) : option Z :=
  match find (fun c => LocalStorage.LocalTaskConfig.pm2Id c =? id)
             localConfigs with
  | Some c => LocalStorage.LocalTaskConfig.groupId c
  | None =>
      match find (fun c => Db.TaskConfig.pm2Id c =? id) dbConfigs with
      | Some c => Db.TaskConfig.groupId c
      | None => None
      end
  end.

End Spec.

(** ** Auxiliary definitions of the statements *)

(** The group id the code resolves for one process id. *)
Definition resolved (dbConfigs : list Db.TaskConfig.t)
  (localConfigs : list LocalStorage.LocalTaskConfig.t) (id : Z) : option Z :=
  nullish
    (optchain (find (fun c => LocalStorage.LocalTaskConfig.pm2Id c =? id)
                    localConfigs)
              LocalStorage.LocalTaskConfig.groupId)
    (nullish
       (optchain (find (fun c => Db.TaskConfig.pm2Id c =? id) dbConfigs)
                 Db.TaskConfig.groupId)
       None).

(** What the supervisor answers when [call] is made for each id in
    turn, and the supervisor after these calls. *)
Fixpoint answers {Sup : Type} (call : Z -> Sup -> Sup * completion unit)
  (ids : list Z) (s : Sup) : list (Z * completion unit) :=
  match ids with
  | [] => []
  | id :: r => (id, snd (call id s)) :: answers call r (fst (call id s))
  end.

Fixpoint after_calls {Sup : Type} (call : Z -> Sup -> Sup * completion unit)
  (ids : list Z) (s : Sup) : Sup :=
  match ids with
  | [] => s
  | id :: r => after_calls call r (fst (call id s))
  end.

(** The ids whose call returned, the ids whose call threw, and the
    message of each call that threw, all in request order. *)
Definition succeeded (outs : list (Z * completion unit)) : list Z :=
  flat_map (fun x => match snd x with
                     | Normal _ => [fst x]
                     | Throw _ => []
                     end) outs.

Definition failed_ids (outs : list (Z * completion unit)) : list Z :=
  flat_map (fun x => match snd x with
                     | Normal _ => []
                     | Throw _ => [fst x]
                     end) outs.

Definition error_lines (render : Z -> string)
  (outs : list (Z * completion unit)) : list string :=
  flat_map (fun x => match snd x with
                     | Normal _ => []
                     | Throw (ErrorObj message) =>
                         [("Process " ++ render (fst x) ++ ": "
                           ++ message)%string]
                     | Throw OtherValue =>
                         [("Process " ++ render (fst x)
                           ++ ": Unknown error")%string]
                     end) outs.

(** The tally of a batch whose calls were answered by [outs]. *)
Definition tally_of (render : Z -> string)
  (outs : list (Z * completion unit)) : Pm2Service.tally :=
  {| Pm2Service.success := Z.of_nat (List.length (succeeded outs));
     Pm2Service.failed := Z.of_nat (List.length (failed_ids outs));
     Pm2Service.errors := error_lines render outs |}.

(** The needle occurs in the string. *)
Definition contains (hay needle : string) : Prop :=
  exists before after, hay = (before ++ needle ++ after)%string.

(** Of the next [n] statements, those the server executes before it
    rejects one. *)
Fixpoint accepted (faults : list (option thrown)) (n : nat) {struct n}
  : nat :=
  match n with
  | O => O
  | S m =>
      match faults with
      | Some _ :: _ => O
      | None :: later => S (accepted later m)
      | [] => n
      end
  end.

(** The store when the server has answered [k] more statements. *)
Definition later (k : nat) (d : Db.conn) : Db.conn :=
  {| Db.handle := Db.handle d;
     Db.faults := skipn k (Db.faults d);
     Db.tables := Db.tables d |}.

(** How many of [n] lines a replay sends: all of them without a
    handle or when the server executes every insert, and otherwise the
    lines up to the one whose insert is rejected. *)
Definition replay_length (d : Db.conn) (n : nat) : nat :=
  if Db.handle d then Nat.min n (S (accepted (Db.faults d) n)) else n.

(** The rows a purge at [cutoff] is said to delete when "older than"
    is read strictly. *)
Definition older_than (cutoff : Z) (m : Db.PerformanceMetric.t) : bool :=
  Db.PerformanceMetric.timestamp m <? cutoff.

(** The id the next created group receives: the table's
    AUTO_INCREMENT value when there is a handle, the file's counter
    otherwise. *)
Definition generated_id (s : Routers.stores) : Z :=
  if Db.handle (Routers.db s)
  then Db.taskGroups_auto (Db.tables (Routers.db s))
  else LocalStorage.nextGroupId (LocalStorage.loadData (Routers.file s)).




(** The server executes every statement to come. *)
Definition calm (d : Db.conn) : Prop := Db.faults d = [].

(** Every open bus is the one the session holds in
    [socket.data.pm2Bus]. *)
Definition stream_tracked (w : Socket.world) : Prop :=
  forall b, In b (map fst (Socket.buses w)) ->
            Socket.pm2Bus (Socket.data w) = Some b.

(** The metric and log rows the Config Store holds. *)
Definition stored_metrics (w : Socket.world) : list Db.PerformanceMetric.t :=
  Db.performanceMetrics (Db.tables (Routers.db (Socket.st w))).

Definition stored_logs (w : Socket.world) : list Db.LogEntry.t :=
  Db.logEntries (Db.tables (Routers.db (Socket.st w))).

Definition is_monitor_start (e : Socket.event) : bool :=
  match e with
  | Socket.monitor_start _ _ => true
  | _ => false
  end.

(** The session has no interval set and holds no handle. *)
Definition idle (w : Socket.world) : Prop :=
  Socket.intervals w = [] /\ Socket.monitorInterval (Socket.data w) = None.

Module Scenario.
Import Socket.

Definition listed : completion (list Pm2Service.PM2ProcessInfo) :=
  Normal [Fixtures.process 1 "online" (Some "/logs/app-out.log")
                           (Some "/logs/router-error.log")].

Definition w0 : world :=
  connect {| Routers.db := Db.reachable Fixtures.empty_database;
             Routers.file := None |}.

Definition update : action :=
  emit_processes_update
    [{| proc := Fixtures.process 1 "online" (Some "/logs/app-out.log")
                                 (Some "/logs/router-error.log");
        groupId := None |}].

Definition sample : action :=
  insertPerformanceMetric
    {| Db.InsertPerformanceMetric.pm2Id := 1;
       Db.InsertPerformanceMetric.cpu := 3;
       Db.InsertPerformanceMetric.memory := 52428800 |}.

Definition described : completion (option Pm2Service.PM2ProcessInfo) :=
  Normal (Some (Fixtures.process 1 "online" (Some "/logs/app-out.log")
                                 (Some "/logs/router-error.log"))).

Definition readLines (path : string) : completion (list string) :=
  if String.eqb path "/logs/router-error.log"
  then Normal ["boom"; "bang"]
  else Throw (ErrorObj "ENOENT").

Definition stream_stderr : event :=
  logs_stream 0 {| req_pm2Id := 1; req_type := type_stderr |}
              described readLines false.

Definition out_packet : packet :=
  {| process_pm_id := 1; packet_data := Some "listening";
     packet_error := None; packet_at := 5000 |}.

(** A log file of 102 lines. *)
Definition long_file : list string :=
  "first" :: repeat "x" 100 ++ ["last"].

Definition readLong (path : string) : completion (list string) :=
  Normal long_file.

(** A supervisor without state whose calls for id 2 throw. *)
Definition flaky (id : Z) (s : unit) : unit * completion unit :=
  (s, if id =? 2 then Throw (ErrorObj "process or namespace not found")
      else Normal tt).

(** A supervisor that counts the calls it answers. *)
Definition counting (id : Z) (s : nat) : nat * completion unit :=
  (S s, if id =? 2 then Throw (ErrorObj "process or namespace not found")
        else Normal tt).


End Scenario.

(** A line holds white space only, for lines of ASCII text. *)
Definition ascii_blank (line : string) : bool :=
  forallb (fun c => existsb (Ascii.eqb c)
                      [" "%char; "009"%char; "010"%char; "011"%char;
                       "012"%char; "013"%char])
          (list_ascii_of_string line).

(** No line feed occurs in the string. *)
Fixpoint no_line_feed (s : string) : bool :=
  match s with
  | EmptyString => true
  | String c rest => negb (Ascii.eqb c "010"%char) && no_line_feed rest
  end.







(** The conditions of the two history queries. *)
Definition metric_matches (pm2Id : Z) (startTime endTime : option Z)
  (m : Db.PerformanceMetric.t) : bool :=
  (Db.PerformanceMetric.pm2Id m =? pm2Id)
  && Db.after_start startTime (Db.PerformanceMetric.timestamp m)
  && Db.before_end endTime (Db.PerformanceMetric.timestamp m).

Definition log_matches (K : Collation) (pm2Id : Z)
  (startTime endTime : option Z) (keyword : option string)
  (e : Db.LogEntry.t) : bool :=
  (Db.LogEntry.pm2Id e =? pm2Id)
  && Db.after_start startTime (Db.LogEntry.timestamp e)
  && Db.before_end endTime (Db.LogEntry.timestamp e)
  && Db.matches_keyword K keyword (Db.LogEntry.content e).

(** The limit of a query is not negative. *)
Definition valid_limit (limit : option Z) : Prop :=
  match limit with
  | Some n => 0 <= n
  | None => True
  end.

Definition limit_or (limit : option Z) (default : Z) : nat :=
  Z.to_nat match limit with Some n => n | None => default end.

(** The snapshots whose status is "online". *)
Definition online (processes : list Pm2Service.PM2ProcessInfo)
  : list Pm2Service.PM2ProcessInfo :=
  filter (fun p => String.eqb (Pm2Service.status p) "online") processes.

(** The metric rows of the snapshots [processes], taken at [now] and
    numbered from [first]. *)
Fixpoint sample_rows (now first : Z)
  (processes : list Pm2Service.PM2ProcessInfo)
  : list Db.PerformanceMetric.t :=
  match processes with
  | [] => []
  | p :: rest =>
      {| Db.PerformanceMetric.id := first;
         Db.PerformanceMetric.pm2Id := Pm2Service.pm_id p;
         Db.PerformanceMetric.cpu := Pm2Service.cpu p;
         Db.PerformanceMetric.memory := Pm2Service.memory p;
         Db.PerformanceMetric.timestamp := now |}
      :: sample_rows now (first + 1) rest
  end.

(** The tables after a sample of each of [processes] was inserted. *)
Definition with_samples (now : Z)
  (processes : list Pm2Service.PM2ProcessInfo) (d : Db.Database)
  : Db.Database :=
  Db.with_performanceMetrics d
    (Db.performanceMetrics d
     ++ sample_rows now (Db.performanceMetrics_auto d) processes)
    (Db.performanceMetrics_auto d + Z.of_nat (List.length processes)).

(** The lines the replay of one log file has to send: its last lines,
    or nothing when the file cannot be read. *)
Definition replayed (readLines : string -> completion (list string))
  (logPath : string) : list string :=
  match readLines logPath with
  | Normal file_lines => Socket.tail_lines file_lines
  | Throw _ => []
  end.

(** The AUTO_INCREMENT value of the group table is above every id in
    it. *)
Definition groups_below_auto (d : Db.Database) : Prop :=
  forall g, In g (Db.taskGroups d) -> Db.TaskGroup.id g < Db.taskGroups_auto d.

(** A Config Store with some history: three samples and three log
    lines of process 1, one sample of process 2. *)
Module History.

Definition sample (id pm2Id t : Z) : Db.PerformanceMetric.t :=
  {| Db.PerformanceMetric.id := id; Db.PerformanceMetric.pm2Id := pm2Id;
     Db.PerformanceMetric.cpu := 3; Db.PerformanceMetric.memory := 1024;
     Db.PerformanceMetric.timestamp := t |}.

Definition line (id t : Z) (content : string) : Db.LogEntry.t :=
  {| Db.LogEntry.id := id; Db.LogEntry.pm2Id := 1;
     Db.LogEntry.type := Db.stdout; Db.LogEntry.content := content;
     Db.LogEntry.timestamp := t |}.

Definition database : Db.Database :=
  Db.with_logEntries
    (Db.with_performanceMetrics Fixtures.empty_database
       [sample 1 1 10; sample 2 2 15; sample 3 1 30; sample 4 1 20] 5)
    [line 1 10 "listening"; line 2 30 "request failed"; line 3 20 "request"]
    4.

(** A collation whose LIKE reads ["%k%"] as: contains [k]. *)
Definition collation : Collation :=
  {| order_by_le := String.leb;
     localeCompare := localeCompare Fixtures.bytewise;
     sql_like :=
       fun pattern s =>
         includes s (substring 1 (String.length pattern - 2) pattern) |}.

(** Samples of mixed ages around noon of 3 November 2025: eight days
    old, exactly seven days old, six days old and one hour old. *)
Definition aged : Db.Database :=
  Db.with_performanceMetrics Fixtures.empty_database
    [sample 1 1 (1762171200000 - 8 * 86400000);
     sample 2 1 (1762171200000 - 7 * 86400000);
     sample 3 2 (1762171200000 - 6 * 86400000);
     sample 4 1 (1762171200000 - 3600000)] 5.

End History.

(** * Properties *)

(** ** Snapshot merger *)

Section Merger.
Import Pm2Service.
Variable processes : list PM2ProcessInfo.
Variable dbConfigs : list Db.TaskConfig.t.
Variable localConfigs : list LocalStorage.LocalTaskConfig.t.

Lemma processes_list_proc :
  map Routers.proc (Routers.processes_list processes dbConfigs localConfigs)
  = processes.
Proof.
  unfold Routers.processes_list. rewrite map_map. cbn. apply map_id.
Qed.

Lemma processes_list_groupId :
  map Routers.groupId
      (Routers.processes_list processes dbConfigs localConfigs)
  = map (fun p => resolved dbConfigs localConfigs (pm_id p)) processes.
Proof.
  unfold Routers.processes_list. rewrite map_map. reflexivity.
Qed.

Lemma processesWithGroups_proc :
  map Socket.proc (Socket.processesWithGroups processes dbConfigs localConfigs)
  = processes.
Proof.
  unfold Socket.processesWithGroups. rewrite map_map. cbn. apply map_id.
Qed.

Lemma processesWithGroups_groupId :
  map Socket.groupId
      (Socket.processesWithGroups processes dbConfigs localConfigs)
  = map (fun p => resolved dbConfigs localConfigs (pm_id p)) processes.
Proof.
  unfold Socket.processesWithGroups. rewrite map_map. reflexivity.
Qed.

(** The code follows the precedence law for every process whose
    Fallback Store assignment, if any, names a group. *)
Lemma resolved_precedence (id : Z) :
  (forall c,
      find (fun c => LocalStorage.LocalTaskConfig.pm2Id c =? id) localConfigs
      = Some c ->
      LocalStorage.LocalTaskConfig.groupId c <> None) ->
  resolved dbConfigs localConfigs id
  = Spec.precedence localConfigs dbConfigs id.
Proof.
  intros H. unfold resolved, Spec.precedence.
  destruct (find _ localConfigs) as [c|] eqn:E; cbn.
  - specialize (H c eq_refl).
    destruct (LocalStorage.LocalTaskConfig.groupId c); [reflexivity|congruence].
  - destruct (find _ dbConfigs) as [c|]; cbn; [|reflexivity].
    destruct (Db.TaskConfig.groupId c); reflexivity.
Qed.

End Merger.

(** C1 (code evaluated at the failing input). With one snapshot of
    process 1, a Fallback Store assignment of process 1 to no group
    (null) and a Config Store row that assigns it to group 5, both
    merges return one entry, and its group id is 5: the Config Store's
    value, where the precedence law gives the Fallback Store's null.
    The stores reach this state when the process is unassigned while
    the backend is unreachable, which leaves the row of the Config
    Store as it is, and the backend is back afterwards. *)
Theorem merge_null_assignment_overridden :
  let processes := [Fixtures.process 1 "online" None None] in
  let dbConfigs := [Fixtures.db_config 1 (Some 5)] in
  let localConfigs := [Fixtures.local_config 1 None] in
  map Routers.groupId (Routers.processes_list processes dbConfigs localConfigs)
  = [Some 5]
  /\ map Socket.groupId
         (Socket.processesWithGroups processes dbConfigs localConfigs)
     = [Some 5]
  /\ Spec.precedence localConfigs dbConfigs 1 = None
  /\ (let unassigned :=
         snd (Routers.processes_updateGroup Fixtures.noon 1 None
                {| Routers.db := Db.unreachable Fixtures.assigned_database;
                   Routers.file := None |}) in
       LocalStorage.getAllTaskConfigsLocal (Routers.file unassigned)
       = localConfigs
       /\ fst (Db.getAllTaskConfigs Fixtures.bytewise
                 (Db.reachable (Db.tables (Routers.db unassigned))))
          = Normal dbConfigs).
Proof. repeat split; reflexivity. Qed.

(** ** Batch operations *)

Section BatchProperties.
Import Pm2Service.
Variable Sup : Type.
Variable stopProcess restartProcess deleteProcess
  : Z -> Sup -> Sup * completion unit.
Variable render : Z -> string.

Local Notation "'switch'" :=
  (dispatch Sup stopProcess restartProcess deleteProcess).
Local Notation "'iteration'" :=
  (batch_step Sup stopProcess restartProcess deleteProcess render).
Local Notation "'batch'" :=
  (batchOperation Sup stopProcess restartProcess deleteProcess render).

Lemma answers_ids (call : Z -> Sup -> Sup * completion unit) (ids : list Z) :
  forall s, map fst (answers call ids s) = ids.
Proof.
  induction ids as [|id r IH]; intros s; cbn; [reflexivity|].
  f_equal. apply IH.
Qed.

(** The loop from any accumulator, when the switch reaches the
    supervisor call [call]: every id is called, [success] grows by one
    per call that returned, [failed] by one per call that threw, and
    the messages are appended. *)
Lemma batch_fold (o : operation) (call : Z -> Sup -> Sup * completion unit) :
  (forall id s, switch o id s = call id s) ->
  forall ids s t,
    fold_left (iteration o) ids (s, t)
    = (after_calls call ids s,
       {| success :=
            success t + Z.of_nat (List.length (succeeded (answers call ids s)));
          failed :=
            failed t + Z.of_nat (List.length (failed_ids (answers call ids s)));
          errors := errors t ++ error_lines render (answers call ids s) |}).
Proof.
  intros H. induction ids as [|id r IH]; intros s t.
  - cbn. rewrite !Z.add_0_r, app_nil_r. destruct t; reflexivity.
  - cbn [fold_left batch_step answers after_calls]. rewrite H.
    destruct (call id s) as [s' c]. cbn [fst snd].
    unfold succeeded, failed_ids, error_lines.
    cbn [flat_map fst snd].
    destruct c as [u|[m|]]; rewrite IH;
      cbn [success failed errors app error_line reason];
      rewrite ?length_app; cbn [List.length app];
      rewrite <- ?app_assoc; cbn [app];
      unfold succeeded, failed_ids, error_lines, error_line, reason;
      rewrite ?Nat2Z.inj_succ; f_equal; f_equal; try lia; reflexivity.
Qed.

Lemma batch_tally (o : operation) (call : Z -> Sup -> Sup * completion unit) :
  (forall id s, switch o id s = call id s) ->
  forall ids s,
    batch ids o s = (after_calls call ids s, tally_of render (answers call ids s)).
Proof.
  intros H ids s. unfold batchOperation. rewrite (batch_fold o call H).
  reflexivity.
Qed.

Lemma succeeded_or_failed (outs : list (Z * completion unit)) :
  (List.length (succeeded outs) + List.length (failed_ids outs)
   = List.length outs)%nat
  /\ List.length (error_lines render outs) = List.length (failed_ids outs).
Proof.
  induction outs as [|[id c] r [IH1 IH2]]; [split; reflexivity|].
  unfold succeeded, failed_ids, error_lines in *. cbn [flat_map snd fst].
  destruct c as [u|[m|]]; rewrite !length_app; cbn [List.length]; lia.
Qed.

(** When the answer of a call depends on the id only. *)
Lemma answers_by_id (call : Z -> Sup -> Sup * completion unit)
  (f : Z -> completion unit) :
  (forall id s, snd (call id s) = f id) ->
  forall ids s, answers call ids s = map (fun id => (id, f id)) ids.
Proof.
  intros H. induction ids as [|id r IH]; intros s; [reflexivity|].
  cbn [answers map]. rewrite H, IH. reflexivity.
Qed.

(** Calls that all throw the same error. *)
Lemma tally_all_threw (message : string) (ids : list Z) :
  tally_of render (map (fun id => (id, Throw (ErrorObj message))) ids)
  = {| success := 0;
       failed := Z.of_nat (List.length ids);
       errors := map (fun id => ("Process " ++ render id ++ ": "
                                 ++ message)%string) ids |}.
Proof.
  unfold tally_of.
  assert (S0 : succeeded (map (fun id => (id, @Throw unit (ErrorObj message)))
                              ids) = []).
  { induction ids as [|id r IH]; [reflexivity | exact IH]. }
  assert (F : failed_ids (map (fun id => (id, @Throw unit (ErrorObj message)))
                              ids) = ids).
  { clear S0. induction ids as [|id r IH]; [reflexivity|].
    unfold failed_ids in *. cbn [map flat_map fst snd app]. now rewrite IH. }
  assert (E : error_lines render
                (map (fun id => (id, @Throw unit (ErrorObj message))) ids)
              = map (fun id => ("Process " ++ render id ++ ": "
                                ++ message)%string) ids).
  { clear S0 F. induction ids as [|id r IH]; [reflexivity|].
    unfold error_lines in *. cbn [map flat_map fst snd]. now rewrite IH. }
  now rewrite S0, F, E.
Qed.

End BatchProperties.

(** C7. A stop, restart or delete batch calls that method of the
    supervisor for every id, in request order, whatever the calls
    answer, and leaves the supervisor as these calls leave it;
    [success] counts the calls that returned, [failed] the calls that
    threw, and [errors] holds one line ["Process <id>: <reason>"] per
    call that threw, the reason being the message of the error (or
    'Unknown error' for a thrown value that is no Error).  Any other
    operation calls nothing and fails every id.  Over any ordering of
    the ids 1, 2, 3 in which the calls for id 2 throw and the others
    return, the tally is 2 successes, 1 failure and the single line of
    id 2. *)
Theorem batchOperation_tally :
  forall (Sup : Type)
         (stopProcess restartProcess deleteProcess
          : Z -> Sup -> Sup * completion unit)
         (render : Z -> string),
    let batch :=
      Pm2Service.batchOperation Sup stopProcess restartProcess deleteProcess
        render in
    (forall ids s,
        batch ids Pm2Service.op_stop s
        = (after_calls stopProcess ids s,
           tally_of render (answers stopProcess ids s))
        /\ batch ids Pm2Service.op_restart s
           = (after_calls restartProcess ids s,
              tally_of render (answers restartProcess ids s))
        /\ batch ids Pm2Service.op_delete s
           = (after_calls deleteProcess ids s,
              tally_of render (answers deleteProcess ids s))
        /\ batch ids Pm2Service.op_start s
           = (s,
              {| Pm2Service.success := 0;
                 Pm2Service.failed := Z.of_nat (List.length ids);
                 Pm2Service.errors :=
                   map (fun id =>
                          ("Process " ++ render id
                           ++ ": Unsupported operation: start")%string)
                       ids |}))
    /\ (forall (call : Z -> Sup -> Sup * completion unit) ids s,
           let outs := answers call ids s in
           map fst outs = ids
           /\ Pm2Service.success (tally_of render outs)
              + Pm2Service.failed (tally_of render outs)
              = Z.of_nat (List.length ids)
           /\ List.length (Pm2Service.errors (tally_of render outs))
              = List.length (failed_ids outs))
    /\ (forall ids o s e,
           o <> Pm2Service.op_start ->
           Permutation [1; 2; 3] ids ->
           (forall id s',
               let answer := if id =? 2 then Throw e else Normal tt in
               snd (stopProcess id s') = answer
               /\ snd (restartProcess id s') = answer
               /\ snd (deleteProcess id s') = answer) ->
           render 2 = "2" ->
           snd (batch ids o s)
           = {| Pm2Service.success := 2;
                Pm2Service.failed := 1;
                Pm2Service.errors :=
                  [("Process 2: "
                    ++ match e with
                       | ErrorObj message => message
                       | OtherValue => "Unknown error"
                       end)%string] |}).
Proof.
  intros Sup stopP restartP deleteP render batch. split; [|split].
  - intros ids s. subst batch.
    rewrite (batch_tally Sup stopP restartP deleteP render
               Pm2Service.op_stop stopP) by reflexivity.
    rewrite (batch_tally Sup stopP restartP deleteP render
               Pm2Service.op_restart restartP) by reflexivity.
    rewrite (batch_tally Sup stopP restartP deleteP render
               Pm2Service.op_delete deleteP) by reflexivity.
    repeat split.
    rewrite (batch_tally Sup stopP restartP deleteP render
               Pm2Service.op_start
               (fun _ s' =>
                  (s', Throw (ErrorObj "Unsupported operation: start"))))
      by reflexivity.
    rewrite (answers_by_id Sup
               (fun (_ : Z) (s' : Sup) =>
                  (s', @Throw unit (ErrorObj "Unsupported operation: start")))
               (fun _ => Throw (ErrorObj "Unsupported operation: start")))
      by reflexivity.
    rewrite tally_all_threw. f_equal.
    clear. revert s. induction ids as [|id r IH]; intros s;
      [reflexivity | apply IH].
  - intros call ids s outs. subst outs.
    pose proof (answers_ids Sup call ids s) as Hids.
    destruct (succeeded_or_failed render (answers call ids s)) as [Hsum Herr].
    split; [exact Hids|]. split; [|exact Herr].
    cbn [tally_of Pm2Service.success Pm2Service.failed].
    rewrite <- Hids at 3. rewrite length_map. lia.
  - intros ids o s e No Hperm Hout Hr. subst batch.
    assert (T : exists call,
               (forall id s',
                   Pm2Service.dispatch Sup stopP restartP deleteP o id s'
                   = call id s')
               /\ forall id s',
                   snd (call id s') = if id =? 2 then Throw e else Normal tt).
    { destruct o; [congruence| | |].
      - exists stopP. split; [reflexivity|]. intros. apply Hout.
      - exists restartP. split; [reflexivity|]. intros. apply Hout.
      - exists deleteP. split; [reflexivity|]. intros. apply Hout. }
    destruct T as [call [D A]].
    rewrite (batch_tally Sup stopP restartP deleteP render o call D).
    cbn [snd].
    rewrite (answers_by_id Sup call
               (fun id => if id =? 2 then Throw e else Normal tt) A).
    unfold tally_of, succeeded, failed_ids, error_lines.
    rewrite !flat_map_concat_map, !map_map.
    cbn [fst snd]. rewrite <- !flat_map_concat_map.
    assert (Hs : Permutation [1; 3]
                   (flat_map (fun x : Z =>
                                match (if x =? 2 then @Throw unit e
                                       else Normal tt) with
                                | Normal _ => [x]
                                | Throw _ => []
                                end) ids)).
    { rewrite <- Hperm. cbn. apply Permutation_refl. }
    assert (Hf : Permutation [2]
                   (flat_map (fun x : Z =>
                                match (if x =? 2 then @Throw unit e
                                       else Normal tt) with
                                | Normal _ => []
                                | Throw _ => [x]
                                end) ids)).
    { rewrite <- Hperm. cbn. apply Permutation_refl. }
    assert (He : Permutation
                   [("Process " ++ render 2 ++ ": "
                     ++ match e with
                        | ErrorObj message => message
                        | OtherValue => "Unknown error"
                        end)%string]
                   (flat_map (fun x : Z =>
                                match (if x =? 2 then @Throw unit e
                                       else Normal tt) with
                                | Normal _ => []
                                | Throw (ErrorObj message) =>
                                    [("Process " ++ render x ++ ": "
                                      ++ message)%string]
                                | Throw OtherValue =>
                                    [("Process " ++ render x
                                      ++ ": Unknown error")%string]
                                end) ids)).
    { rewrite <- Hperm. cbn. destruct e; apply Permutation_refl. }
    apply Permutation_length in Hs. apply Permutation_length in Hf.
    apply Permutation_length_1_inv in He.
    rewrite He, <- Hs, <- Hf, Hr. reflexivity.
Qed.

(** ** Log tailer: the sliding window *)

Lemma maxLines_pos : (0 < Socket.maxLines)%nat.
Proof. unfold Socket.maxLines. lia. Qed.

Lemma push_line_length (acc : list string) (x : string) :
  (List.length acc <= Socket.maxLines)%nat ->
  (List.length (Socket.push_line acc x) <= Socket.maxLines)%nat.
Proof.
  intros H. unfold Socket.push_line.
  destruct (Nat.ltb_spec Socket.maxLines (List.length (acc ++ [x]))) as [L|L].
  - destruct acc as [|a acc]; cbn [app tl];
      rewrite ?length_app in *; cbn [List.length] in *; lia.
  - exact L.
Qed.

(** The window after reading [l] on top of a window [acc]: the last
    [maxLines] lines of what was read so far. *)
Lemma window_invariant (l : list string) :
  forall acc,
    (List.length acc <= Socket.maxLines)%nat ->
    fold_left Socket.push_line l acc
    = skipn (List.length (acc ++ l) - Socket.maxLines) (acc ++ l).
Proof.
  pose proof maxLines_pos as P.
  induction l as [|x r IH]; intros acc H.
  - rewrite app_nil_r. cbn [fold_left].
    replace (List.length acc - Socket.maxLines)%nat with O by lia.
    reflexivity.
  - cbn [fold_left]. rewrite (IH _ (push_line_length acc x H)).
    unfold Socket.push_line.
    destruct (Nat.ltb_spec Socket.maxLines (List.length (acc ++ [x]))) as [L|L].
    + rewrite length_app in L. cbn [List.length] in L.
      destruct acc as [|a acc]; [cbn [List.length] in L; lia|].
      cbn [app tl]. rewrite <- app_assoc. cbn [app].
      cbn [List.length] in *.
      replace (S (List.length (acc ++ x :: r)) - Socket.maxLines)%nat
        with (S (List.length (acc ++ x :: r) - Socket.maxLines)).
      * reflexivity.
      * rewrite length_app. cbn [List.length]. lia.
    + rewrite <- app_assoc. reflexivity.
Qed.

Lemma tail_lines_skipn (file_lines : list string) :
  Socket.tail_lines file_lines
  = skipn (List.length file_lines - Socket.maxLines) file_lines.
Proof.
  unfold Socket.tail_lines. rewrite window_invariant; [reflexivity|].
  cbn [List.length]. lia.
Qed.

Lemma tail_lines_length (file_lines : list string) :
  List.length (Socket.tail_lines file_lines)
  = Nat.min (List.length file_lines) Socket.maxLines.
Proof. rewrite tail_lines_skipn, length_skipn. lia. Qed.

(** ** The answers of the database server *)

Lemma accepted_nil (n : nat) : accepted [] n = n.
Proof. destruct n; reflexivity. Qed.

Lemma accepted_le (faults : list (option thrown)) (n : nat) :
  (accepted faults n <= n)%nat.
Proof.
  revert faults. induction n as [|n IH]; intros faults; [reflexivity|].
  destruct faults as [|[e|] later]; cbn [accepted]; [lia | lia |].
  specialize (IH later). lia.
Qed.

(** What one insert of a log line does, by the state of the store. *)
Lemma insertLogEntry_cases (now : Z) (entry : Db.InsertLogEntry.t)
  (d : Db.conn) :
  (Db.handle d = false /\ Db.insertLogEntry now entry d = (Normal tt, d))
  \/ (Db.handle d = true
      /\ exists e, hd None (Db.faults d) = Some e
                   /\ Db.insertLogEntry now entry d = (Throw e, later 1 d))
  \/ (Db.handle d = true
      /\ hd None (Db.faults d) = None
      /\ Db.insertLogEntry now entry d
         = (Normal tt,
            {| Db.handle := true;
               Db.faults := tl (Db.faults d);
               Db.tables :=
                 Db.with_logEntries (Db.tables d)
                   (Db.logEntries (Db.tables d)
                    ++ [Db.log_row (Db.logEntries_auto (Db.tables d)) now entry])
                   (Db.logEntries_auto (Db.tables d) + 1) |})).
Proof.
  destruct d as [[|] f t]; [|left; split; reflexivity].
  right. destruct f as [|[e|] f'].
  - right. repeat split.
  - left. split; [reflexivity|]. exists e. split; reflexivity.
  - right. repeat split.
Qed.

Lemma replay_length_no_handle (d : Db.conn) (n : nat) :
  Db.handle d = false -> replay_length d n = n.
Proof. intros H. unfold replay_length. now rewrite H. Qed.

Lemma replay_length_rejected (d : Db.conn) (n : nat) (e : thrown) :
  Db.handle d = true -> hd None (Db.faults d) = Some e ->
  replay_length d (S n) = 1%nat.
Proof.
  intros H F. unfold replay_length. rewrite H.
  destruct (Db.faults d) as [|[x|] r]; try discriminate F.
  cbn [accepted]. lia.
Qed.

Lemma replay_length_executed (d d' : Db.conn) (n : nat) :
  Db.handle d = true -> hd None (Db.faults d) = None ->
  Db.handle d' = true -> Db.faults d' = tl (Db.faults d) ->
  replay_length d (S n) = S (replay_length d' n).
Proof.
  intros H F H' F'. unfold replay_length. rewrite H, H', F'.
  destruct (Db.faults d) as [|[x|] r]; try discriminate F; cbn [tl accepted].
  - rewrite accepted_nil. lia.
  - pose proof (accepted_le r n). lia.
Qed.

(** ** Log tailer: what the replay of one file does *)

(** The replay pushes and saves the lines up to the first one whose
    insert is rejected. *)
Lemma send_lines_actions (now pm2Id : Z) (logPath : string)
  (lines : list string) :
  forall d,
    snd (Socket.send_lines now pm2Id logPath lines d)
    = flat_map
        (fun line =>
           [Socket.emit_logs_data (Socket.history_data now pm2Id logPath line);
            Socket.insertLogEntry (Socket.history_entry pm2Id logPath line)])
        (firstn (replay_length d (List.length lines)) lines).
Proof.
  induction lines as [|line rest IH]; intros d.
  - cbn [Socket.send_lines snd]. now rewrite firstn_nil.
  - cbn [Socket.send_lines List.length].
    destruct (insertLogEntry_cases now
                (Socket.history_entry pm2Id logPath line) d)
      as [[H E]|[[H [e [F E]]]|[H [F E]]]]; rewrite E.
    + specialize (IH d).
      destruct (Socket.send_lines now pm2Id logPath rest d)
        as [[d2 threw] acts].
      cbn [snd] in *. rewrite IH, !replay_length_no_handle by exact H.
      reflexivity.
    + cbn [snd]. rewrite (replay_length_rejected d _ e H F). reflexivity.
    + match goal with
      | |- context [Socket.send_lines _ _ _ _ ?x] => set (d' := x)
      end.
      specialize (IH d').
      destruct (Socket.send_lines now pm2Id logPath rest d')
        as [[d2 threw] acts].
      cbn [snd] in *.
      rewrite IH, (replay_length_executed d d' _ H F eq_refl eq_refl).
      reflexivity.
Qed.

(** The store after the replay: the server has answered one statement
    per line sent. *)
Lemma send_lines_store (now pm2Id : Z) (logPath : string)
  (lines : list string) :
  forall d,
    let d' := fst (fst (Socket.send_lines now pm2Id logPath lines d)) in
    Db.handle d' = Db.handle d
    /\ Db.faults d'
       = if Db.handle d
         then skipn (replay_length d (List.length lines)) (Db.faults d)
         else Db.faults d.
Proof.
  induction lines as [|line rest IH]; intros d; cbn zeta.
  - cbn [Socket.send_lines fst List.length]. split; [reflexivity|].
    unfold replay_length. destruct (Db.handle d); reflexivity.
  - cbn [Socket.send_lines List.length].
    destruct (insertLogEntry_cases now
                (Socket.history_entry pm2Id logPath line) d)
      as [[H E]|[[H [e [F E]]]|[H [F E]]]]; rewrite E.
    + specialize (IH d). cbn zeta in IH.
      destruct (Socket.send_lines now pm2Id logPath rest d)
        as [[d2 threw] acts].
      cbn [fst] in *. rewrite H in *. exact IH.
    + cbn [fst later Db.handle Db.faults]. rewrite H.
      rewrite (replay_length_rejected d _ e H F). split; reflexivity.
    + match goal with
      | |- context [Socket.send_lines _ _ _ _ ?x] => set (d' := x)
      end.
      specialize (IH d'). cbn zeta in IH.
      destruct (Socket.send_lines now pm2Id logPath rest d')
        as [[d2 threw] acts].
      cbn [fst] in *. destruct IH as [IH1 IH2]. rewrite H.
      split; [exact IH1|].
      rewrite IH2, (replay_length_executed d d' _ H F eq_refl eq_refl).
      subst d'. cbn [Db.handle Db.faults].
      destruct (Db.faults d); [now rewrite !skipn_nil | reflexivity].
Qed.

Lemma emitted_history (now pm2Id : Z) (logPath : string) (lines : list string) :
  Socket.emitted
    (flat_map
       (fun line =>
          [Socket.emit_logs_data (Socket.history_data now pm2Id logPath line);
           Socket.insertLogEntry (Socket.history_entry pm2Id logPath line)])
       lines)
  = map (Socket.history_data now pm2Id logPath) lines.
Proof.
  induction lines as [|l r IH]; [reflexivity|].
  cbn [flat_map map]. unfold Socket.emitted in *.
  cbn [flat_map app]. rewrite IH. reflexivity.
Qed.

Lemma persisted_history (now pm2Id : Z) (logPath : string)
  (lines : list string) :
  Socket.persisted
    (flat_map
       (fun line =>
          [Socket.emit_logs_data (Socket.history_data now pm2Id logPath line);
           Socket.insertLogEntry (Socket.history_entry pm2Id logPath line)])
       lines)
  = map (Socket.history_entry pm2Id logPath) lines.
Proof.
  induction lines as [|l r IH]; [reflexivity|].
  cbn [flat_map map]. unfold Socket.persisted in *.
  cbn [flat_map app]. rewrite IH. reflexivity.
Qed.

Lemma stream_file_actions (now pm2Id : Z)
  (readLines : string -> completion (list string)) (logPath : string)
  (d : Db.conn) :
  snd (Socket.stream_file now pm2Id readLines logPath d)
  = flat_map
      (fun line =>
         [Socket.emit_logs_data (Socket.history_data now pm2Id logPath line);
          Socket.insertLogEntry (Socket.history_entry pm2Id logPath line)])
      (firstn (replay_length d (List.length (replayed readLines logPath)))
              (replayed readLines logPath)).
Proof.
  unfold Socket.stream_file, replayed.
  destruct (readLines logPath) as [file_lines|e].
  - pose proof (send_lines_actions now pm2Id logPath
                  (Socket.tail_lines file_lines) d) as S.
    destruct (Socket.send_lines now pm2Id logPath
                (Socket.tail_lines file_lines) d) as [[d' threw] acts].
    exact S.
  - cbn [snd]. now rewrite firstn_nil.
Qed.

(** What the replay of one file pushes and saves. *)
Lemma stream_file_replayed (now pm2Id : Z)
  (readLines : string -> completion (list string)) (logPath : string)
  (d : Db.conn) :
  let acts := snd (Socket.stream_file now pm2Id readLines logPath d) in
  let sent :=
    firstn (replay_length d (List.length (replayed readLines logPath)))
           (replayed readLines logPath) in
  Socket.emitted acts = map (Socket.history_data now pm2Id logPath) sent
  /\ Socket.persisted acts = map (Socket.history_entry pm2Id logPath) sent.
Proof.
  cbn zeta. rewrite stream_file_actions.
  now rewrite emitted_history, persisted_history.
Qed.

Lemma replay_length_le (d : Db.conn) (n : nat) : (replay_length d n <= n)%nat.
Proof. unfold replay_length. destruct (Db.handle d); lia. Qed.

Lemma replay_length_pos (d : Db.conn) (n : nat) :
  (0 < n)%nat -> (0 < replay_length d n)%nat.
Proof. unfold replay_length. destruct (Db.handle d); lia. Qed.

(** C5 (amended). The replay of a log file of K lines works on the
    file's last min(K, 100) lines, in file order.  Without a handle on
    the Config Store, or when the server executes the insert of each
    of them, it pushes all of them to the observer and hands them to
    the store.  When the server rejects the insert of one of them,
    that line is the last one pushed: the replay has sent the lines
    whose insert was executed and the one whose insert was rejected,
    and the rest of the window is not sent. *)
Theorem history_replay_last_lines :
  forall (now pm2Id : Z) (readLines : string -> completion (list string))
         (logPath : string) (file_lines : list string) (d : Db.conn),
    readLines logPath = Normal file_lines ->
    let acts := snd (Socket.stream_file now pm2Id readLines logPath d) in
    let K := List.length file_lines in
    let window := skipn (K - 100) file_lines in
    let executed := accepted (Db.faults d) (Nat.min K 100) in
    Socket.maxLines = 100%nat
    /\ List.length window = Nat.min K 100
    /\ firstn (K - 100) file_lines ++ window = file_lines
    /\ (Db.handle d = false \/ executed = Nat.min K 100 ->
        map Socket.content (Socket.emitted acts) = window
        /\ map Db.InsertLogEntry.content (Socket.persisted acts) = window
        /\ List.length (Socket.emitted acts) = Nat.min K 100)
    /\ (Db.handle d = true -> (executed < Nat.min K 100)%nat ->
        map Socket.content (Socket.emitted acts) = firstn (S executed) window
        /\ map Db.InsertLogEntry.content (Socket.persisted acts)
           = firstn (S executed) window
        /\ List.length (Socket.emitted acts) = S executed)
    /\ (exists n,
           (n <= Nat.min K 100)%nat
           /\ (file_lines <> [] -> (0 < n)%nat)
           /\ map Socket.content (Socket.emitted acts) = firstn n window
           /\ map Db.InsertLogEntry.content (Socket.persisted acts)
              = firstn n window).
Proof.
  intros now pm2Id readLines logPath file_lines d R acts K window executed.
  assert (W : replayed readLines logPath = window).
  { unfold replayed. rewrite R. apply tail_lines_skipn. }
  assert (L : List.length window = Nat.min K 100).
  { subst window K. rewrite length_skipn. lia. }
  destruct (stream_file_replayed now pm2Id readLines logPath d) as [E P].
  fold acts in E, P. rewrite W, L in E, P.
  assert (Ec : forall n,
             map Socket.content
                 (map (Socket.history_data now pm2Id logPath) (firstn n window))
             = firstn n window).
  { intros n. rewrite map_map. cbn [Socket.content Socket.history_data].
    apply map_id. }
  assert (Pc : forall n,
             map Db.InsertLogEntry.content
                 (map (Socket.history_entry pm2Id logPath) (firstn n window))
             = firstn n window).
  { intros n. rewrite map_map.
    cbn [Db.InsertLogEntry.content Socket.history_entry]. apply map_id. }
  split; [reflexivity|]. split; [exact L|].
  split; [apply firstn_skipn|]. split; [|split].
  - intros A.
    assert (N : replay_length d (Nat.min K 100) = Nat.min K 100).
    { unfold replay_length. fold executed.
      destruct A as [->| ->]; [reflexivity|]. destruct (Db.handle d); lia. }
    rewrite N in E, P. rewrite E, P, Ec, Pc, length_map.
    rewrite firstn_all2 by lia. repeat split. rewrite L. lia.
  - intros H A.
    assert (N : replay_length d (Nat.min K 100) = S executed).
    { unfold replay_length. fold executed. rewrite H. lia. }
    rewrite N in E, P. rewrite E, P, Ec, Pc, !length_map. repeat split.
    rewrite length_firstn. lia.
  - exists (replay_length d (Nat.min K 100)).
    split; [apply replay_length_le|]. split.
    + intros Ne. apply replay_length_pos.
      destruct file_lines; [congruence|]. subst K. cbn [List.length]. lia.
    + rewrite E, P, Ec, Pc. split; reflexivity.
Qed.

(** C5 (counterexample). With a handle on a server that rejects one
    statement, the replay of a file of two lines pushes one line, not
    min(2, 100). *)
Lemma rejected_insert_ends_replay :
  let d := Db.rejecting Fixtures.connection_refused 1 Fixtures.empty_database in
  let acts :=
    snd (Socket.stream_file 0 1 Scenario.readLines "/logs/router-error.log" d)
  in
  Scenario.readLines "/logs/router-error.log" = Normal ["boom"; "bang"]
  /\ map Socket.content (Socket.emitted acts) = ["boom"]
  /\ map Db.InsertLogEntry.content (Socket.persisted acts) = ["boom"]
  /\ List.length (Socket.emitted acts) <> Nat.min 2 100
  /\ Db.logEntries
       (Db.tables
          (fst (Socket.stream_file 0 1 Scenario.readLines
                  "/logs/router-error.log" d)))
     = [].
Proof. repeat split. cbn. discriminate. Qed.

(** ** Substring search *)

Lemma prefix_append (p s : string) :
  String.prefix p s = true <-> exists post, s = (p ++ post)%string.
Proof.
  revert s. induction p as [|a p IH]; intros s.
  - split; [intros _; exists s; reflexivity | destruct s; reflexivity].
  - destruct s as [|b s]; cbn [String.prefix String.append].
    + split; [discriminate | intros [post H]; discriminate].
    + destruct (Ascii.ascii_dec a b) as [->|N].
      * rewrite IH. split; intros [post H]; exists post.
        -- now subst.
        -- now injection H.
      * split; [discriminate | intros [post H]; congruence].
Qed.

(** [includes] finds exactly the occurrences of the needle. *)
Lemma includes_occurs (hay needle : string) :
  includes hay needle = true
  <-> exists pre post, hay = (pre ++ needle ++ post)%string.
Proof.
  induction hay as [|c hay IH].
  - cbn [includes]. destruct (String.prefix needle EmptyString) eqn:P.
    + apply prefix_append in P as [post P].
      split; [intros _; exists EmptyString, post; exact P | reflexivity].
    + split; [discriminate|]. intros [pre [post H]].
      destruct pre; [|discriminate]. cbn in H.
      assert (String.prefix needle EmptyString = true) as Q
          by (apply prefix_append; eauto).
      congruence.
  - cbn [includes]. destruct (String.prefix needle (String c hay)) eqn:P.
    + apply prefix_append in P as [post P].
      split; [intros _; exists EmptyString, post; exact P | reflexivity].
    + rewrite IH. split.
      * intros [pre [post H]]. exists (String c pre), post. cbn. now rewrite H.
      * intros [pre [post H]]. destruct pre as [|c' pre].
        -- cbn in H.
           assert (String.prefix needle (String c hay) = true) as Q
               by (apply prefix_append; eauto).
           congruence.
        -- cbn in H. injection H as _ H. eauto.
Qed.

(** ** Log tailer: the stream kind of replayed lines *)

Lemma type_of_path_contains (logPath : string) :
  (Socket.type_of_path logPath = Db.stdout <-> contains logPath "out")
  /\ (Socket.type_of_path logPath = Db.stderr <-> ~ contains logPath "out").
Proof.
  unfold Socket.type_of_path, contains.
  pose proof (includes_occurs logPath "out") as O.
  destruct (includes logPath "out"); split; split; intros H.
  - now apply O.
  - reflexivity.
  - discriminate H.
  - exfalso. apply H. now apply O.
  - discriminate H.
  - apply O in H. discriminate H.
  - intros C. apply O in C. discriminate C.
  - reflexivity.
Qed.

Lemma stream_files_single (now pm2Id : Z)
  (readLines : string -> completion (list string)) (logPath : string)
  (d : Db.conn) :
  snd (Socket.stream_files now pm2Id readLines [logPath] d)
  = snd (Socket.stream_file now pm2Id readLines logPath d).
Proof.
  cbn [Socket.stream_files].
  destruct (Socket.stream_file now pm2Id readLines logPath d) as [d1 acts1].
  cbn [snd]. apply app_nil_r.
Qed.

Lemma stream_file_types (now pm2Id : Z)
  (readLines : string -> completion (list string)) (logPath : string)
  (d : Db.conn) :
  let acts := snd (Socket.stream_file now pm2Id readLines logPath d) in
  Forall (fun x => Socket.type x = Socket.type_of_path logPath)
         (Socket.emitted acts)
  /\ Forall (fun x => Db.InsertLogEntry.type x = Socket.type_of_path logPath)
            (Socket.persisted acts).
Proof.
  cbn zeta.
  destruct (stream_file_replayed now pm2Id readLines logPath d) as [-> ->].
  split; apply Forall_map, Forall_forall; intros; reflexivity.
Qed.

(** The replay of a readable file that has a line pushes a line. *)
Lemma stream_file_sends (now pm2Id : Z)
  (readLines : string -> completion (list string)) (logPath : string)
  (d : Db.conn) (file_lines : list string) :
  readLines logPath = Normal file_lines ->
  file_lines <> [] ->
  let acts := snd (Socket.stream_file now pm2Id readLines logPath d) in
  Socket.emitted acts <> [] /\ Socket.persisted acts <> [].
Proof.
  intros R Ne. cbn zeta.
  destruct (stream_file_replayed now pm2Id readLines logPath d) as [-> ->].
  assert (P : (0 < List.length (replayed readLines logPath))%nat).
  { unfold replayed. rewrite R, tail_lines_length.
    destruct file_lines; [congruence|]. cbn [List.length].
    unfold Socket.maxLines. lia. }
  pose proof (replay_length_pos d _ P) as Q.
  destruct (replayed readLines logPath) as [|l r]; [cbn in P; lia|].
  destruct (replay_length d (List.length (l :: r))); [lia|].
  cbn [firstn map]. split; discriminate.
Qed.

Lemma on_logs_stream_actions (now : Z) (request : Socket.stream_request)
  (process : Pm2Service.PM2ProcessInfo)
  (readLines : string -> completion (list string)) (err : bool)
  (w : Socket.world) :
  snd (Socket.on_logs_stream now request (Normal (Some process)) readLines
         err w)
  = snd (Socket.stream_files now (Socket.req_pm2Id request) readLines
           (Socket.logPaths (Socket.req_type request) process)
           (Routers.db (Socket.st w))).
Proof.
  unfold Socket.on_logs_stream.
  destruct (Socket.stream_files _ _ _ _ _) as [d' acts].
  destruct err; reflexivity.
Qed.

(** C10. Every line replayed from a log file is pushed and persisted
    as 'stdout' exactly when the path of the file contains "out", and
    as 'stderr' otherwise, whichever of the two log files of the
    process it is; and the replay of a readable file that has a line
    does push and persist a line.  So a stream request for 'stderr' on
    a process whose error log path contains "out" replays the lines of
    that file as 'stdout'. *)
Theorem history_type_follows_path :
  (forall (now pm2Id : Z) (readLines : string -> completion (list string))
          (logPath : string) (d : Db.conn),
      let acts := snd (Socket.stream_file now pm2Id readLines logPath d) in
      Forall (fun x => (Socket.type x = Db.stdout <-> contains logPath "out")
                       /\ (Socket.type x = Db.stderr
                           <-> ~ contains logPath "out"))
             (Socket.emitted acts)
      /\ Forall (fun x => (Db.InsertLogEntry.type x = Db.stdout
                           <-> contains logPath "out")
                          /\ (Db.InsertLogEntry.type x = Db.stderr
                              <-> ~ contains logPath "out"))
                (Socket.persisted acts)
      /\ (forall file_lines,
             readLines logPath = Normal file_lines ->
             file_lines <> [] ->
             Socket.emitted acts <> [] /\ Socket.persisted acts <> []))
  /\ (forall (now : Z) (request : Socket.stream_request)
             (process : Pm2Service.PM2ProcessInfo)
             (readLines : string -> completion (list string)) (err : bool)
             (w : Socket.world) (errPath : string),
         Socket.req_type request = Socket.type_stderr ->
         Pm2Service.pm_err_log_path process = Some errPath ->
         contains errPath "out" ->
         let acts :=
           snd (Socket.on_logs_stream now request (Normal (Some process))
                  readLines err w) in
         Forall (fun x => Socket.type x = Db.stdout) (Socket.emitted acts)
         /\ Forall (fun x => Db.InsertLogEntry.type x = Db.stdout)
                   (Socket.persisted acts)
         /\ forall file_lines,
             readLines errPath = Normal file_lines ->
             file_lines <> [] ->
             Socket.emitted acts <> [] /\ Socket.persisted acts <> []).
Proof.
  split.
  - intros now pm2Id readLines logPath d acts.
    destruct (stream_file_types now pm2Id readLines logPath d) as [T1 T2].
    fold acts in T1, T2.
    pose proof (type_of_path_contains logPath) as C.
    split; [|split].
    + eapply Forall_impl; [|exact T1]. intros x Hx. cbn beta in Hx.
      now rewrite Hx.
    + eapply Forall_impl; [|exact T2]. intros x Hx. cbn beta in Hx.
      now rewrite Hx.
    + intros file_lines R Ne.
      exact (stream_file_sends now pm2Id readLines logPath d file_lines R Ne).
  - intros now request process readLines err w errPath Ht Hp Hi acts.
    subst acts. rewrite on_logs_stream_actions.
    unfold Socket.logPaths. rewrite Ht, Hp. cbn [app].
    assert (Socket.push_path (Some errPath) = [errPath]) as ->.
    { destruct errPath; [|reflexivity].
      destruct Hi as [pre [post Hi]]. destruct pre; discriminate Hi. }
    rewrite stream_files_single.
    pose proof (stream_file_types now (Socket.req_pm2Id request) readLines
                  errPath (Routers.db (Socket.st w))) as T.
    cbn zeta in T.
    assert (S : Socket.type_of_path errPath = Db.stdout)
      by now apply type_of_path_contains.
    rewrite S in T. destruct T as [T1 T2].
    split; [exact T1|]. split; [exact T2|].
    intros file_lines R Ne.
    exact (stream_file_sends now (Socket.req_pm2Id request) readLines errPath
             (Routers.db (Socket.st w)) file_lines R Ne).
Qed.

(** ** Sorting keeps the elements *)

Section SortingProperties.
Context {A : Type} (le : A -> A -> bool).

Lemma insert_sorted_In (x y : A) (l : list A) :
  In y (insert_sorted le x l) <-> y = x \/ In y l.
Proof.
  induction l as [|z r IH]; cbn [insert_sorted].
  - cbn. intuition.
  - destruct (le x z); cbn [In]; [intuition|]. rewrite IH. intuition.
Qed.

Lemma sort_by_In (y : A) (l : list A) : In y (sort_by le l) <-> In y l.
Proof.
  induction l as [|x r IH]; [reflexivity|].
  unfold sort_by in *. cbn [fold_right]. rewrite insert_sorted_In, IH.
  cbn. intuition.
Qed.

Lemma insert_sorted_length (x : A) (l : list A) :
  List.length (insert_sorted le x l) = S (List.length l).
Proof.
  induction l as [|z r IH]; [reflexivity|].
  cbn [insert_sorted]. destruct (le x z); cbn [List.length]; congruence.
Qed.

Lemma sort_by_length (l : list A) :
  List.length (sort_by le l) = List.length l.
Proof.
  induction l as [|x r IH]; [reflexivity|].
  unfold sort_by in *. cbn [fold_right].
  rewrite insert_sorted_length. cbn [List.length]. congruence.
Qed.


End SortingProperties.

(** ** Config Store without a backend *)

(** C3 (counterexample). With no backend reachable, the
    group-assignment update, the update of a group and the deletion of
    a group all return normally: none of them surfaces an error, and
    the rows of the store stay as they are. *)
Lemma silent_mutations_without_backend :
  let db := Db.unreachable Fixtures.assigned_database in
  let renamed :=
    Routers.as_partial
      {| LocalStorage.GroupUpdates.name := Some "api";
         LocalStorage.GroupUpdates.description := None;
         LocalStorage.GroupUpdates.color := None |} in
  throws (fst (Db.updateTaskConfigGroup 0 1 (Some 2) db)) = false
  /\ throws (fst (Db.deleteTaskGroup 0 5 db)) = false
  /\ throws (fst (Db.updateTaskGroup 0 5 renamed db)) = false
  /\ snd (Db.updateTaskConfigGroup 0 1 (Some 2) db) = db
  /\ snd (Db.deleteTaskGroup 0 5 db) = db
  /\ snd (Db.updateTaskGroup 0 5 renamed db) = db.
Proof. repeat split; reflexivity. Qed.

(** C3 (amended). With no backend reachable, the reads return empty
    results, the inserts and purges return without effect, and of the
    mutations of groups and group assignments only the creation of a
    group throws "Database not available"; the update of a group
    returns undefined, and the deletion of a group and the
    group-assignment update return normally without effect.  No
    statement is sent and the rows the server holds stay as they
    are. *)
Theorem config_store_without_backend :
  forall (K : Collation) (C : Calendar) (now id : Z) (lo hi : option Z)
         (keyword : option string) (limit days : option Z)
         (group : Db.InsertTaskGroup.t) (data : Db.PartialTaskGroup.t)
         (metric : Db.InsertPerformanceMetric.t) (entry : Db.InsertLogEntry.t)
         (groupId : option Z) (faults : list (option thrown))
         (rows : Db.Database),
    let none :=
      {| Db.handle := false; Db.faults := faults; Db.tables := rows |} in
    (Db.getAllTaskGroups K none = (Normal [], none)
     /\ Db.getTaskGroupById id none = (Normal None, none)
     /\ Db.getAllTaskConfigs K none = (Normal [], none)
     /\ Db.getTaskConfigByPm2Id id none = (Normal None, none)
     /\ Db.getPerformanceMetrics id lo hi limit none = (Normal [], none)
     /\ Db.getLogEntries K id lo hi keyword limit none = (Normal [], none))
    /\ (Db.insertPerformanceMetric now metric none = (Normal tt, none)
        /\ Db.insertLogEntry now entry none = (Normal tt, none)
        /\ Db.cleanOldPerformanceMetrics C now days none = (Normal tt, none)
        /\ Db.cleanOldLogEntries C now days none = (Normal tt, none))
    /\ Db.createTaskGroup now group none
       = (Throw (ErrorObj "Database not available"), none)
    /\ (Db.updateTaskGroup now id data none = (Normal None, none)
        /\ Db.deleteTaskGroup now id none = (Normal tt, none)
        /\ Db.updateTaskConfigGroup now id groupId none = (Normal tt, none)
        /\ Db.deleteTaskConfig id none = (Normal tt, none)).
Proof. intros. repeat split; reflexivity. Qed.

(** ** Retention purge *)

(** C9 (counterexample). A metric row whose timestamp is exactly the
    cutoff, seven days before now, is not older than the cutoff, and
    the purge deletes it. *)
Lemma purge_deletes_row_at_cutoff :
  let now := 1762171200000 in
  let row :=
    {| Db.PerformanceMetric.id := 1; Db.PerformanceMetric.pm2Id := 0;
       Db.PerformanceMetric.cpu := 3; Db.PerformanceMetric.memory := 1024;
       Db.PerformanceMetric.timestamp := now - 7 * 86400000 |} in
  let d := Db.with_performanceMetrics Fixtures.empty_database [row] 2 in
  days_back Fixtures.utc now 7 = Some (now - 7 * 86400000)
  /\ older_than (now - 7 * 86400000) row = false
  /\ Db.cleanOldPerformanceMetrics Fixtures.utc now (Some 7) (Db.reachable d)
     = (Normal tt, Db.reachable (Db.with_performanceMetrics d [] 2)).
Proof. repeat split; reflexivity. Qed.

Lemma keep_after_cutoff {A : Type} (time : A -> Z) (cutoff : Z) (l : list A) :
  filter (fun x => negb (time x <=? cutoff)) l
  = filter (fun x => cutoff <? time x) l.
Proof.
  apply filter_ext. intros x. now rewrite Z.leb_antisym, negb_involutive.
Qed.

(** C9 (amended). The cutoff of the purge is the date [days] days (7
    when none is given) before now on the calendar of the host.  On a
    backend that executes the statement the purge deletes exactly the
    metric rows whose timestamp is at or before the cutoff, keeps
    every row whose timestamp is after it, in order, and touches no
    other table.  When the cutoff leaves the range of dates the purge
    throws and deletes nothing; so it does when the server rejects the
    statement; without a handle it returns and deletes nothing.  On a
    host in UTC the cutoff is now minus [days] times 86400000 ms. *)
Theorem purge_at_or_before_cutoff :
  forall (C : Calendar) (now : Z) (daysToKeep : option Z) (d : Db.Database),
    let days := Db.default_days daysToKeep 7 in
    (forall cutoff,
        days_back C now days = Some cutoff ->
        exists d',
          Db.cleanOldPerformanceMetrics C now daysToKeep (Db.reachable d)
          = (Normal tt, Db.reachable d')
          /\ Db.performanceMetrics d'
             = filter (fun m => cutoff <? Db.PerformanceMetric.timestamp m)
                      (Db.performanceMetrics d)
          /\ (forall m, In m (Db.performanceMetrics d) ->
                        Db.PerformanceMetric.timestamp m <= cutoff ->
                        ~ In m (Db.performanceMetrics d'))
          /\ (forall m, In m (Db.performanceMetrics d) ->
                        cutoff < Db.PerformanceMetric.timestamp m ->
                        In m (Db.performanceMetrics d'))
          /\ (forall m, In m (Db.performanceMetrics d') ->
                        In m (Db.performanceMetrics d))
          /\ Db.taskGroups d' = Db.taskGroups d
          /\ Db.taskConfigs d' = Db.taskConfigs d
          /\ Db.logEntries d' = Db.logEntries d)
    /\ (days_back C now days = None ->
        forall faults,
          let db :=
            {| Db.handle := true; Db.faults := faults; Db.tables := d |} in
          Db.cleanOldPerformanceMetrics C now daysToKeep db
          = (Throw Db.invalid_time, db))
    /\ (forall e n,
           days_back C now days <> None ->
           Db.cleanOldPerformanceMetrics C now daysToKeep
             (Db.rejecting e (S n) d)
           = (Throw e, Db.rejecting e n d))
    /\ Db.cleanOldPerformanceMetrics C now daysToKeep (Db.unreachable d)
       = (Normal tt, Db.unreachable d)
    /\ (Z.abs (now - days * 86400000) <= 8640000000000000 ->
        days_back Fixtures.utc now days = Some (now - days * 86400000)).
Proof.
  intros C now daysToKeep d days. split; [|split; [|split; [|split]]].
  - intros cutoff Hc.
    unfold Db.cleanOldPerformanceMetrics. fold days. rewrite Hc.
    cbn [Db.handle Db.reachable Db.update Db.statement Db.faults Db.tables
           hd tl].
    eexists. split; [reflexivity|].
    cbn [Db.performanceMetrics Db.with_performanceMetrics Db.taskGroups
           Db.taskConfigs Db.logEntries].
    rewrite (keep_after_cutoff Db.PerformanceMetric.timestamp).
    repeat split; try reflexivity.
    + intros m _ Hle Hin. apply filter_In in Hin as [_ Hlt].
      apply Z.ltb_lt in Hlt. lia.
    + intros m Hin Hlt. apply filter_In. split; [assumption|].
      now apply Z.ltb_lt.
    + intros m Hin. now apply filter_In in Hin.
  - intros Hc faults db. subst db. unfold Db.cleanOldPerformanceMetrics.
    fold days. now rewrite Hc.
  - intros e n Hc. unfold Db.cleanOldPerformanceMetrics. fold days.
    destruct (days_back C now days); [reflexivity | congruence].
  - reflexivity.
  - intros R. cbn [days_back Fixtures.utc].
    destruct (Z.leb_spec (Z.abs (now - days * 86400000)) 8640000000000000);
      [reflexivity | lia].
Qed.

(** ** Groups: creation, listing and the cascade of deletion *)




(** The listing when the server executes the statements to come. *)
Lemma groups_list_calm (K : Collation) (s : Routers.stores) :
  calm (Routers.db s) ->
  Routers.groups_list K s
  = (Normal
       (let dbGroups :=
          if Db.handle (Routers.db s)
          then sort_by (fun a b => order_by_le K (Db.TaskGroup.name a)
                                              (Db.TaskGroup.name b))
                       (Db.taskGroups (Db.tables (Routers.db s)))
          else [] in
        if 0 <? Z.of_nat (List.length dbGroups)
        then map Routers.DbGroup dbGroups
        else map Routers.LocalGroup
                 (LocalStorage.getAllTaskGroupsLocal K (Routers.file s))),
     s).
Proof.
  destruct s as [[h f d] fl]. unfold calm. cbn [Routers.db Db.faults].
  intros ->.
  unfold Routers.groups_list, Routers.on_db, bindS, Db.getAllTaskGroups,
    Db.select, Db.statement.
  cbn [Routers.db Routers.file Db.handle Db.faults Db.tables hd tl
         Routers.with_db].
  destruct h.
  - cbn [fst snd]. cbn zeta.
    destruct (0 <? Z.of_nat (List.length (sort_by _ (Db.taskGroups d))));
      reflexivity.
  - reflexivity.
Qed.





(** Creating a group without a handle on the server. *)
Lemma groups_create_no_handle (t : Routers.clock)
  (input : LocalStorage.GroupInput.t) (f : list (option thrown))
  (d : Db.Database) (fl : LocalStorage.disk) :
  Routers.groups_create t input
    {| Routers.db := {| Db.handle := false; Db.faults := f; Db.tables := d |};
       Routers.file := fl |}
  = (Routers.LocalGroup
       (fst (LocalStorage.createTaskGroupLocal (Routers.iso t) input fl)),
     {| Routers.db := {| Db.handle := false; Db.faults := f; Db.tables := d |};
        Routers.file :=
          snd (LocalStorage.createTaskGroupLocal (Routers.iso t) input fl) |}).
Proof. reflexivity. Qed.



(** ** Session manager: polling *)

Lemma clearInterval_not_In (h : Socket.handle) (l : list Socket.handle) :
  ~ In h (Socket.clearInterval h l).
Proof.
  unfold Socket.clearInterval. intros H. apply filter_In in H as [_ H].
  rewrite Nat.eqb_refl in H. discriminate H.
Qed.

Lemma on_monitor_stop_silent (w : Socket.world) :
  snd (Socket.on_monitor_stop w) = [].
Proof.
  unfold Socket.on_monitor_stop. now destruct (Socket.monitorInterval _).
Qed.

Lemma on_monitor_stop_slot (w : Socket.world) :
  Socket.monitorInterval (Socket.data (fst (Socket.on_monitor_stop w))) = None.
Proof.
  unfold Socket.on_monitor_stop.
  destruct (Socket.monitorInterval (Socket.data w)) eqn:E;
    [reflexivity | exact E].
Qed.

Lemma on_monitor_stop_twice (w : Socket.world) :
  Socket.on_monitor_stop (fst (Socket.on_monitor_stop w))
  = (fst (Socket.on_monitor_stop w), []).
Proof.
  pose proof (on_monitor_stop_slot w) as E.
  unfold Socket.on_monitor_stop at 1. now rewrite E.
Qed.

Lemma step_idle (K : Collation) (e : Socket.event) (w : Socket.world) :
  is_monitor_start e = false -> idle w -> idle (fst (Socket.step K e w)).
Proof.
  intros N [I M]. destruct e; try discriminate N; cbn [Socket.step].
  - unfold Socket.on_monitor_stop. rewrite M. now split.
  - unfold Socket.on_logs_stream.
    destruct described as [[process|]|e]; try now split.
    destruct (Socket.stream_files _ _ _ _ _) as [d' acts].
    destruct launchBus_err; now split.
  - unfold Socket.on_logs_stop. destruct (Socket.pm2Bus _); now split.
  - unfold Socket.on_disconnect, idle. cbn [fst Socket.intervals Socket.data].
    rewrite M. now split.
  - unfold Socket.on_interval. rewrite I. cbn [existsb]. now split.
  - unfold Socket.on_bus_log.
    destruct (find _ _) as [[b' id]|]; [|now split].
    destruct (_ =? _); [|now split].
    destruct (Db.insertLogEntry _ _ _) as [saved d']. now split.
Qed.

Lemma run_idle (K : Collation) (es : list Socket.event) :
  forall w,
    forallb (fun e => negb (is_monitor_start e)) es = true ->
    idle w -> idle (fst (Socket.run K es w)).
Proof.
  induction es as [|e r IH]; intros w N W; [exact W|].
  cbn [forallb] in N. apply andb_true_iff in N as [Ne Nr].
  apply negb_true_iff in Ne.
  cbn [Socket.run]. pose proof (step_idle K e w Ne W) as W1.
  destruct (Socket.step K e w) as [w1 a1]. cbn [fst] in W1.
  specialize (IH w1 Nr W1).
  destruct (Socket.run K r w1) as [w2 a2]. exact IH.
Qed.

(** C6 (code evaluated at the failing input). The handler of
    monitor:stop always returns and emits nothing; after it the
    session holds no polling handle, the interval it held is cleared,
    and a second stop changes nothing; on a session that never started
    monitoring it changes nothing and no interval is set.  But two
    stops in a row do not leave the session without an active timer:
    after monitor:start, monitor:start, monitor:stop, monitor:stop the
    interval of the first start is still set, the session holds no
    handle on it, and when it fires it pushes an update and records a
    sample. *)
Theorem stop_twice_leaves_first_interval :
  (forall w : Socket.world,
      let w1 := fst (Socket.on_monitor_stop w) in
      Socket.on_monitor_stop w = (w1, [])
      /\ Socket.on_monitor_stop w1 = (w1, [])
      /\ Socket.monitorInterval (Socket.data w1) = None
      /\ (forall h, Socket.monitorInterval (Socket.data w) = Some h ->
                    ~ In h (Socket.intervals w1)))
  /\ (forall (K : Collation) (s : Routers.stores) (es : list Socket.event),
         forallb (fun e => negb (is_monitor_start e)) es = true ->
         let w := fst (Socket.run K es (Socket.connect s)) in
         Socket.on_monitor_stop w = (w, []) /\ Socket.intervals w = [])
  /\ (let once :=
         fst (Socket.run Fixtures.bytewise
                [Socket.monitor_start 0 Scenario.listed;
                 Socket.monitor_start 10 Scenario.listed;
                 Socket.monitor_stop]
                Scenario.w0) in
       let twice := fst (Socket.step Fixtures.bytewise Socket.monitor_stop once) in
       twice = once
       /\ Socket.intervals twice = [0%nat]
       /\ Socket.monitorInterval (Socket.data twice) = None
       /\ snd (Socket.step Fixtures.bytewise
                 (Socket.interval_fires 0%nat 2000 Scenario.listed) twice)
          = [Scenario.update; Scenario.sample]
       /\ List.length
            (stored_metrics
               (fst (Socket.step Fixtures.bytewise
                       (Socket.interval_fires 0%nat 2000 Scenario.listed)
                       twice)))
          = S (List.length (stored_metrics twice))).
Proof.
  split; [|split].
  - intros w w1. subst w1. split; [|split; [|split]].
    + rewrite (surjective_pairing (Socket.on_monitor_stop w)) at 1.
      now rewrite on_monitor_stop_silent.
    + apply on_monitor_stop_twice.
    + apply on_monitor_stop_slot.
    + intros h E. unfold Socket.on_monitor_stop. rewrite E.
      apply clearInterval_not_In.
  - intros K s es N w.
    assert (W : idle w) by (apply run_idle; [exact N | now split]).
    destruct W as [I M]. split; [|exact I].
    unfold Socket.on_monitor_stop. now rewrite M.
  - vm_compute. repeat split.
Qed.

(** C2 (code evaluated at the failing input). A second monitor:start
    on a session that already polls sets a new interval and leaves the
    first one set: both intervals are live, the session holds only the
    second, and each of them, when it fires, pushes an update and
    records a sample. *)
Theorem second_monitor_start_keeps_first_interval :
  let w2 :=
    fst (Socket.run Fixtures.bytewise
           [Socket.monitor_start 0 Scenario.listed;
            Socket.monitor_start 10 Scenario.listed]
           Scenario.w0) in
  Socket.intervals w2 = [0%nat; 1%nat]
  /\ Socket.monitorInterval (Socket.data w2) = Some 1%nat
  /\ snd (Socket.step Fixtures.bytewise
            (Socket.interval_fires 0%nat 2000 Scenario.listed) w2)
     = [Scenario.update; Scenario.sample]
  /\ snd (Socket.step Fixtures.bytewise
            (Socket.interval_fires 1%nat 2010 Scenario.listed) w2)
     = [Scenario.update; Scenario.sample].
Proof. repeat split; reflexivity. Qed.

(** C4 (code evaluated at the failing input). After monitor:start,
    monitor:start, logs:stream, logs:stream and the disconnect of the
    session, the first interval and the first bus are still live: the
    interval firing pushes an update and records a sample, and a log
    packet on the bus pushes a line and persists it. *)
Theorem orphans_survive_disconnect :
  let w :=
    fst (Socket.run Fixtures.bytewise
           [Socket.monitor_start 0 Scenario.listed;
            Socket.monitor_start 10 Scenario.listed;
            Scenario.stream_stderr;
            Scenario.stream_stderr;
            Socket.disconnect]
           Scenario.w0) in
  Socket.intervals w = [0%nat]
  /\ map fst (Socket.buses w) = [2%nat]
  /\ snd (Socket.step Fixtures.bytewise
            (Socket.interval_fires 0%nat 4000 Scenario.listed) w)
     = [Scenario.update; Scenario.sample]
  /\ Socket.emitted
       (snd (Socket.step Fixtures.bytewise
               (Socket.bus_log 2%nat 5000 Scenario.out_packet) w))
     = [{| Socket.pm2Id := 1; Socket.type := Db.stdout;
           Socket.content := "listening"; Socket.timestamp := 5000 |}]
  /\ List.length
       (Socket.persisted
          (snd (Socket.step Fixtures.bytewise
                  (Socket.bus_log 2%nat 5000 Scenario.out_packet) w)))
     = 1%nat
  /\ List.length
       (stored_metrics
          (fst (Socket.step Fixtures.bytewise
                  (Socket.interval_fires 0%nat 4000 Scenario.listed) w)))
     = S (List.length (stored_metrics w))
  /\ List.length
       (stored_logs
          (fst (Socket.step Fixtures.bytewise
                  (Socket.bus_log 2%nat 5000 Scenario.out_packet) w)))
     = S (List.length (stored_logs w)).
Proof. repeat split; reflexivity. Qed.

(** ** Session manager: the bus of a log stream *)

Lemma close_bus_all (b : Socket.handle) (l : list (Socket.handle * Z)) :
  (forall x, In x (map fst l) -> x = b) -> Socket.close_bus b l = [].
Proof.
  induction l as [|[x id] r IH]; intros H; [reflexivity|].
  cbn [Socket.close_bus filter fst].
  rewrite (H x (or_introl eq_refl)), Nat.eqb_refl. cbn [negb].
  apply IH. intros y Hy. apply H. now right.
Qed.

(** X3. Both merges return one entry per snapshot, in snapshot order,
    with the same group ids; the group id of a process is the
    Fallback Store's when that store assigns the process to a group,
    else the Config Store's, else null, which is the precedence law
    for every process whose Fallback Store assignment, if any, names a
    group. *)
Theorem merge_one_entry_per_snapshot :
  forall (processes : list Pm2Service.PM2ProcessInfo)
         (dbConfigs : list Db.TaskConfig.t)
         (localConfigs : list LocalStorage.LocalTaskConfig.t),
    map Routers.proc (Routers.processes_list processes dbConfigs localConfigs)
    = processes
    /\ map Socket.proc
           (Socket.processesWithGroups processes dbConfigs localConfigs)
       = processes
    /\ map Routers.groupId
           (Routers.processes_list processes dbConfigs localConfigs)
       = map (fun p => resolved dbConfigs localConfigs (Pm2Service.pm_id p))
             processes
    /\ map Socket.groupId
           (Socket.processesWithGroups processes dbConfigs localConfigs)
       = map (fun p => resolved dbConfigs localConfigs (Pm2Service.pm_id p))
             processes
    /\ (forall id,
           (forall c,
               find (fun c => LocalStorage.LocalTaskConfig.pm2Id c =? id)
                    localConfigs = Some c ->
               LocalStorage.LocalTaskConfig.groupId c <> None) ->
           resolved dbConfigs localConfigs id
           = Spec.precedence localConfigs dbConfigs id).
Proof.
  intros. repeat split.
  - apply processes_list_proc.
  - apply processesWithGroups_proc.
  - apply processes_list_groupId.
  - apply processesWithGroups_groupId.
  - apply resolved_precedence.
Qed.

(** ** Reading a log file through the query procedure *)

Lemma split_lines_cons (content : string) :
  exists piece pieces, Pm2Service.split_lines content = piece :: pieces.
Proof.
  destruct content as [|c rest]; cbn [Pm2Service.split_lines]; [eauto|].
  destruct (Ascii.eqb c "010"); [eauto|].
  destruct (Pm2Service.split_lines rest); eauto.
Qed.

(** Joining the pieces with line feeds gives the content back. *)
Lemma split_lines_join (content : string) :
  String.concat (String "010" EmptyString) (Pm2Service.split_lines content)
  = content.
Proof.
  induction content as [|c rest IH]; [reflexivity|].
  cbn [Pm2Service.split_lines].
  destruct (Ascii.eqb_spec c "010") as [->|N].
  - destruct (split_lines_cons rest) as [p [ps E]]. rewrite E in *.
    cbn [String.concat String.append] in *. now rewrite IH.
  - destruct (split_lines_cons rest) as [p [ps E]]. rewrite E in *.
    destruct ps as [|q qs]; cbn [String.concat String.append] in *;
      now rewrite IH.
Qed.

Lemma split_lines_no_line_feed (content : string) :
  Forall (fun piece => no_line_feed piece = true)
         (Pm2Service.split_lines content).
Proof.
  induction content as [|c rest IH]; [repeat constructor|].
  cbn [Pm2Service.split_lines].
  destruct (Ascii.eqb c "010") eqn:E.
  - constructor; [reflexivity | exact IH].
  - destruct (Pm2Service.split_lines rest) as [|p ps].
    + constructor; [|constructor]. cbn [no_line_feed]. now rewrite E.
    + inversion IH as [|p' ps' Hp Hps]; subst. constructor; [|exact Hps].
      cbn [no_line_feed]. now rewrite E.
Qed.

Lemma slice_last {A : Type} (n : Z) (l : list A) :
  0 < n ->
  Pm2Service.slice (- n) l = skipn (List.length l - Z.to_nat n) l.
Proof.
  intros H. unfold Pm2Service.slice.
  destruct (Z.ltb_spec (- n) 0) as [_|]; [|lia]. f_equal. lia.
Qed.

Lemma Forall_skipn {A : Type} (P : A -> Prop) (n : nat) (l : list A) :
  Forall P l -> Forall P (skipn n l).
Proof.
  intros H. rewrite <- (firstn_skipn n l) in H.
  now apply Forall_app in H.
Qed.

(** X4. The log query returns the non-blank lines of the file, in
    file order, cut to its last [lines] ones (100 when no count is
    given); a count of 0 returns them all, a negative count drops the
    first [-lines] of them, and a file that cannot be read gives the
    empty list. No returned line is blank or holds a line feed. *)
Theorem getProcessLogs_tail :
  forall (blank : string -> bool) (content : string),
    let kept :=
      filter (fun line => negb (blank line))
             (Pm2Service.split_lines content) in
    let n := List.length kept in
    (forall lines,
        0 < lines ->
        Pm2Service.getProcessLogs blank (Normal content) (Some lines)
        = skipn (n - Z.to_nat lines) kept
        /\ List.length
             (Pm2Service.getProcessLogs blank (Normal content) (Some lines))
           = Nat.min n (Z.to_nat lines))
    /\ Pm2Service.getProcessLogs blank (Normal content) None
       = skipn (n - 100) kept
    /\ Pm2Service.getProcessLogs blank (Normal content) (Some 0) = kept
    /\ (forall lines,
           lines < 0 ->
           Pm2Service.getProcessLogs blank (Normal content) (Some lines)
           = skipn (Z.to_nat (- lines)) kept)
    /\ (forall e lines, Pm2Service.getProcessLogs blank (Throw e) lines = [])
    /\ (forall lines,
           Forall (fun line => blank line = false
                               /\ no_line_feed line = true)
                  (Pm2Service.getProcessLogs blank (Normal content) lines)).
Proof.
  intros blank content kept n.
  split; [|split; [|split; [|split; [|split]]]].
  - intros lines H. unfold Pm2Service.getProcessLogs. fold kept.
    rewrite (slice_last lines kept H). split; [reflexivity|].
    rewrite length_skipn. fold n. lia.
  - unfold Pm2Service.getProcessLogs. fold kept.
    rewrite (slice_last 100 kept) by lia. reflexivity.
  - unfold Pm2Service.getProcessLogs, Pm2Service.slice. fold kept.
    cbn [Z.opp Z.ltb Z.compare]. rewrite Z.min_l by lia. reflexivity.
  - intros lines H. unfold Pm2Service.getProcessLogs, Pm2Service.slice.
    fold kept. destruct (Z.ltb_spec (- lines) 0) as [|_]; [lia|].
    destruct (Z.min_spec (- lines) (Z.of_nat (List.length kept)))
      as [[_ ->]|[L ->]]; [reflexivity|].
    rewrite Nat2Z.id, !skipn_all2; [reflexivity| lia | lia].
  - reflexivity.
  - intros lines. unfold Pm2Service.getProcessLogs, Pm2Service.slice.
    apply Forall_skipn. fold kept. subst kept.
    apply Forall_forall. intros line Hin. apply filter_In in Hin as [Hin Hb].
    split; [now apply negb_true_iff in Hb|].
    pose proof (split_lines_no_line_feed content) as F.
    rewrite Forall_forall in F. now apply F.
Qed.

(** The last two of three non-blank lines, across a blank one. *)
Lemma getProcessLogs_tail_witness :
  0 < 2
  /\ Pm2Service.getProcessLogs ascii_blank
       (Normal (String "a" (String "010" (String " " (String "010"
                 (String "b" (String "010" (String "c" EmptyString))))))))
       (Some 2)
     = [String "b" EmptyString; String "c" EmptyString].
Proof.
  split; [lia|].
  exact (proj1 (proj1 (getProcessLogs_tail ascii_blank
                         (String "a" (String "010" (String " " (String "010"
                            (String "b" (String "010"
                               (String "c" EmptyString))))))))
                  2 ltac:(lia))).
Defined.

(** ** Lookups in filtered and updated lists *)

Section Lookups.
Context {A : Type}.

Lemma find_all_false (p : A -> bool) (l : list A) :
  (forall x, In x l -> p x = false) -> find p l = None.
Proof.
  induction l as [|x r IH]; intros H; [reflexivity|].
  cbn [find]. rewrite (H x (or_introl eq_refl)). apply IH.
  intros y Hy. apply H. now right.
Qed.

Lemma find_filter_dropped (p q : A -> bool) (l : list A) :
  (forall x, p x = true -> q x = false) -> find p (filter q l) = None.
Proof.
  intros H. apply find_all_false. intros x Hx.
  apply filter_In in Hx as [_ Hq].
  destruct (p x) eqn:P; [|reflexivity]. apply H in P. congruence.
Qed.

Lemma find_filter_kept (p q : A -> bool) (l : list A) :
  (forall x, p x = true -> q x = true) -> find p (filter q l) = find p l.
Proof.
  intros H. induction l as [|x r IH]; [reflexivity|].
  cbn [filter find]. destruct (p x) eqn:P.
  - rewrite (H x P). cbn [find]. now rewrite P.
  - destruct (q x); [cbn [find]; now rewrite P | exact IH].
Qed.

Lemma find_map_same (p : A -> bool) (f : A -> A) (l : list A) :
  (forall x, p (f x) = p x) -> find p (map f l) = option_map f (find p l).
Proof.
  intros H. induction l as [|x r IH]; [reflexivity|].
  cbn [map find]. rewrite H. destruct (p x); [reflexivity | exact IH].
Qed.

Lemma find_app (p : A -> bool) (l r : list A) :
  find p (l ++ r) = match find p l with
                    | Some x => Some x
                    | None => find p r
                    end.
Proof.
  induction l as [|x l IH]; [reflexivity|].
  cbn [app find]. destruct (p x); [reflexivity | exact IH].
Qed.



Lemma set_nth_length (i : nat) (v : A -> A) (l : list A) :
  List.length (set_nth i v l) = List.length l.
Proof.
  revert i. induction l as [|x r IH]; intros [|i]; cbn; auto.
Qed.




End Lookups.

(** ** Deleting processes through the routing layer *)

Lemma filter_filter {A : Type} (p q : A -> bool) (l : list A) :
  filter q (filter p l) = filter (fun x => p x && q x) l.
Proof.
  induction l as [|x r IH]; [reflexivity|].
  cbn [filter]. destruct (p x); cbn [andb filter]; [|exact IH].
  destruct (q x); now rewrite IH.
Qed.

Lemma filter_true {A : Type} (l : list A) : filter (fun _ => true) l = l.
Proof. induction l as [|x r IH]; cbn; congruence. Qed.

Lemma with_taskConfigs_same (d : Db.Database) :
  Db.with_taskConfigs d (Db.taskConfigs d) (Db.taskConfigs_auto d) = d.
Proof. destruct d; reflexivity. Qed.

(** The task configs left when the rows of [ids] are deleted. *)
Lemma without_configs_cons (id : Z) (ids : list Z) (d : Db.Database) :
  let d1 :=
    Db.with_taskConfigs d
      (filter (fun c => negb (Db.TaskConfig.pm2Id c =? id)) (Db.taskConfigs d))
      (Db.taskConfigs_auto d) in
  Db.with_taskConfigs d1
    (filter (fun c => negb (existsb (Z.eqb (Db.TaskConfig.pm2Id c)) ids))
            (Db.taskConfigs d1))
    (Db.taskConfigs_auto d1)
  = Db.with_taskConfigs d
      (filter (fun c => negb (existsb (Z.eqb (Db.TaskConfig.pm2Id c))
                                      (id :: ids)))
              (Db.taskConfigs d))
      (Db.taskConfigs_auto d).
Proof.
  destruct d as [g ga c ca m ma l la]. unfold Db.with_taskConfigs.
  cbn [Db.taskConfigs Db.taskConfigs_auto
         Db.taskGroups Db.taskGroups_auto Db.performanceMetrics
         Db.performanceMetrics_auto Db.logEntries Db.logEntries_auto].
  rewrite filter_filter. f_equal. apply filter_ext.
  intros x. cbn [existsb]. now rewrite negb_orb.
Qed.

(** The clean-up loop of a delete batch deletes the rows of the ids
    up to the first statement the server rejects. *)
Lemma delete_configs_run (ids : list Z) :
  forall (f : list (option thrown)) (d : Db.Database),
    let n := accepted f (List.length ids) in
    let run :=
      Routers.delete_configs ids
        {| Db.handle := true; Db.faults := f; Db.tables := d |} in
    snd run
    = {| Db.handle := true;
         Db.faults := skipn (Nat.min (List.length ids) (S n)) f;
         Db.tables :=
           Db.with_taskConfigs d
             (filter (fun c => negb (existsb (Z.eqb (Db.TaskConfig.pm2Id c))
                                             (firstn n ids)))
                     (Db.taskConfigs d))
             (Db.taskConfigs_auto d) |}
    /\ (n = List.length ids -> fst run = Normal tt)
    /\ ((n < List.length ids)%nat ->
        exists e, nth_error f n = Some (Some e) /\ fst run = Throw e).
Proof.
  induction ids as [|id r IH]; intros f d.
  - cbn [List.length accepted Routers.delete_configs retS fst snd Nat.min
           skipn firstn existsb negb].
    rewrite filter_true, with_taskConfigs_same.
    split; [reflexivity|]. split; [reflexivity|]. intros H. inversion H.
  - cbn [List.length Routers.delete_configs].
    unfold bindS, Db.deleteTaskConfig, Db.update, Db.statement.
    cbn [Db.handle Db.faults Db.tables].
    destruct f as [|[e|] f']; cbn [hd tl accepted].
    + specialize (IH [] (Db.with_taskConfigs d
                           (filter (fun c => negb (Db.TaskConfig.pm2Id c =? id))
                                   (Db.taskConfigs d))
                           (Db.taskConfigs_auto d))).
      cbn zeta in IH. rewrite accepted_nil in IH.
      destruct IH as [S1 [N1 _]].
      rewrite firstn_all in S1. rewrite without_configs_cons in S1.
      split; [|split].
      * rewrite S1. rewrite !skipn_nil.
        change (id :: r) with ([id] ++ r)%list at 2.
        rewrite firstn_all2 by (cbn [List.length app]; lia). reflexivity.
      * intros _. apply N1. reflexivity.
      * intros H. lia.
    + cbn [fst snd firstn existsb negb Nat.min skipn].
      rewrite Nat.min_0_r. cbn [skipn].
      rewrite filter_true, with_taskConfigs_same.
      split; [reflexivity|]. split; [discriminate|].
      intros _. exists e. split; reflexivity.
    + specialize (IH f' (Db.with_taskConfigs d
                           (filter (fun c => negb (Db.TaskConfig.pm2Id c =? id))
                                   (Db.taskConfigs d))
                           (Db.taskConfigs_auto d))).
      cbn zeta in IH. destruct IH as [S1 [N1 R1]].
      rewrite without_configs_cons in S1.
      split; [|split].
      * rewrite S1. reflexivity.
      * intros H. apply N1. lia.
      * intros H. destruct R1 as [e [E1 E2]]; [lia|].
        exists e. split; [exact E1 | exact E2].
Qed.

Lemma delete_configs_no_handle (ids : list Z) (d : Db.conn) :
  Db.handle d = false -> Routers.delete_configs ids d = (Normal tt, d).
Proof.
  intros H. induction ids as [|id r IH]; [reflexivity|].
  cbn [Routers.delete_configs]. unfold bindS, Db.deleteTaskConfig.
  rewrite H. exact IH.
Qed.

(** The lookup of a task config reads the table. *)
Lemma getTaskConfigByPm2Id_reachable (pm2Id : Z) (d : Db.Database) :
  Db.getTaskConfigByPm2Id pm2Id (Db.reachable d)
  = (Normal (find (fun c => Db.TaskConfig.pm2Id c =? pm2Id)
                  (Db.taskConfigs d)),
     Db.reachable d).
Proof. reflexivity. Qed.

(** The statements a procedure sends after its supervisor call. *)
Lemma after_on_db {A B : Type} (m : stateful Db.conn A) (result : B)
  (s : Routers.stores) :
  (_ <~ Routers.on_db m ;; retS result) s
  = (match fst (m (Routers.db s)) with
     | Normal _ => Normal result
     | Throw e => Throw e
     end,
     Routers.with_db s (snd (m (Routers.db s)))).
Proof.
  unfold bindS, Routers.on_db, retS.
  destruct (m (Routers.db s)) as [[u|e] d']; reflexivity.
Qed.

(** X5. A batch returns the tally of the supervisor wrapper and
    leaves the Fallback Store alone; a stop or restart batch leaves
    the Config Store alone too, and so does a delete batch without a
    handle on the database.  With a handle, a delete batch removes the
    task config of every requested id up to the first one whose
    statement the server rejects, whether or not the supervisor could
    delete the process, and keeps the task configs of all other ids;
    when the server executes every statement these are all requested
    ids and the tally is returned, and when it rejects one the
    procedure fails with that error. *)
Theorem batch_delete_cleans_every_config :
  forall (Sup : Type)
         (stopProcess restartProcess deleteProcess
          : Z -> Sup -> Sup * completion unit)
         (render : Z -> string)
         (pm2Ids : list Z) (o : Routers.batch_operation) (sup : Sup)
         (s : Routers.stores),
    let run :=
      Routers.processes_batchOperation Sup stopProcess restartProcess
        deleteProcess render pm2Ids o sup s in
    let result :=
      Pm2Service.batchOperation Sup stopProcess restartProcess deleteProcess
        render pm2Ids (Routers.service_operation o) sup in
    let s' := snd (snd run) in
    let n := accepted (Db.faults (Routers.db s)) (List.length pm2Ids) in
    let lookup (id : Z) (d : Db.conn) :=
      fst (Db.getTaskConfigByPm2Id id (Db.reachable (Db.tables d))) in
    fst run = fst result
    /\ Routers.file s' = Routers.file s
    /\ (o <> Routers.batch_delete -> snd run = (Normal (snd result), s))
    /\ (o = Routers.batch_delete ->
        (Db.handle (Routers.db s) = false ->
         snd run = (Normal (snd result), s))
        /\ (Db.handle (Routers.db s) = true ->
            (forall id, In id (firstn n pm2Ids) ->
                        lookup id (Routers.db s') = Normal None)
            /\ (forall id, ~ In id (firstn n pm2Ids) ->
                           lookup id (Routers.db s')
                           = lookup id (Routers.db s))
            /\ (n = List.length pm2Ids ->
                fst (snd run) = Normal (snd result)
                /\ forall id, In id pm2Ids ->
                              lookup id (Routers.db s') = Normal None)
            /\ ((n < List.length pm2Ids)%nat ->
                exists e,
                  nth_error (Db.faults (Routers.db s)) n = Some (Some e)
                  /\ fst (snd run) = Throw e))).
Proof.
  intros Sup stopP restartP deleteP render ids o sup s.
  cbn zeta. unfold Routers.processes_batchOperation.
  destruct (Pm2Service.batchOperation Sup stopP restartP deleteP render ids
              (Routers.service_operation o) sup) as [sup' result].
  cbn [fst snd]. destruct o.
  - repeat split; try reflexivity; congruence.
  - repeat split; try reflexivity; congruence.
  - rewrite after_on_db. cbn [fst snd Routers.with_db Routers.file Routers.db].
    split; [reflexivity|]. split; [reflexivity|].
    split; [congruence|]. intros _.
    destruct s as [[h f d] fl].
    cbn [Routers.db Routers.file Db.handle Db.faults Db.tables].
    split.
    + intros ->. rewrite delete_configs_no_handle by reflexivity. reflexivity.
    + intros ->. destruct (delete_configs_run ids f d) as [S1 [N1 R1]].
      cbn zeta in S1, N1, R1. rewrite S1. cbn [Db.tables].
      assert (L : forall id,
                 In id (firstn (accepted f (List.length ids)) ids) ->
                 Normal
                   (find (fun c => Db.TaskConfig.pm2Id c =? id)
                      (filter
                         (fun c =>
                            negb (existsb (Z.eqb (Db.TaskConfig.pm2Id c))
                                    (firstn (accepted f (List.length ids))
                                       ids)))
                         (Db.taskConfigs d)))
                 = Normal None :> completion (option Db.TaskConfig.t)).
      { intros id Hin. f_equal. apply find_filter_dropped. intros x Hx.
        apply Z.eqb_eq in Hx. apply negb_false_iff, existsb_exists.
        exists id. split; [exact Hin | now apply Z.eqb_eq]. }
      split; [|split; [|split]].
      * intros id Hin. rewrite getTaskConfigByPm2Id_reachable.
        cbn [fst Db.taskConfigs Db.with_taskConfigs]. exact (L id Hin).
      * intros id Hout. rewrite !getTaskConfigByPm2Id_reachable.
        cbn [fst Db.taskConfigs Db.with_taskConfigs].
        f_equal. apply find_filter_kept. intros x Hx.
        apply Z.eqb_eq in Hx. apply negb_true_iff.
        destruct (existsb _ _) eqn:E; [|reflexivity].
        apply existsb_exists in E as [y [Hy Ey]]. apply Z.eqb_eq in Ey.
        congruence.
      * intros E. rewrite (N1 E). split; [reflexivity|]. intros id Hin.
        rewrite getTaskConfigByPm2Id_reachable.
        cbn [fst Db.taskConfigs Db.with_taskConfigs].
        apply L. rewrite E, firstn_all. exact Hin.
      * intros E. destruct (R1 E) as [e [E1 E2]]. exists e.
        split; [exact E1|]. now rewrite E2.
Qed.

(** X6. The deletion of one process fails with the supervisor's error,
    before the Config Store is touched, when the supervisor did not
    delete the process.  When it did, the deletion returns true
    without a statement if there is no handle on the database; with a
    handle it removes the task config of the process, and only its,
    and returns true, unless the server rejects the statement: then
    it fails with that error and the tables are as they were.  The
    Fallback Store is never written. *)
Theorem processes_delete_after_supervisor :
  forall (Sup : Type) (deleteProcess : Z -> Sup -> Sup * completion unit)
         (pm2Id : Z) (sup : Sup) (s : Routers.stores),
    let run := Routers.processes_delete Sup deleteProcess pm2Id sup s in
    let s' := snd (snd run) in
    let lookup (id : Z) (d : Db.conn) :=
      fst (Db.getTaskConfigByPm2Id id (Db.reachable (Db.tables d))) in
    fst run = fst (deleteProcess pm2Id sup)
    /\ match snd (deleteProcess pm2Id sup) with
       | Throw e => snd run = (Throw e, s)
       | Normal _ =>
           Routers.file s' = Routers.file s
           /\ (Db.handle (Routers.db s) = false -> snd run = (Normal true, s))
           /\ (Db.handle (Routers.db s) = true ->
               match hd None (Db.faults (Routers.db s)) with
               | Some e =>
                   fst (snd run) = Throw e
                   /\ Db.tables (Routers.db s') = Db.tables (Routers.db s)
               | None =>
                   fst (snd run) = Normal true
                   /\ lookup pm2Id (Routers.db s') = Normal None
                   /\ (forall id, id <> pm2Id ->
                                  lookup id (Routers.db s')
                                  = lookup id (Routers.db s))
               end)
       end.
Proof.
  intros Sup deleteP pm2Id sup s. cbn zeta. unfold Routers.processes_delete.
  destruct (deleteP pm2Id sup) as [sup' [u|e]]; cbn [fst snd];
    (split; [reflexivity|]); [|reflexivity].
  rewrite after_on_db. cbn [fst snd Routers.with_db Routers.file Routers.db].
  split; [reflexivity|].
  destruct s as [[h f d] fl].
  cbn [Routers.db Routers.file Db.handle Db.faults Db.tables].
  unfold Db.deleteTaskConfig, Db.update, Db.statement.
  cbn [Db.handle Db.faults Db.tables].
  split.
  - intros ->. reflexivity.
  - intros ->. destruct f as [|[e|] f']; cbn [hd tl fst snd Db.tables].
    + split; [reflexivity|].
      rewrite !getTaskConfigByPm2Id_reachable.
      cbn [fst Db.taskConfigs Db.with_taskConfigs]. split.
      * f_equal. apply find_filter_dropped. intros c Hc. now rewrite Hc.
      * intros id N. rewrite !getTaskConfigByPm2Id_reachable. cbn [fst].
        f_equal. apply find_filter_kept. intros c Hc.
        apply Z.eqb_eq in Hc. apply negb_true_iff, Z.eqb_neq. congruence.
    + split; reflexivity.
    + split; [reflexivity|].
      rewrite !getTaskConfigByPm2Id_reachable.
      cbn [fst Db.taskConfigs Db.with_taskConfigs]. split.
      * f_equal. apply find_filter_dropped. intros c Hc. now rewrite Hc.
      * intros id N. rewrite !getTaskConfigByPm2Id_reachable. cbn [fst].
        f_equal. apply find_filter_kept. intros c Hc.
        apply Z.eqb_eq in Hc. apply negb_true_iff, Z.eqb_neq. congruence.
Qed.

(** ** The Fallback Store: assignments *)






(** ** The Fallback Store: groups and consistency *)












(** ** A group assignment and the next merge *)

Section SortingMaps.
Context {A : Type} (le : A -> A -> bool) (f : A -> A).
Hypothesis le_f : forall a b, le (f a) (f b) = le a b.



End SortingMaps.



(** ** History queries: the newest rows first *)

Section SortedOutput.
Context {A : Type} (le : A -> A -> bool).
Hypothesis le_total : forall a b, le a b = true \/ le b a = true.
Hypothesis le_trans :
  forall a b c, le a b = true -> le b c = true -> le a c = true.

Lemma insert_sorted_sorted (x : A) (l : list A) :
  StronglySorted (fun a b => le a b = true) l ->
  StronglySorted (fun a b => le a b = true) (insert_sorted le x l).
Proof.
  induction l as [|y r IH]; intros S; cbn [insert_sorted].
  - repeat constructor.
  - inversion S as [|? ? Sr Fy]; subst. destruct (le x y) eqn:E.
    + constructor; [exact S|]. constructor; [exact E|].
      eapply Forall_impl; [|exact Fy]. intros z Hz. cbn beta in *.
      now apply (le_trans x y z).
    + constructor; [now apply IH|].
      apply Forall_forall. intros z Hz.
      apply insert_sorted_In in Hz as [->|Hz].
      * destruct (le_total x y) as [T|T]; [congruence | exact T].
      * rewrite Forall_forall in Fy. now apply Fy.
Qed.

Lemma sort_by_sorted (l : list A) :
  StronglySorted (fun a b => le a b = true) (sort_by le l).
Proof.
  induction l as [|x r IH]; [constructor|].
  unfold sort_by in *. cbn [fold_right]. now apply insert_sorted_sorted.
Qed.

End SortedOutput.

Lemma insert_sorted_perm {A : Type} (le : A -> A -> bool) (x : A)
  (l : list A) :
  Permutation (insert_sorted le x l) (x :: l).
Proof.
  induction l as [|y r IH]; cbn [insert_sorted]; [reflexivity|].
  destruct (le x y); [reflexivity|].
  rewrite IH. apply perm_swap.
Qed.

Lemma sort_by_perm {A : Type} (le : A -> A -> bool) (l : list A) :
  Permutation (sort_by le l) l.
Proof.
  induction l as [|x r IH]; [reflexivity|].
  unfold sort_by in *. cbn [fold_right].
  rewrite insert_sorted_perm. now constructor.
Qed.

Lemma In_firstn {A : Type} (n : nat) (l : list A) (x : A) :
  In x (firstn n l) -> In x l.
Proof.
  intros H. rewrite <- (firstn_skipn n l). apply in_or_app. now left.
Qed.

Lemma In_skipn {A : Type} (n : nat) (l : list A) (x : A) :
  In x (skipn n l) -> In x l.
Proof.
  intros H. rewrite <- (firstn_skipn n l). apply in_or_app. now right.
Qed.

Lemma StronglySorted_firstn {A : Type} (R : A -> A -> Prop) (n : nat)
  (l : list A) :
  StronglySorted R l -> StronglySorted R (firstn n l).
Proof.
  revert n. induction l as [|x r IH]; intros [|n] S; cbn [firstn];
    try constructor.
  - inversion S; subst. now apply IH.
  - inversion S as [|? ? _ F]; subst. rewrite Forall_forall in *.
    intros y Hy. apply F. eapply In_firstn; eauto.
Qed.

Lemma StronglySorted_cut {A : Type} (R : A -> A -> Prop) (n : nat)
  (l : list A) :
  StronglySorted R l ->
  forall x y, In x (firstn n l) -> In y (skipn n l) -> R x y.
Proof.
  revert n. induction l as [|a r IH]; intros [|n] S x y Hx Hy;
    cbn [firstn skipn] in *; try contradiction.
  inversion S as [|? ? Sr F]; subst. destruct Hx as [<-|Hx].
  - rewrite Forall_forall in F. apply F. eapply In_skipn; eauto.
  - now apply (IH n Sr).
Qed.

Section Window.
Context {A : Type} (key : A -> Z) (p : A -> bool) (rows : list A) (n : nat).

Local Notation "'matching'" := (filter p rows).
Local Notation "'result'" :=
  (firstn n (sort_by (fun a b => key b <=? key a) (filter p rows))).

(** The first [n] of the matching rows, newest first. *)
Lemma newest_window :
  (forall r, In r result -> In r rows /\ p r = true)
  /\ List.length result = Nat.min (List.length matching) n
  /\ StronglySorted (fun a b => key b <= key a) result
  /\ ((List.length matching <= n)%nat -> Permutation result matching)
  /\ (forall kept dropped,
         In kept result -> In dropped matching -> ~ In dropped result ->
         key dropped <= key kept).
Proof.
  assert (S : StronglySorted (fun a b => (key b <=? key a) = true)
                (sort_by (fun a b => key b <=? key a) matching)).
  { apply sort_by_sorted.
    - intros a b. rewrite !Z.leb_le. lia.
    - intros a b c. rewrite !Z.leb_le. lia. }
  split; [|split; [|split; [|split]]].
  - intros r Hr. apply In_firstn in Hr.
    apply sort_by_In in Hr. now apply filter_In in Hr.
  - rewrite length_firstn, sort_by_length. lia.
  - apply StronglySorted_firstn.
    clear -S. induction S as [|a l Sl IH F]; constructor; [exact IH|].
    eapply Forall_impl; [|exact F]. intros b. apply Z.leb_le.
  - intros L. rewrite firstn_all2.
    + apply sort_by_perm.
    + now rewrite sort_by_length.
  - intros kept dropped Hk Hd Hn.
    assert (Hs : In dropped (skipn n (sort_by (fun a b => key b <=? key a)
                                              matching))).
    { apply (sort_by_In (fun a b => key b <=? key a)) in Hd.
      rewrite <- (firstn_skipn n) in Hd.
      apply in_app_or in Hd as [Hd|Hd]; [contradiction | exact Hd]. }
    apply Z.leb_le. exact (StronglySorted_cut _ n _ S kept dropped Hk Hs).
Qed.

End Window.

(** X11. On a backend that executes the statement, the metric
    history of a process holds only rows of that process inside the
    given time bounds, at most [limit] of them (100 when no limit is
    given), newest first; the rows it leaves out for the limit are not
    newer than the rows it returns, and it returns every matching row
    when they are at most [limit].  The query changes no row. *)
Theorem metric_history_newest_first :
  forall (d : Db.Database) (pm2Id : Z) (startTime endTime limit : option Z),
    valid_limit limit ->
    let matching :=
      filter (metric_matches pm2Id startTime endTime)
             (Db.performanceMetrics d) in
    exists result,
      Db.getPerformanceMetrics pm2Id startTime endTime limit (Db.reachable d)
      = (Normal result, Db.reachable d)
      /\ (forall m, In m result ->
                    In m (Db.performanceMetrics d)
                    /\ Db.PerformanceMetric.pm2Id m = pm2Id
                    /\ (forall s, startTime = Some s ->
                                  s <= Db.PerformanceMetric.timestamp m)
                    /\ (forall e, endTime = Some e ->
                                  Db.PerformanceMetric.timestamp m <= e))
      /\ List.length result
         = Nat.min (List.length matching) (limit_or limit 100)
      /\ StronglySorted (fun a b => Db.PerformanceMetric.timestamp b
                                    <= Db.PerformanceMetric.timestamp a)
                        result
      /\ ((List.length matching <= limit_or limit 100)%nat ->
          Permutation result matching)
      /\ (forall kept dropped,
             In kept result -> In dropped matching -> ~ In dropped result ->
             Db.PerformanceMetric.timestamp dropped
             <= Db.PerformanceMetric.timestamp kept).
Proof.
  intros d pm2Id startTime endTime limit _ matching.
  destruct (newest_window Db.PerformanceMetric.timestamp
              (metric_matches pm2Id startTime endTime)
              (Db.performanceMetrics d) (limit_or limit 100))
    as [M [L [S [P C]]]].
  eexists. split; [reflexivity|].
  split; [|split; [|split; [|split]]]; try assumption.
  intros m Hm. destruct (M m Hm) as [Hin Hp]. split; [exact Hin|].
  unfold metric_matches in Hp.
  apply andb_true_iff in Hp as [Hp He].
  apply andb_true_iff in Hp as [Hp Hs]. apply Z.eqb_eq in Hp.
  split; [exact Hp|]. split.
  - intros s ->. now apply Z.leb_le in Hs.
  - intros e ->. now apply Z.leb_le in He.
Qed.

(** X12. On a backend that executes the statement, the log history of
    a process holds only rows of that process inside the given time
    bounds whose content matches the keyword, at most [limit] of them
    (500 when no limit is given), newest first, the newest ones when
    the limit cuts; an empty keyword filters nothing, like no
    keyword.  The query changes no row. *)
Theorem log_history_newest_first :
  forall (K : Collation) (d : Db.Database) (pm2Id : Z)
         (startTime endTime : option Z) (keyword : option string)
         (limit : option Z),
    valid_limit limit ->
    let matching :=
      filter (log_matches K pm2Id startTime endTime keyword)
             (Db.logEntries d) in
    exists result,
      Db.getLogEntries K pm2Id startTime endTime keyword limit
        (Db.reachable d)
      = (Normal result, Db.reachable d)
      /\ (forall e, In e result ->
                    In e (Db.logEntries d)
                    /\ Db.LogEntry.pm2Id e = pm2Id
                    /\ (forall s, startTime = Some s ->
                                  s <= Db.LogEntry.timestamp e)
                    /\ (forall t, endTime = Some t ->
                                  Db.LogEntry.timestamp e <= t)
                    /\ (forall k, keyword = Some k -> k <> EmptyString ->
                                  sql_like K (String "%" (k ++ "%"))
                                           (Db.LogEntry.content e) = true))
      /\ List.length result
         = Nat.min (List.length matching) (limit_or limit 500)
      /\ StronglySorted (fun a b => Db.LogEntry.timestamp b
                                    <= Db.LogEntry.timestamp a) result
      /\ ((List.length matching <= limit_or limit 500)%nat ->
          Permutation result matching)
      /\ (forall kept dropped,
             In kept result -> In dropped matching -> ~ In dropped result ->
             Db.LogEntry.timestamp dropped <= Db.LogEntry.timestamp kept)
      /\ Db.getLogEntries K pm2Id startTime endTime (Some EmptyString) limit
           (Db.reachable d)
         = Db.getLogEntries K pm2Id startTime endTime None limit
             (Db.reachable d).
Proof.
  intros K d pm2Id startTime endTime keyword limit _ matching.
  destruct (newest_window Db.LogEntry.timestamp
              (log_matches K pm2Id startTime endTime keyword)
              (Db.logEntries d) (limit_or limit 500))
    as [M [L [S [P C]]]].
  eexists. split; [reflexivity|].
  split; [|split; [|split; [|split; [|split]]]]; try assumption;
    [|reflexivity].
  intros e He. destruct (M e He) as [Hin Hp]. split; [exact Hin|].
  unfold log_matches in Hp.
  apply andb_true_iff in Hp as [Hp Hk].
  apply andb_true_iff in Hp as [Hp Hend].
  apply andb_true_iff in Hp as [Hp Hs]. apply Z.eqb_eq in Hp.
  split; [exact Hp|]. split; [|split].
  - intros s ->. now apply Z.leb_le in Hs.
  - intros t ->. now apply Z.leb_le in Hend.
  - intros k -> N. destruct k; [congruence | exact Hk].
Qed.


(** X14. On a backend that executes the statements, a metric sample
    is stored with the table's next id and the insertion time, and a
    history query for its process with no time bounds returns it as
    long as the limit is above the number of rows the process already
    had; the same holds for a log line. *)
Theorem history_insert_then_query :
  (forall (now : Z) (metric : Db.InsertPerformanceMetric.t)
          (d : Db.Database) (limit : option Z),
      let pm2Id := Db.InsertPerformanceMetric.pm2Id metric in
      (List.length (filter (metric_matches pm2Id None None)
                           (Db.performanceMetrics d))
       < limit_or limit 100)%nat ->
      exists d' row result,
        Db.insertPerformanceMetric now metric (Db.reachable d)
        = (Normal tt, Db.reachable d')
        /\ Db.getPerformanceMetrics pm2Id None None limit (Db.reachable d')
           = (Normal result, Db.reachable d')
        /\ In row result
        /\ Db.PerformanceMetric.id row = Db.performanceMetrics_auto d
        /\ Db.PerformanceMetric.cpu row = Db.InsertPerformanceMetric.cpu metric
        /\ Db.PerformanceMetric.memory row
           = Db.InsertPerformanceMetric.memory metric
        /\ Db.PerformanceMetric.timestamp row = now)
  /\ (forall (K : Collation) (now : Z) (entry : Db.InsertLogEntry.t)
             (d : Db.Database) (limit : option Z),
         let pm2Id := Db.InsertLogEntry.pm2Id entry in
         (List.length (filter (log_matches K pm2Id None None None)
                              (Db.logEntries d))
          < limit_or limit 500)%nat ->
         exists d' row result,
           Db.insertLogEntry now entry (Db.reachable d)
           = (Normal tt, Db.reachable d')
           /\ Db.getLogEntries K pm2Id None None None limit (Db.reachable d')
              = (Normal result, Db.reachable d')
           /\ In row result
           /\ Db.LogEntry.id row = Db.logEntries_auto d
           /\ Db.LogEntry.type row = Db.InsertLogEntry.type entry
           /\ Db.LogEntry.content row = Db.InsertLogEntry.content entry
           /\ Db.LogEntry.timestamp row = now).
Proof.
  split.
  - intros now metric d limit pm2Id L.
    set (row := Db.metric_row (Db.performanceMetrics_auto d) now metric).
    exists (Db.with_performanceMetrics d (Db.performanceMetrics d ++ [row])
              (Db.performanceMetrics_auto d + 1)), row.
    eexists.
    split; [reflexivity|]. split; [reflexivity|]. split; [|repeat split].
    assert (R : metric_matches pm2Id None None row = true).
    { unfold metric_matches. cbn. now rewrite Z.eqb_refl. }
    destruct (newest_window Db.PerformanceMetric.timestamp
                (metric_matches pm2Id None None)
                (Db.performanceMetrics d ++ [row])
                (limit_or limit 100)) as [_ [_ [_ [P _]]]].
    eapply Permutation_in.
    + symmetry. apply P. rewrite filter_app, length_app. cbn [filter].
      rewrite R. cbn [List.length]. lia.
    + apply filter_In. split; [|exact R]. apply in_or_app. right. now left.
  - intros K now entry d limit pm2Id L.
    set (row := Db.log_row (Db.logEntries_auto d) now entry).
    exists (Db.with_logEntries d (Db.logEntries d ++ [row])
              (Db.logEntries_auto d + 1)), row.
    eexists.
    split; [reflexivity|]. split; [reflexivity|]. split; [|repeat split].
    assert (R : log_matches K pm2Id None None None row = true).
    { unfold log_matches. cbn. now rewrite Z.eqb_refl. }
    destruct (newest_window Db.LogEntry.timestamp
                (log_matches K pm2Id None None None)
                (Db.logEntries d ++ [row])
                (limit_or limit 500)) as [_ [_ [_ [P _]]]].
    eapply Permutation_in.
    + symmetry. apply P. rewrite filter_app, length_app. cbn [filter].
      rewrite R. cbn [List.length]. lia.
    + apply filter_In. split; [|exact R]. apply in_or_app. right. now left.
Qed.

(** ** Session manager: one poll cycle *)

Lemma online_cons (p : Pm2Service.PM2ProcessInfo)
  (r : list Pm2Service.PM2ProcessInfo) :
  online (p :: r)
  = if String.eqb (Pm2Service.status p) "online"
    then p :: online r else online r.
Proof. reflexivity. Qed.

Lemma with_samples_nil (now : Z) (d : Db.Database) :
  with_samples now [] d = d.
Proof.
  destruct d as [g ga c ca m ma l la].
  unfold with_samples, Db.with_performanceMetrics.
  cbn [sample_rows List.length Z.of_nat
         Db.performanceMetrics Db.performanceMetrics_auto Db.taskGroups
         Db.taskGroups_auto Db.taskConfigs Db.taskConfigs_auto
         Db.logEntries Db.logEntries_auto].
  now rewrite app_nil_r, Z.add_0_r.
Qed.

Lemma with_samples_cons (now : Z) (p : Pm2Service.PM2ProcessInfo)
  (r : list Pm2Service.PM2ProcessInfo) (d : Db.Database) :
  with_samples now r
    (Db.with_performanceMetrics d
       (Db.performanceMetrics d
        ++ [Db.metric_row (Db.performanceMetrics_auto d) now
              (Socket.metric_of p)])
       (Db.performanceMetrics_auto d + 1))
  = with_samples now (p :: r) d.
Proof.
  destruct d as [g ga c ca m ma l la].
  unfold with_samples, Db.with_performanceMetrics.
  cbn [Db.performanceMetrics Db.performanceMetrics_auto Db.taskGroups
         Db.taskGroups_auto Db.taskConfigs Db.taskConfigs_auto
         Db.logEntries Db.logEntries_auto sample_rows List.length].
  rewrite <- app_assoc. cbn [app Socket.metric_of Db.metric_row
    Db.InsertPerformanceMetric.pm2Id Db.InsertPerformanceMetric.cpu
    Db.InsertPerformanceMetric.memory].
  f_equal. lia.
Qed.

(** The loop that records the samples: the inserts are made up to the
    first one the server rejects, which ends the loop. *)
Lemma record_metrics_run (now : Z)
  (processes : list Pm2Service.PM2ProcessInfo) :
  forall (f : list (option thrown)) (d : Db.Database),
    let len := List.length (online processes) in
    let n := accepted f len in
    let run :=
      Socket.record_metrics now processes
        {| Db.handle := true; Db.faults := f; Db.tables := d |} in
    snd (fst run)
    = {| Db.handle := true;
         Db.faults := skipn (Nat.min len (S n)) f;
         Db.tables := with_samples now (firstn n (online processes)) d |}
    /\ snd run
       = map (fun p => Socket.insertPerformanceMetric (Socket.metric_of p))
             (firstn (Nat.min len (S n)) (online processes))
    /\ (n = len -> fst (fst run) = Normal tt)
    /\ ((n < len)%nat ->
        exists e, nth_error f n = Some (Some e)
                  /\ fst (fst run) = Throw e).
Proof.
  induction processes as [|p r IH]; intros f d.
  - cbn [online filter List.length accepted Socket.record_metrics fst snd
           Nat.min skipn firstn map].
    rewrite with_samples_nil.
    split; [reflexivity|]. split; [reflexivity|]. split; [reflexivity|].
    intros H. inversion H.
  - cbn [Socket.record_metrics]. rewrite online_cons.
    destruct (String.eqb (Pm2Service.status p) "online"); [|apply IH].
    unfold Db.insertPerformanceMetric, Db.update, Db.statement.
    cbn [Db.handle Db.faults Db.tables List.length].
    destruct f as [|[e|] f']; cbn [hd tl accepted].
    + specialize (IH [] (Db.with_performanceMetrics d
                           (Db.performanceMetrics d
                            ++ [Db.metric_row (Db.performanceMetrics_auto d)
                                  now (Socket.metric_of p)])
                           (Db.performanceMetrics_auto d + 1))).
      cbn zeta in IH. rewrite accepted_nil in IH.
      destruct (Socket.record_metrics now r _) as [[c d2] acts].
      cbn [fst snd] in IH |- *. destruct IH as [S1 [A1 [N1 _]]].
      rewrite firstn_all in S1. rewrite with_samples_cons in S1.
      rewrite Nat.min_l in A1 by lia. rewrite firstn_all in A1.
      rewrite skipn_nil in S1.
      split; [|split; [|split]].
      * rewrite S1, skipn_nil.
        change (p :: online r) with ([p] ++ online r)%list at 2.
        rewrite firstn_all2 by (cbn [List.length app]; lia). reflexivity.
      * rewrite A1. rewrite Nat.min_l by lia.
        change (S (List.length (online r)))
          with (List.length (p :: online r)).
        now rewrite firstn_all.
      * intros _. now apply N1.
      * intros H. lia.
    + cbn [fst snd firstn Nat.min skipn map]. rewrite Nat.min_0_r.
      cbn [skipn firstn map]. rewrite with_samples_nil.
      split; [reflexivity|]. split; [reflexivity|].
      split; [discriminate|]. intros _. exists e. split; reflexivity.
    + specialize (IH f' (Db.with_performanceMetrics d
                           (Db.performanceMetrics d
                            ++ [Db.metric_row (Db.performanceMetrics_auto d)
                                  now (Socket.metric_of p)])
                           (Db.performanceMetrics_auto d + 1))).
      cbn zeta in IH.
      destruct (Socket.record_metrics now r _) as [[c d2] acts].
      cbn [fst snd] in IH |- *. destruct IH as [S1 [A1 [N1 R1]]].
      rewrite with_samples_cons in S1.
      split; [|split; [|split]].
      * rewrite S1. reflexivity.
      * rewrite A1. reflexivity.
      * intros H. apply N1. lia.
      * intros H. destruct R1 as [e [E1 E2]]; [lia|].
        exists e. split; [exact E1 | exact E2].
Qed.

Lemma record_metrics_no_handle (now : Z)
  (processes : list Pm2Service.PM2ProcessInfo) (d : Db.conn) :
  Db.handle d = false ->
  Socket.record_metrics now processes d
  = (Normal tt, d,
     map (fun p => Socket.insertPerformanceMetric (Socket.metric_of p))
         (online processes)).
Proof.
  intros H. induction processes as [|p r IH]; [reflexivity|].
  cbn [Socket.record_metrics]. rewrite online_cons.
  destruct (String.eqb (Pm2Service.status p) "online"); [|exact IH].
  unfold Db.insertPerformanceMetric. rewrite H, IH. reflexivity.
Qed.

(** X15. One poll cycle never writes the Fallback Store.  When the
    supervisor cannot list the processes, or the server rejects the
    query of the task configs, it pushes one error and nothing else.
    Otherwise it pushes one update with an entry per snapshot and then
    calls the insert of one metric sample per snapshot whose status is
    "online", in snapshot order, each with the snapshot's id, cpu and
    memory; snapshots in any other status are not sampled.  Without a
    handle on the database the inserts store nothing; with a handle
    the samples are stored with the time of the cycle up to the first
    insert the server rejects, which ends the loop and makes the
    cycle push one error after the update. *)
Theorem poll_cycle_samples_online_processes :
  forall (K : Collation) (now : Z) (s : Routers.stores)
         (processes : list Pm2Service.PM2ProcessInfo),
    let after := Socket.fetchAndSendProcesses K now (Normal processes) s in
    let failed := Socket.emit_error "Failed to fetch process data" in
    let update dbConfigs :=
      Socket.emit_processes_update
        (Socket.processesWithGroups processes dbConfigs
           (LocalStorage.getAllTaskConfigsLocal (Routers.file s))) in
    let insert p := Socket.insertPerformanceMetric (Socket.metric_of p) in
    Routers.file (fst after) = Routers.file s
    /\ (Db.handle (Routers.db s) = false ->
        after = (s, update [] :: map insert (online processes)))
    /\ (Db.handle (Routers.db s) = true ->
        match Db.faults (Routers.db s) with
        | Some e :: rest =>
            after
            = (Routers.with_db s
                 {| Db.handle := true; Db.faults := rest;
                    Db.tables := Db.tables (Routers.db s) |},
               [failed])
        | rest =>
            let len := List.length (online processes) in
            let n := accepted (tl rest) len in
            let dbConfigs :=
              sort_by (fun a b => order_by_le K (Db.TaskConfig.name a)
                                              (Db.TaskConfig.name b))
                      (Db.taskConfigs (Db.tables (Routers.db s))) in
            Db.tables (Routers.db (fst after))
            = with_samples now (firstn n (online processes))
                (Db.tables (Routers.db s))
            /\ (n = len ->
                snd after = update dbConfigs :: map insert (online processes))
            /\ ((n < len)%nat ->
                snd after
                = update dbConfigs
                  :: map insert (firstn (S n) (online processes))
                  ++ [failed])
        end)
    /\ (forall e,
           Socket.fetchAndSendProcesses K now (Throw e) s = (s, [failed])).
Proof.
  intros K now s processes. cbn zeta.
  unfold Socket.fetchAndSendProcesses.
  destruct s as [[h f d] fl].
  cbn [Routers.db Routers.file Db.handle Db.faults Db.tables].
  split; [|split; [|split; [|reflexivity]]].
  - destruct (Db.getAllTaskConfigs K _) as [[cs|e] d1]; [|reflexivity].
    destruct (Socket.record_metrics now processes d1) as [[[u|e] d2] acts];
      reflexivity.
  - intros ->. unfold Db.getAllTaskConfigs. cbn [Db.handle].
    rewrite record_metrics_no_handle by reflexivity. reflexivity.
  - intros ->. unfold Db.getAllTaskConfigs, Db.select, Db.statement.
    cbn [Db.handle Db.faults Db.tables].
    destruct f as [|[e|] f']; cbn [hd tl]; [| reflexivity |].
    + destruct (record_metrics_run now processes [] d) as [S1 [A1 [N1 R1]]].
      cbn zeta in S1, A1, N1, R1.
      destruct (Socket.record_metrics now processes _) as [[c d2] acts].
      cbn [fst snd] in S1, A1, N1, R1. subst d2 acts.
      rewrite accepted_nil in *. rewrite Nat.min_l by lia.
      rewrite firstn_all in *. rewrite (N1 eq_refl).
      cbn [fst snd Routers.with_db Routers.db Db.tables].
      split; [reflexivity|]. split; [reflexivity|]. intros H. lia.
    + destruct (record_metrics_run now processes f' d) as [S1 [A1 [N1 R1]]].
      cbn zeta in S1, A1, N1, R1.
      destruct (Socket.record_metrics now processes _) as [[c d2] acts].
      cbn [fst snd] in S1, A1, N1, R1. subst d2 acts.
      split; [|split].
      * destruct c; reflexivity.
      * intros E. rewrite (N1 E). cbn [snd]. rewrite E.
        rewrite Nat.min_l by lia. now rewrite firstn_all.
      * intros E. destruct (R1 E) as [e [_ ->]]. cbn [snd].
        rewrite Nat.min_r by lia. reflexivity.
Qed.

(** ** Log tailer: the two files, the bus and the stop *)

Lemma emitted_app (a b : list Socket.action) :
  Socket.emitted (a ++ b) = Socket.emitted a ++ Socket.emitted b.
Proof. unfold Socket.emitted. apply flat_map_app. Qed.

Lemma persisted_app (a b : list Socket.action) :
  Socket.persisted (a ++ b) = Socket.persisted a ++ Socket.persisted b.
Proof. unfold Socket.persisted. apply flat_map_app. Qed.

Lemma replay_length_ext (d1 d2 : Db.conn) (n : nat) :
  Db.handle d1 = Db.handle d2 ->
  (Db.handle d1 = true -> Db.faults d1 = Db.faults d2) ->
  replay_length d1 n = replay_length d2 n.
Proof.
  unfold replay_length. intros H F. rewrite <- H.
  destruct (Db.handle d1); [rewrite F by reflexivity|]; reflexivity.
Qed.

(** The store after the replay of one file: the server has answered
    one statement per line sent. *)
Lemma stream_file_store (now pm2Id : Z)
  (readLines : string -> completion (list string)) (logPath : string)
  (d : Db.conn) (n : nat) :
  replay_length (fst (Socket.stream_file now pm2Id readLines logPath d)) n
  = replay_length
      (later (replay_length d (List.length (replayed readLines logPath))) d)
      n.
Proof.
  apply replay_length_ext; cbn [later Db.handle Db.faults];
    unfold Socket.stream_file, replayed;
    destruct (readLines logPath) as [file_lines|e].
  - pose proof (send_lines_store now pm2Id logPath
                  (Socket.tail_lines file_lines) d) as S.
    cbn zeta in S.
    destruct (Socket.send_lines now pm2Id logPath
                (Socket.tail_lines file_lines) d) as [[d' threw] acts].
    cbn [fst] in *. exact (proj1 S).
  - reflexivity.
  - pose proof (send_lines_store now pm2Id logPath
                  (Socket.tail_lines file_lines) d) as S.
    cbn zeta in S.
    destruct (Socket.send_lines now pm2Id logPath
                (Socket.tail_lines file_lines) d) as [[d' threw] acts].
    cbn [fst] in *. destruct S as [H F]. intros T. rewrite F.
    rewrite H in T. now rewrite T.
  - cbn [fst List.length]. intros _.
    assert (Z0 : replay_length d 0 = 0%nat)
      by (unfold replay_length; destruct (Db.handle d); reflexivity).
    now rewrite Z0.
Qed.

Lemma replay_length_calm (d : Db.conn) (n : nat) :
  calm d \/ Db.handle d = false -> replay_length d n = n.
Proof.
  unfold replay_length, calm. intros [C|H].
  - rewrite C, accepted_nil. destruct (Db.handle d); lia.
  - now rewrite H.
Qed.

(** X16. A stream request for both kinds replays the standard-output
    file and then the error file, each cut to its last 100 lines; a
    file that cannot be read contributes nothing and does not stop the
    other.  The lines handed to the Config Store are the lines
    pushed.  Without a handle on the database, or when the server
    executes every statement, these are all lines of the two windows;
    a rejected insert ends the replay of its file after that line and
    the replay goes on with the next file.  The request opens one bus
    for the process unless the bus cannot be launched, and sets or
    clears no interval.  A request for a process the supervisor does
    not know pushes one error, opens no bus and persists nothing. *)
Theorem logs_stream_replays_out_then_err :
  forall (now pm2Id : Z) (process : Pm2Service.PM2ProcessInfo)
         (readLines : string -> completion (list string)) (err : bool)
         (w : Socket.world) (outPath errPath : string),
    Pm2Service.pm_out_log_path process = Some outPath ->
    Pm2Service.pm_err_log_path process = Some errPath ->
    outPath <> EmptyString ->
    errPath <> EmptyString ->
    let request :=
      {| Socket.req_pm2Id := pm2Id; Socket.req_type := Socket.type_both |} in
    let after :=
      Socket.on_logs_stream now request (Normal (Some process)) readLines
        err w in
    let d := Routers.db (Socket.st w) in
    let out := replayed readLines outPath in
    let errs := replayed readLines errPath in
    let n1 := replay_length d (List.length out) in
    let n2 := replay_length (later n1 d) (List.length errs) in
    map Socket.content (Socket.emitted (snd after))
    = firstn n1 out ++ firstn n2 errs
    /\ map Db.InsertLogEntry.content (Socket.persisted (snd after))
       = firstn n1 out ++ firstn n2 errs
    /\ (calm d \/ Db.handle d = false ->
        map Socket.content (Socket.emitted (snd after)) = out ++ errs)
    /\ Socket.intervals (fst after) = Socket.intervals w
    /\ Socket.buses (fst after)
       = (if err then Socket.buses w
          else Socket.buses w ++ [(Socket.next_handle w, pm2Id)])
    /\ Socket.on_logs_stream now request (Normal None) readLines err w
       = (w, [Socket.emit_error "Process not found"]).
Proof.
  intros now pm2Id process readLines err w outPath errPath Ho He No Ne
         request after d out errs n1 n2.
  assert (P : Socket.logPaths Socket.type_both process = [outPath; errPath]).
  { unfold Socket.logPaths. rewrite Ho, He.
    destruct outPath; [congruence|]. destruct errPath; [congruence|].
    reflexivity. }
  assert (Ec : forall path l,
             map Socket.content (map (Socket.history_data now pm2Id path) l)
             = l).
  { intros path l. rewrite map_map.
    cbn [Socket.content Socket.history_data]. apply map_id. }
  assert (Pc : forall path l,
             map Db.InsertLogEntry.content
                 (map (Socket.history_entry pm2Id path) l)
             = l).
  { intros path l. rewrite map_map.
    cbn [Db.InsertLogEntry.content Socket.history_entry]. apply map_id. }
  assert (A : map Socket.content (Socket.emitted (snd after))
              = firstn n1 out ++ firstn n2 errs
              /\ map Db.InsertLogEntry.content (Socket.persisted (snd after))
                 = firstn n1 out ++ firstn n2 errs
              /\ Socket.intervals (fst after) = Socket.intervals w
              /\ Socket.buses (fst after)
                 = (if err then Socket.buses w
                    else Socket.buses w ++ [(Socket.next_handle w, pm2Id)])).
  { subst after request. unfold Socket.on_logs_stream.
    cbn [Socket.req_pm2Id Socket.req_type]. rewrite P.
    cbn [Socket.stream_files]. fold d.
    destruct (stream_file_replayed now pm2Id readLines outPath d) as [E1 P1].
    pose proof (stream_file_store now pm2Id readLines outPath d
                  (List.length errs)) as S1.
    fold out n1 in E1, P1, S1. fold n2 in S1.
    destruct (Socket.stream_file now pm2Id readLines outPath d) as [d1 acts1].
    cbn [fst snd] in E1, P1, S1.
    destruct (stream_file_replayed now pm2Id readLines errPath d1) as [E2 P2].
    fold errs in E2, P2. rewrite S1 in E2, P2.
    destruct (Socket.stream_file now pm2Id readLines errPath d1) as [d2 acts2].
    cbn [fst snd] in E2, P2.
    rewrite app_nil_r.
    assert (Em : map Socket.content (Socket.emitted (acts1 ++ acts2))
                 = firstn n1 out ++ firstn n2 errs).
    { now rewrite emitted_app, map_app, E1, E2, !Ec. }
    assert (Pm : map Db.InsertLogEntry.content
                     (Socket.persisted (acts1 ++ acts2))
                 = firstn n1 out ++ firstn n2 errs).
    { now rewrite persisted_app, map_app, P1, P2, !Pc. }
    destruct err; cbn [fst snd Socket.intervals Socket.buses];
      repeat split; assumption. }
  destruct A as [A1 [A2 [A3 A4]]].
  split; [exact A1|]. split; [exact A2|]. split; [|split; [exact A3|]].
  - intros C. rewrite A1. subst n1 n2.
    rewrite (replay_length_calm d _ C).
    rewrite replay_length_calm.
    + now rewrite !firstn_all.
    + unfold calm in *. cbn [later Db.handle Db.faults].
      destruct C as [C|C]; [left | right; exact C].
      rewrite C. apply skipn_nil.
  - split; [exact A4 | reflexivity].
Qed.

Lemma close_bus_not_found (b : Socket.handle) (l : list (Socket.handle * Z)) :
  find (fun x => Nat.eqb (fst x) b) (Socket.close_bus b l) = None.
Proof.
  unfold Socket.close_bus. apply find_filter_dropped.
  intros x Hx. now rewrite Hx.
Qed.

(** X17. The handler of logs:stop emits nothing; after it the session
    holds no bus, the bus it held is closed, so that a packet on it
    does nothing, and a second stop changes nothing.  On a session
    whose open buses are the one it holds no bus stays open. *)
Theorem logs_stop_idempotent :
  forall w : Socket.world,
    let w1 := fst (Socket.on_logs_stop w) in
    Socket.on_logs_stop w = (w1, [])
    /\ Socket.on_logs_stop w1 = (w1, [])
    /\ Socket.pm2Bus (Socket.data w1) = None
    /\ Socket.intervals w1 = Socket.intervals w
    /\ (forall b now p,
           Socket.pm2Bus (Socket.data w) = Some b ->
           Socket.on_bus_log b now p w1 = (w1, []))
    /\ (stream_tracked w -> Socket.buses w1 = []).
Proof.
  intros w w1. subst w1. unfold Socket.on_logs_stop.
  destruct (Socket.pm2Bus (Socket.data w)) as [b|] eqn:E;
    cbn [fst Socket.data Socket.pm2Bus Socket.intervals Socket.buses].
  - repeat split.
    + intros b' now p [= <-]. unfold Socket.on_bus_log.
      cbn [Socket.buses]. now rewrite close_bus_not_found.
    + intros T. apply close_bus_all. intros x Hx.
      specialize (T x Hx). congruence.
  - rewrite E. repeat split; [discriminate|].
    intros T. unfold stream_tracked in T.
    destruct (Socket.buses w) as [|[x id] r]; [reflexivity|].
    specialize (T x (or_introl eq_refl)). congruence.
Qed.

(** ** Config Store: groups on a reachable backend *)

Lemma find_db_group_None (l : list Db.TaskGroup.t) (id : Z) :
  (forall g, In g l -> Db.TaskGroup.id g <> id) ->
  find (fun g => Db.TaskGroup.id g =? id) l = None.
Proof.
  intros H. apply find_all_false. intros g Hg. apply Z.eqb_neq. now apply H.
Qed.

Lemma map_unchanged {A : Type} (p : A -> bool) (f : A -> A) (l : list A) :
  find p l = None -> map (fun x => if p x then f x else x) l = l.
Proof.
  intros F. rewrite <- (map_id l) at 2. apply map_ext_in. intros x Hx.
  now rewrite (find_none _ _ F x Hx).
Qed.

Lemma with_taskGroups_same (d : Db.Database) :
  Db.with_taskGroups d (Db.taskGroups d) (Db.taskGroups_auto d) = d.
Proof. now destruct d. Qed.

Lemma getTaskGroupById_reachable (id : Z) (d : Db.Database) :
  Db.getTaskGroupById id (Db.reachable d)
  = (Normal (find (fun g => Db.TaskGroup.id g =? id) (Db.taskGroups d)),
     Db.reachable d).
Proof. reflexivity. Qed.

Lemma createTaskGroup_reachable (now : Z) (group : Db.InsertTaskGroup.t)
  (d : Db.Database) :
  groups_below_auto d ->
  find (fun g => Db.TaskGroup.id g =? Db.taskGroups_auto d) (Db.taskGroups d)
  = None
  /\ Db.createTaskGroup now group (Db.reachable d)
     = (Normal (Db.new_group_row (Db.taskGroups_auto d) now group),
        Db.reachable
          (Db.with_taskGroups d
             (Db.taskGroups d
              ++ [Db.new_group_row (Db.taskGroups_auto d) now group])
             (Db.taskGroups_auto d + 1))).
Proof.
  intros B.
  assert (N : find (fun g => Db.TaskGroup.id g =? Db.taskGroups_auto d)
                   (Db.taskGroups d) = None).
  { apply find_db_group_None. intros g Hg. specialize (B g Hg). lia. }
  split; [exact N|].
  unfold Db.createTaskGroup, bindS, Db.getTaskGroupById, Db.select,
    Db.statement, Db.insert_group, Db.reachable, retS, throwS.
  cbn [Db.handle Db.faults Db.tables hd tl fst snd Db.taskGroups
         Db.with_taskGroups].
  rewrite find_app, N. cbn [find Db.new_group_row Db.TaskGroup.id].
  now rewrite Z.eqb_refl.
Qed.

Lemma updateTaskGroup_found (now id : Z) (data : Db.PartialTaskGroup.t)
  (d : Db.Database) (g : Db.TaskGroup.t) :
  Db.no_values data = false ->
  find (fun g => Db.TaskGroup.id g =? id) (Db.taskGroups d) = Some g ->
  Db.updateTaskGroup now id data (Db.reachable d)
  = (Normal (Some (Db.set_group now data g)),
     Db.reachable
       (Db.with_taskGroups d
          (map (fun g => if Db.TaskGroup.id g =? id
                         then Db.set_group now data g else g)
               (Db.taskGroups d))
          (Db.taskGroups_auto d))).
Proof.
  intros V F.
  unfold Db.updateTaskGroup, bindS, Db.getTaskGroupById, Db.select, Db.update,
    Db.statement, Db.reachable.
  cbn [Db.handle Db.faults Db.tables hd tl fst snd]. rewrite V.
  cbn [Db.taskGroups Db.with_taskGroups].
  rewrite (find_map_same (fun g => Db.TaskGroup.id g =? id)
             (fun g => if Db.TaskGroup.id g =? id
                       then Db.set_group now data g else g))
    by (intros x; now destruct (Db.TaskGroup.id x =? id) eqn:E).
  rewrite F. cbn [option_map]. apply find_some in F as [_ F]. now rewrite F.
Qed.

Lemma updateTaskGroup_missing (now id : Z) (data : Db.PartialTaskGroup.t)
  (d : Db.Database) :
  Db.no_values data = false ->
  find (fun g => Db.TaskGroup.id g =? id) (Db.taskGroups d) = None ->
  Db.updateTaskGroup now id data (Db.reachable d)
  = (Normal None, Db.reachable d).
Proof.
  intros V F.
  unfold Db.updateTaskGroup, bindS, Db.getTaskGroupById, Db.select, Db.update,
    Db.statement, Db.reachable.
  cbn [Db.handle Db.faults Db.tables hd tl fst snd]. rewrite V.
  cbn [Db.taskGroups Db.with_taskGroups].
  rewrite (map_unchanged (fun g => Db.TaskGroup.id g =? id)
             (Db.set_group now data) _ F).
  now rewrite F, with_taskGroups_same.
Qed.


(** X21. The update of a group through the routing layer, with a
    handle on the database: an update that supplies no column fails
    with 'No values to set' and writes neither store; when the server
    rejects the statement the procedure fails with that error and
    writes neither store; when the server executes the statements and
    the Config Store holds the group, the procedure returns the
    updated row and leaves the Fallback Store alone.  When the Config
    Store does not hold the group, or there is no handle, the
    procedure returns what the update of the Fallback Store returns
    and the rows of the Config Store are as they were. *)
Theorem groups_update_prefers_config_store :
  forall (t : Routers.clock) (id : Z) (data : LocalStorage.GroupUpdates.t)
         (fl : LocalStorage.disk) (d : Db.Database),
    let local :=
      LocalStorage.updateTaskGroupLocal (Routers.iso t) id data fl in
    (forall faults,
        Db.no_values (Routers.as_partial data) = true ->
        let s := {| Routers.db := {| Db.handle := true; Db.faults := faults;
                                     Db.tables := d |};
                    Routers.file := fl |} in
        Routers.groups_update t id data s
        = (Throw (ErrorObj "No values to set"), s))
    /\ (forall e rest,
           Db.no_values (Routers.as_partial data) = false ->
           Routers.groups_update t id data
             {| Routers.db := {| Db.handle := true;
                                 Db.faults := Some e :: rest;
                                 Db.tables := d |};
                Routers.file := fl |}
           = (Throw e,
              {| Routers.db := {| Db.handle := true; Db.faults := rest;
                                  Db.tables := d |};
                 Routers.file := fl |}))
    /\ (Db.no_values (Routers.as_partial data) = false ->
        match fst (Db.getTaskGroupById id (Db.reachable d)) with
        | Normal (Some g) =>
            exists s',
              Routers.groups_update t id data
                {| Routers.db := Db.reachable d; Routers.file := fl |}
              = (Normal (Some (Routers.DbGroup
                                 (Db.set_group (Routers.now t)
                                    (Routers.as_partial data) g))),
                 s')
              /\ Routers.file s' = fl
        | _ =>
            Routers.groups_update t id data
              {| Routers.db := Db.reachable d; Routers.file := fl |}
            = (Normal (option_map Routers.LocalGroup (fst local)),
               {| Routers.db := Db.reachable d; Routers.file := snd local |})
        end)
    /\ (forall faults,
           let none := {| Db.handle := false; Db.faults := faults;
                          Db.tables := d |} in
           Routers.groups_update t id data
             {| Routers.db := none; Routers.file := fl |}
           = (Normal (option_map Routers.LocalGroup (fst local)),
              {| Routers.db := none; Routers.file := snd local |})).
Proof.
  intros t id data fl d local. split; [|split; [|split]].
  - intros faults V s. subst s.
    unfold Routers.groups_update, bindS, Routers.on_db, Db.updateTaskGroup.
    cbn [Routers.db Db.handle]. now rewrite V.
  - intros e rest V.
    unfold Routers.groups_update, bindS, Routers.on_db, Db.updateTaskGroup,
      Db.update, Db.statement.
    cbn [Routers.db Db.handle Db.faults Db.tables hd tl]. now rewrite V.
  - intros V. rewrite getTaskGroupById_reachable. cbn [fst].
    unfold Routers.groups_update, bindS, Routers.on_db.
    cbn [Routers.db Routers.file].
    destruct (find (fun g => Db.TaskGroup.id g =? id) (Db.taskGroups d))
      as [g|] eqn:F.
    + rewrite (updateTaskGroup_found _ _ _ _ _ V F). eexists.
      split; reflexivity.
    + rewrite (updateTaskGroup_missing _ _ _ _ V F).
      cbn [Routers.with_db Routers.file Routers.with_file Routers.db].
      subst local.
      now destruct (LocalStorage.updateTaskGroupLocal _ _ _ _).
  - intros faults none. subst none local.
    unfold Routers.groups_update, bindS, Routers.on_db, Db.updateTaskGroup.
    cbn [Routers.db Routers.file Db.handle Routers.with_db Routers.with_file].
    now destruct (LocalStorage.updateTaskGroupLocal _ _ _ _).
Qed.

(** X22. When the server executes the query, or there is no handle,
    the group listing shows every group of the Config Store exactly
    once, and none of the Fallback Store, as soon as there is a handle
    and the Config Store holds a group; otherwise it shows every group
    of the Fallback Store exactly once.  The rows of the Config Store
    come ordered by name whenever the collation is a total order.
    When the server rejects the query the listing fails with that
    error. *)
Theorem groups_list_one_store :
  forall (K : Collation) (s : Routers.stores),
    (calm (Routers.db s) ->
     exists listing,
       Routers.groups_list K s = (Normal listing, s)
       /\ (Db.handle (Routers.db s) = true ->
           Db.taskGroups (Db.tables (Routers.db s)) <> [] ->
           Permutation listing
             (map Routers.DbGroup
                  (Db.taskGroups (Db.tables (Routers.db s)))))
       /\ (Db.handle (Routers.db s) = false
           \/ Db.taskGroups (Db.tables (Routers.db s)) = [] ->
           Permutation listing
             (map Routers.LocalGroup
                  (LocalStorage.groups
                     (LocalStorage.loadData (Routers.file s))))))
    /\ (calm (Routers.db s) ->
        (forall a b, order_by_le K a b = true \/ order_by_le K b a = true) ->
        (forall a b c, order_by_le K a b = true -> order_by_le K b c = true ->
                       order_by_le K a c = true) ->
        exists rows,
          fst (Db.getAllTaskGroups K (Routers.db s)) = Normal rows
          /\ StronglySorted
               (fun a b => order_by_le K (Db.TaskGroup.name a)
                                        (Db.TaskGroup.name b) = true)
               rows)
    /\ (forall e rest,
           Db.handle (Routers.db s) = true ->
           Db.faults (Routers.db s) = Some e :: rest ->
           fst (Routers.groups_list K s) = Throw e).
Proof.
  intros K s. split; [|split].
  - intros C. rewrite (groups_list_calm K s C). eexists.
    split; [reflexivity|]. cbn zeta. split.
    + intros H N. rewrite H, sort_by_length.
      destruct (Db.taskGroups (Db.tables (Routers.db s))) as [|g r] eqn:G;
        [congruence|].
      cbn [List.length]. rewrite Nat2Z.inj_succ.
      destruct (Z.ltb_spec 0 (Z.succ (Z.of_nat (List.length r)))) as [_|];
        [|lia].
      apply Permutation_map, sort_by_perm.
    + intros E.
      assert (G : (if Db.handle (Routers.db s)
                   then sort_by
                          (fun a b => order_by_le K (Db.TaskGroup.name a)
                                                  (Db.TaskGroup.name b))
                          (Db.taskGroups (Db.tables (Routers.db s)))
                   else []) = []).
      { destruct E as [->| ->]; [reflexivity|].
        now destruct (Db.handle (Routers.db s)). }
      rewrite G. cbn [List.length Z.of_nat Z.ltb Z.compare].
      apply Permutation_map. unfold LocalStorage.getAllTaskGroupsLocal.
      apply sort_by_perm.
  - intros C T R. destruct s as [[h f d] fl]. unfold calm in C.
    cbn [Routers.db Db.faults] in *. subst f.
    destruct h.
    + eexists. split; [reflexivity|].
      apply (sort_by_sorted
               (fun a b => order_by_le K (Db.TaskGroup.name a)
                                       (Db.TaskGroup.name b))).
      * intros a b. apply T.
      * intros a b c. apply R.
    + exists []. split; [reflexivity | constructor].
  - intros e rest H F. destruct s as [[h f d] fl].
    cbn [Routers.db Db.handle Db.faults] in *. subst h f. reflexivity.
Qed.

(** ** Config Store: assignments on a reachable backend *)

(** X23. On a backend that executes the statement, a group assignment
    changes the group id of the task config of that process and
    nothing else: no row is created when the process has none, no row
    is removed, the rows of other processes and the group table are as
    before. *)
Theorem config_store_assignment_updates_only :
  forall (now pm2Id : Z) (groupId : option Z) (d : Db.Database),
    let lookup (id : Z) (d : Db.Database) :=
      fst (Db.getTaskConfigByPm2Id id (Db.reachable d)) in
    exists d',
      Db.updateTaskConfigGroup now pm2Id groupId (Db.reachable d)
      = (Normal tt, Db.reachable d')
      /\ (exists before,
             lookup pm2Id d = Normal before
             /\ lookup pm2Id d'
                = Normal (option_map (Db.assign_group now groupId) before))
      /\ (forall other, other <> pm2Id -> lookup other d' = lookup other d)
      /\ map Db.TaskConfig.pm2Id (Db.taskConfigs d')
         = map Db.TaskConfig.pm2Id (Db.taskConfigs d)
      /\ (forall c, In c (Db.taskConfigs d') ->
                    Db.TaskConfig.pm2Id c = pm2Id ->
                    Db.TaskConfig.groupId c = groupId)
      /\ Db.taskGroups d' = Db.taskGroups d.
Proof.
  intros now pm2Id groupId d. cbn zeta.
  exists (Db.with_taskConfigs d
            (map (fun c => if Db.TaskConfig.pm2Id c =? pm2Id
                           then Db.assign_group now groupId c else c)
                 (Db.taskConfigs d))
            (Db.taskConfigs_auto d)).
  split; [reflexivity|].
  split; [|split; [|split; [|split; [|reflexivity]]]].
  - exists (find (fun c => Db.TaskConfig.pm2Id c =? pm2Id) (Db.taskConfigs d)).
    split; [reflexivity|].
    rewrite getTaskConfigByPm2Id_reachable.
    cbn [fst Db.taskConfigs Db.with_taskConfigs]. f_equal.
    rewrite (find_map_same (fun c => Db.TaskConfig.pm2Id c =? pm2Id)
               (fun c => if Db.TaskConfig.pm2Id c =? pm2Id
                         then Db.assign_group now groupId c else c))
      by (intros c; now destruct (Db.TaskConfig.pm2Id c =? pm2Id) eqn:E).
    destruct (find (fun c => Db.TaskConfig.pm2Id c =? pm2Id)
                   (Db.taskConfigs d)) as [c|] eqn:F; [|reflexivity].
    cbn [option_map]. apply find_some in F as [_ F]. now rewrite F.
  - intros other O. rewrite !getTaskConfigByPm2Id_reachable.
    cbn [fst Db.taskConfigs Db.with_taskConfigs]. f_equal.
    rewrite (find_map_same (fun c => Db.TaskConfig.pm2Id c =? other)
               (fun c => if Db.TaskConfig.pm2Id c =? pm2Id
                         then Db.assign_group now groupId c else c))
      by (intros c; now destruct (Db.TaskConfig.pm2Id c =? pm2Id)).
    destruct (find (fun c => Db.TaskConfig.pm2Id c =? other)
                   (Db.taskConfigs d)) as [c|] eqn:F; [|reflexivity].
    cbn [option_map]. apply find_some in F as [_ F]. apply Z.eqb_eq in F.
    destruct (Z.eqb_spec (Db.TaskConfig.pm2Id c) pm2Id);
      [congruence | reflexivity].
  - cbn [Db.taskConfigs Db.with_taskConfigs].
    rewrite map_map. apply map_ext. intros c.
    now destruct (Db.TaskConfig.pm2Id c =? pm2Id).
  - cbn [Db.taskConfigs Db.with_taskConfigs].
    intros c Hc E. apply in_map_iff in Hc as [x [<- Hx]].
    destruct (Z.eqb_spec (Db.TaskConfig.pm2Id x) pm2Id) as [|N];
      [reflexivity|]. contradiction.
Qed.

(** X24. The creation of a group through the routing layer writes one
    store only: the Config Store when there is a handle on a server
    that executes the statements (and the counter is above the ids),
    the Fallback Store when there is no handle.  The group returned
    carries the given name, the id the written store generates, and
    the given color; without a color it is "#00ffff" from the Config
    Store and "#3B82F6" from the Fallback Store. *)
Theorem groups_create_one_store :
  forall (t : Routers.clock) (input : LocalStorage.GroupInput.t)
         (s : Routers.stores),
    calm (Routers.db s) ->
    (Db.handle (Routers.db s) = true ->
     groups_below_auto (Db.tables (Routers.db s))) ->
    let created := Routers.groups_create t input s in
    let g := fst created in
    Routers.group_name g = LocalStorage.GroupInput.name input
    /\ Routers.group_id g = generated_id s
    /\ Routers.group_color g
       = Some (if Db.handle (Routers.db s)
               then match LocalStorage.GroupInput.color input with
                    | Some c => c
                    | None => "#00ffff"
                    end
               else or_default (LocalStorage.GroupInput.color input)
                               "#3B82F6")
    /\ (if Db.handle (Routers.db s)
        then Routers.file (snd created) = Routers.file s
             /\ exists r, g = Routers.DbGroup r
        else Routers.db (snd created) = Routers.db s
             /\ exists r, g = Routers.LocalGroup r).
Proof.
  intros t input s C B created g. subst g created.
  unfold generated_id.
  destruct s as [[h f d] fl]. unfold calm in C.
  cbn [Routers.db Routers.file Db.handle Db.faults Db.tables] in *.
  subst f. destruct h.
  - unfold Routers.groups_create, Routers.on_db. cbn [Routers.db].
    destruct (createTaskGroup_reachable (Routers.now t)
                (Routers.as_insert input) d (B eq_refl)) as [_ E].
    unfold Db.reachable in E. rewrite E.
    cbn [fst snd Routers.group_name Routers.group_id Routers.group_color
           Db.new_group_row Db.TaskGroup.name Db.TaskGroup.id
           Db.TaskGroup.color Routers.as_insert Db.InsertTaskGroup.name
           Db.InsertTaskGroup.color Routers.file Routers.with_db].
    repeat split; eauto.
    now destruct (LocalStorage.GroupInput.color input).
  - rewrite groups_create_no_handle.
    unfold LocalStorage.createTaskGroupLocal.
    cbn [fst snd Routers.group_name Routers.group_id Routers.group_color
           LocalStorage.LocalTaskGroup.name LocalStorage.LocalTaskGroup.id
           LocalStorage.LocalTaskGroup.color Routers.db].
    repeat split; eauto.
Qed.

(** ** The process table of the dashboard *)



(** ** Instances *)

(** The replay of a file of 102 lines, on a server that executes
    every insert and on one that rejects the first. *)
Lemma history_replay_last_lines_witness :
  Scenario.readLong "/logs/app-out.log" = Normal Scenario.long_file
  /\ map Socket.content
         (Socket.emitted
            (snd (Socket.stream_file 0 1 Scenario.readLong "/logs/app-out.log"
                    (Db.reachable Fixtures.empty_database))))
     = repeat "x" 99 ++ ["last"]
  /\ map Socket.content
         (Socket.emitted
            (snd (Socket.stream_file 0 1 Scenario.readLong "/logs/app-out.log"
                    (Db.rejecting Fixtures.connection_refused 1
                       Fixtures.empty_database))))
     = ["x"].
Proof.
  split; [reflexivity|]. split.
  - pose proof (history_replay_last_lines 0 1 Scenario.readLong
                  "/logs/app-out.log" Scenario.long_file
                  (Db.reachable Fixtures.empty_database) eq_refl) as H.
    cbn zeta in H.
    exact (proj1 (proj1 (proj2 (proj2 (proj2 H))) (or_intror eq_refl))).
  - pose proof (history_replay_last_lines 0 1 Scenario.readLong
                  "/logs/app-out.log" Scenario.long_file
                  (Db.rejecting Fixtures.connection_refused 1
                     Fixtures.empty_database) eq_refl) as H.
    cbn zeta in H.
    refine (proj1 (proj1 (proj2 (proj2 (proj2 (proj2 H)))) eq_refl _)).
    vm_compute. lia.
Defined.

(** A restart batch over the ids 3, 1, 2 where id 2 is unknown. *)
Lemma batchOperation_tally_witness :
  Permutation [1; 2; 3] [3; 1; 2]
  /\ Fixtures.decimal 2 = "2"
  /\ snd (Pm2Service.batchOperation nat Scenario.counting Scenario.counting
            Scenario.counting Fixtures.decimal [3; 1; 2]
            Pm2Service.op_restart O)
     = {| Pm2Service.success := 2;
          Pm2Service.failed := 1;
          Pm2Service.errors := ["Process 2: process or namespace not found"] |}.
Proof.
  assert (P : Permutation [1; 2; 3] [3; 1; 2]).
  { apply (Permutation_cons_app [3] [2]). apply perm_swap. }
  split; [exact P|]. split; [reflexivity|].
  refine (proj2 (proj2 (batchOperation_tally nat Scenario.counting
                          Scenario.counting Scenario.counting
                          Fixtures.decimal))
            [3; 1; 2] Pm2Service.op_restart O
            (ErrorObj "process or namespace not found") _ P
            (fun id s' => conj eq_refl (conj eq_refl eq_refl)) eq_refl).
  discriminate.
Defined.


(** The purge of samples of mixed ages at noon of 3 November 2025: on
    a host in UTC the sample that is exactly seven days old goes with
    the older one; on a host in New York, whose clocks went back the
    night before, the cutoff is one hour earlier and that sample
    stays. *)
Lemma purge_at_or_before_cutoff_witness :
  let now := 1762171200000 in
  days_back Fixtures.utc now 7 = Some (now - 7 * 86400000)
  /\ days_back Fixtures.new_york_november_2025 now 7
     = Some (now - 7 * 86400000 - 3600000)
  /\ (exists d',
         Db.cleanOldPerformanceMetrics Fixtures.utc now None
           (Db.reachable History.aged)
         = (Normal tt, Db.reachable d')
         /\ Db.performanceMetrics d'
            = [History.sample 3 2 (now - 6 * 86400000);
               History.sample 4 1 (now - 3600000)])
  /\ (exists d',
         Db.cleanOldPerformanceMetrics Fixtures.new_york_november_2025 now
           None (Db.reachable History.aged)
         = (Normal tt, Db.reachable d')
         /\ Db.performanceMetrics d'
            = [History.sample 2 1 (now - 7 * 86400000);
               History.sample 3 2 (now - 6 * 86400000);
               History.sample 4 1 (now - 3600000)]).
Proof.
  cbn zeta. split; [reflexivity|]. split; [reflexivity|]. split.
  - destruct (proj1 (purge_at_or_before_cutoff Fixtures.utc 1762171200000
                       None History.aged)
                (1762171200000 - 7 * 86400000) eq_refl)
      as [d' [E [F _]]].
    exists d'. split; [exact E | exact F].
  - destruct (proj1 (purge_at_or_before_cutoff
                       Fixtures.new_york_november_2025 1762171200000
                       None History.aged)
                (1762171200000 - 7 * 86400000 - 3600000) eq_refl)
      as [d' [E [F _]]].
    exists d'. split; [exact E | exact F].
Defined.

(** The error log of an application named router. *)
Lemma history_type_follows_path_witness :
  contains "/logs/router-error.log" "out"
  /\ Forall (fun x => Socket.type x = Db.stdout)
            (Socket.emitted
               (snd (Socket.step Fixtures.bytewise Scenario.stream_stderr
                       Scenario.w0)))
  /\ Socket.emitted
       (snd (Socket.step Fixtures.bytewise Scenario.stream_stderr
               Scenario.w0))
     <> [].
Proof.
  assert (C : contains "/logs/router-error.log" "out")
    by (exists "/logs/r", "er-error.log"; reflexivity).
  split; [exact C|].
  pose proof (proj2 history_type_follows_path 0
                {| Socket.req_pm2Id := 1;
                   Socket.req_type := Socket.type_stderr |}
                (Fixtures.process 1 "online" (Some "/logs/app-out.log")
                   (Some "/logs/router-error.log"))
                Scenario.readLines false Scenario.w0
                "/logs/router-error.log" eq_refl eq_refl C) as H.
  cbn zeta in H. split; [exact (proj1 H)|].
  refine (proj1 (proj2 (proj2 H) ["boom"; "bang"] eq_refl _)).
  discriminate.
Defined.

(** A delete batch whose supervisor calls all fail. *)
Lemma batch_delete_cleans_every_config_witness :
  let run :=
    Routers.processes_batchOperation unit Scenario.flaky Scenario.flaky
      (fun id s => (s, Throw (ErrorObj "pm2 is down")))
      Fixtures.decimal [1] Routers.batch_delete tt
      {| Routers.db := Db.reachable Fixtures.assigned_database;
         Routers.file := None |} in
  fst (snd run)
  = Normal {| Pm2Service.success := 0; Pm2Service.failed := 1;
              Pm2Service.errors := ["Process 1: pm2 is down"] |}
  /\ fst (Db.getTaskConfigByPm2Id 1
            (Db.reachable (Db.tables (Routers.db (snd (snd run))))))
     = Normal None.
Proof.
  pose proof (batch_delete_cleans_every_config unit Scenario.flaky
                Scenario.flaky (fun id s => (s, Throw (ErrorObj "pm2 is down")))
                Fixtures.decimal [1] Routers.batch_delete tt
                {| Routers.db := Db.reachable Fixtures.assigned_database;
                   Routers.file := None |}) as H.
  cbn zeta in H.
  destruct (proj1 (proj2 (proj2 (proj2 (proj2 (proj2 (proj2 H)) eq_refl)
                                           eq_refl)))
              eq_refl) as [E L].
  split; [exact E | exact (L 1 (or_introl eq_refl))].
Defined.


(** The two newest samples of process 1. *)
Lemma metric_history_newest_first_witness :
  valid_limit (Some 2)
  /\ exists result,
      Db.getPerformanceMetrics 1 None None (Some 2)
        (Db.reachable History.database)
      = (Normal result, Db.reachable History.database)
      /\ List.length result = 2%nat.
Proof.
  assert (V : valid_limit (Some 2)) by (cbn; lia).
  split; [exact V|].
  destruct (metric_history_newest_first History.database 1
              None None (Some 2) V) as [result [E [_ [L _]]]].
  exists result. split; [exact E | exact L].
Defined.

(** The log lines of process 1 that contain "request". *)
Lemma log_history_newest_first_witness :
  valid_limit None
  /\ exists result,
      Db.getLogEntries History.collation 1 None None (Some "request") None
        (Db.reachable History.database)
      = (Normal result, Db.reachable History.database)
      /\ List.length result = 2%nat.
Proof.
  split; [exact I|].
  destruct (log_history_newest_first History.collation
              History.database 1 None None (Some "request")
              None I) as [result [E [_ [L _]]]].
  exists result. split; [exact E | exact L].
Defined.

(** A stream of both kinds where the standard-output file is missing. *)
Lemma logs_stream_replays_out_then_err_witness :
  map Socket.content
      (Socket.emitted
         (snd (Socket.on_logs_stream 0
                 {| Socket.req_pm2Id := 1;
                    Socket.req_type := Socket.type_both |}
                 Scenario.described Scenario.readLines false Scenario.w0)))
  = ["boom"; "bang"].
Proof.
  exact (proj1 (logs_stream_replays_out_then_err 0 1
                  (Fixtures.process 1 "online" (Some "/logs/app-out.log")
                     (Some "/logs/router-error.log"))
                  Scenario.readLines false Scenario.w0
                  "/logs/app-out.log" "/logs/router-error.log"
                  eq_refl eq_refl
                  ltac:(discriminate) ltac:(discriminate))).
Defined.

(** The group "web" created on an empty database whose server
    executes every statement. *)
Lemma groups_create_one_store_witness :
  let s := {| Routers.db := Db.reachable Fixtures.empty_database;
              Routers.file := None |} in
  calm (Routers.db s)
  /\ groups_below_auto (Db.tables (Routers.db s))
  /\ Routers.group_name
       (fst (Routers.groups_create Fixtures.noon Fixtures.web s))
     = "web".
Proof.
  assert (B : groups_below_auto Fixtures.empty_database)
    by (intros g []).
  split; [reflexivity|]. split; [exact B|].
  exact (proj1 (groups_create_one_store Fixtures.noon Fixtures.web
                  {| Routers.db := Db.reachable Fixtures.empty_database;
                     Routers.file := None |} eq_refl (fun _ => B))).
Defined.
